(** * The bazo virtual machine: a shallow embedding of [vm/vm.go]

    The interpreter [VM.Exec] of [vm/vm.go] is embedded as a function on an
    explicit machine state.  Go's [big.Int] is [Z]; a Go [error] is an
    optional message; a run-time panic of the Go program (index out of range,
    nil dereference) is an outcome of its own.  The parts of the package that
    live in other files (the stacks, the opcode table, arrays, maps, the
    string helpers) are either modelled from the specification, and marked so,
    or taken as operations of a class. *)

From Stdlib Require Import ZArith Lia List Bool.
From Stdlib Require Import Strings.String Strings.Ascii Strings.Byte.
From stdpp Require Import gmap strings.
Import ListNotations.

Local Open Scope string_scope.
Local Open Scope list_scope.
Local Open Scope Z_scope.

(** ** Bytes *)

Definition byte_val (b : byte) : Z := Z.of_N (Byte.to_N b).

Definition byte_of_Z (z : Z) : byte :=
  match Byte.of_N (Z.to_N (z mod 256)) with
  | Some b => b
  | None => x00
  end.

Definition byte_eqb (a b : byte) : bool := byte_val a =? byte_val b.

(** Go's [len] on a slice, as an [int]. *)
Definition len {A} (l : list A) : Z := Z.of_nat (length l).

(** Go's [s[lo:hi]] for [0 <= lo <= hi <= len(s)]. *)
Definition slice {A} (l : list A) (lo hi : Z) : list A :=
  firstn (Z.to_nat (hi - lo)) (skipn (Z.to_nat lo) l).

(** ** [math/big]: the operations of [big.Int] that the interpreter uses *)

Definition BigInt := Z.

Module big.

(** [SetBytes]: the bytes are a big-endian unsigned integer. *)
Definition SetBytes (buf : list byte) : BigInt :=
  fold_left (fun acc b => acc * 256 + byte_val b) buf 0.

(** [BitLen]: length of the absolute value in bits, 0 for 0. *)
Definition BitLen (x : BigInt) : Z :=
  if x =? 0 then 0 else Z.log2 (Z.abs x) + 1.

Fixpoint be_digits (fuel : nat) (n : Z) (acc : list byte) : list byte :=
  match fuel with
  | O => acc
  | S fuel' =>
      if n =? 0 then acc
      else be_digits fuel' (n / 256) (byte_of_Z (n mod 256) :: acc)
  end.

(** [Bytes]: the absolute value as a big-endian byte slice, without
    leading zero bytes (empty for 0).  A number has no more bytes than
    bits, so [BitLen] steps are enough. *)
Definition Bytes (x : BigInt) : list byte :=
  be_digits (Z.to_nat (BitLen x)) (Z.abs x) [].

(** Conversion of a 64-bit pattern to Go's [int64]. *)
Definition wrap_int64 (z : Z) : Z := (z + 2 ^ 63) mod 2 ^ 64 - 2 ^ 63.

(** [Int64]: [v := int64(low64(x.abs)); if x.neg { v = -v }].  For an [x]
    that fits an [int64] this is [x]; otherwise the low 64 bits of the
    magnitude decide. *)
Definition Int64 (x : BigInt) : Z :=
  let v := wrap_int64 (Z.abs x mod 2 ^ 64) in
  if x <? 0 then wrap_int64 (- v) else v.

(** [Cmp]: -1, 0 or +1. *)
Definition Cmp (x y : BigInt) : Z :=
  match x ?= y with
  | Lt => -1
  | Eq => 0
  | Gt => 1
  end.

Definition Add (x y : BigInt) : BigInt := x + y.
Definition Sub (x y : BigInt) : BigInt := x - y.
Definition Mul (x y : BigInt) : BigInt := x * y.
Definition Neg (x : BigInt) : BigInt := - x.

(** [Div] and [Mod] are Euclidean: the remainder is never negative. *)
Definition Div (x y : BigInt) : BigInt := Z.sgn y * (x / Z.abs y).
Definition Mod (x y : BigInt) : BigInt := x mod Z.abs y.

Definition Lsh (x : BigInt) (n : Z) : BigInt := Z.shiftl x n.
Definition Rsh (x : BigInt) (n : Z) : BigInt := Z.shiftr x n.

End big.

(** [binary.LittleEndian.PutUint64] into a fresh 8-byte slice. *)
Definition PutUint64_le (v : Z) : list byte :=
  map (fun i => byte_of_Z (Z.shiftr v (8 * Z.of_nat i))) (seq 0 8).

(** ** Errors *)

(** A Go [error] value: [None] is [nil], [Some m] an error whose [Error()]
    is [m]. *)
Definition error := option string.

(** Modelled from the spec: [StrToBigInt] (in a file that is not among the
    sources).  §3: the error string is left on the stack "as a BigInt whose
    byte representation is the string". *)
Definition StrToBigInt (element : string) : BigInt :=
  big.SetBytes (list_byte_of_string element).

(** Modelled from the spec: [BigIntToString] (in a file that is not among the
    sources).  §6: "the top-of-stack BigInt decoded as UTF-8/ASCII": the
    bytes of the magnitude, read as a string. *)
Definition BigIntToString (element : BigInt) : string :=
  string_of_list_byte (big.Bytes element).

(** Modelled from the spec: [getElementMemoryUsage] (in a file that is not
    among the sources).  §4.2: "Element size is
    nextPow2(max(⌈bitlen/8⌉, 8))". *)
Definition getElementMemoryUsage (bitlen : Z) : Z :=
  2 ^ Z.log2_up (Z.max ((bitlen + 7) / 8) 8).

(** ** The evaluation stack *)

(** Modelled from the spec: the evaluation stack (its file is not among the
    sources).  §3 and §4.2: a sequence of BigInts accessed at the top, with a
    memory quota; "a push is rejected if the per-element rounded-up size
    added to the running total would exceed the VM's configured maximum
    memory"; "pop/peek fail with empty-stack when empty"; [PopIndexAt i]
    "removes the i-th element counted from the bottom".  The head of the list
    is the top of the stack.  The texts of the errors are those of §7. *)
Module Stack.

Record t := mk {
  Stack : list BigInt;
  memoryUsage : Z;
  memoryMax : Z
}.

Definition NewStack (quota : Z) : t :=
  {| Stack := []; memoryUsage := 0; memoryMax := quota |}.

Definition GetLength (s : t) : Z := len (Stack s).

Definition hasEnoughMemory (s : t) (bitlen : Z) : bool :=
  memoryUsage s + getElementMemoryUsage bitlen <=? memoryMax s.

Definition Push (element : BigInt) (s : t) : error * t :=
  if hasEnoughMemory s (big.BitLen element) then
    (None,
     {| Stack := element :: Stack s;
        memoryUsage := memoryUsage s + getElementMemoryUsage (big.BitLen element);
        memoryMax := memoryMax s |})
  else (Some "stack overflow", s).

Definition Pop (s : t) : (BigInt * error) * t :=
  match Stack s with
  | element :: rest =>
      ((element, None),
       {| Stack := rest;
          memoryUsage := memoryUsage s - getElementMemoryUsage (big.BitLen element);
          memoryMax := memoryMax s |})
  | [] => ((0, Some "pop on empty stack"), s)
  end.

Definition Peek (s : t) : BigInt * error :=
  match Stack s with
  | element :: _ => (element, None)
  | [] => (0, Some "pop on empty stack")
  end.

(** [index] counts from the bottom, so it is position
    [GetLength - 1 - index] from the top. *)
Definition PopIndexAt (index : Z) (s : t) : (BigInt * error) * t :=
  let k := Z.to_nat (GetLength s - 1 - index) in
  if (0 <=? index) && (index <? GetLength s) then
    match nth_error (Stack s) k with
    | Some element =>
        ((element, None),
         {| Stack := firstn k (Stack s) ++ skipn (S k) (Stack s);
            memoryUsage := memoryUsage s - getElementMemoryUsage (big.BitLen element);
            memoryMax := memoryMax s |})
    | None => ((0, Some "index out of bounds"), s)
    end
  else ((0, Some "index out of bounds"), s).

End Stack.

(** ** Frames and the call stack *)

Record Frame := mkFrame {
  returnAddress : Z;
  variables : gmap Z BigInt
}.

(** Modelled from the spec: the call stack (its file is not among the
    sources).  §4.3: "Operations: Push(frame), Pop(), Peek() → frame.
    Errors on empty pop/peek."  The stack holds pointers to frames; the one
    place where the interpreter writes through such a pointer ([STORE]) is
    modelled by replacing the top frame. *)
Module CallStack.

Definition t := list Frame.

Definition NewCallStack : t := [].

Definition Push (f : Frame) (cs : t) : t := f :: cs.

Definition Pop (cs : t) : error * t :=
  match cs with
  | _ :: rest => (None, rest)
  | [] => (Some "pop on empty stack", cs)
  end.

Definition Peek (cs : t) : Frame * error :=
  match cs with
  | f :: _ => (f, None)
  | [] => (mkFrame 0 ∅, Some "pop on empty stack")
  end.

End CallStack.

(** ** The opcode table and the host *)

(** The opcode constants of the [switch] in [Exec], in the order of its
    cases. *)
Inductive Op :=
| PUSH | DUP | ROLL | POP | ADD | SUB | MULT | DIV | MOD | NEG
| EQ | NEQ | LT | GT | LTE | GTE | SHIFTL | SHIFTR | NOP | JMP | JMPIF
| CALL | CALLIF | CALLEXT | RET | SIZE | SSTORE | STORE | SLOAD | LOAD
| ADDRESS | ISSUER | BALANCE | CALLER | CALLVAL | CALLDATA
| NEWMAP | MAPPUSH | MAPGETVAL | MAPSETVAL | MAPREMOVE
| NEWARR | ARRAPPEND | ARRINSERT | ARRREMOVE | ARRAT
| SHA3 | CHECKSIG | ERRHALT | HALT.

Definition switch_cases : list Op :=
  [PUSH; DUP; ROLL; POP; ADD; SUB; MULT; DIV; MOD; NEG;
   EQ; NEQ; LT; GT; LTE; GTE; SHIFTL; SHIFTR; NOP; JMP; JMPIF;
   CALL; CALLIF; CALLEXT; RET; SIZE; SSTORE; STORE; SLOAD; LOAD;
   ADDRESS; ISSUER; BALANCE; CALLER; CALLVAL; CALLDATA;
   NEWMAP; MAPPUSH; MAPGETVAL; MAPSETVAL; MAPREMOVE;
   NEWARR; ARRAPPEND; ARRINSERT; ARRREMOVE; ARRAT;
   SHA3; CHECKSIG; ERRHALT; HALT].

(** An entry of the table [OpCodes]: the fields that [vm.go] reads.
    [gasPrice] is compared with the [uint64] fee, so it is a [uint64]. *)
Record OpCode := mkOpCode {
  Name : string;
  Nargs : Z;
  gasPrice : Z
}.

(** The interface [Context] of [vm.go].  The host's state is a value of
    type [C]; [SetContractVariable] is the one method that changes it. *)
Class Context (C : Type) := {
  GetContract : C -> list byte;
  GetContractVariable : C -> Z -> BigInt * error;
  SetContractVariable : C -> Z -> BigInt -> error * C;
  GetAddress : C -> list byte;
  GetIssuer : C -> list byte;
  GetBalance : C -> Z;
  GetSender : C -> list byte;
  GetAmount : C -> Z;
  GetTransactionData : C -> list byte;
  GetFee : C -> Z;
  GetSig1 : C -> list byte
}.

(** What [vm.go] uses from the files of the package that are not among the
    sources, and from the cryptographic libraries: the table [OpCodes], the
    values of the opcode constants, the array and map objects, and the
    conversion [ByteArrayToUI16].  Every result is given as Go returns it, a
    value together with an error.  A method with a pointer receiver returns
    the object it leaves behind. *)
Class Externals := {
  OpCodes : list OpCode;
  opcode_of : Op -> byte;
  ByteArrayToUI16 : list byte -> Z * error;

  Array : Type;
  NewArray : Array;
  ArrayFromBigInt : BigInt -> Array * error;
  Array_ToBigInt : Array -> BigInt;
  Array_Append : Array -> BigInt -> error * Array;
  Array_Insert : Array -> Z -> BigInt -> error * Array;
  Array_Remove : Array -> Z -> error * Array;
  Array_At : Array -> Z -> list byte * error;
  Array_getSize : Array -> Z * error;

  Map : Type;
  NewMap : Map;
  MapFromBigInt : BigInt -> Map * error;
  Map_ToBigInt : Map -> BigInt;
  Map_Append : Map -> list byte -> list byte -> error * Map;
  Map_GetVal : Map -> list byte -> list byte * error;
  Map_SetVal : Map -> list byte -> list byte -> error * Map;
  Map_Remove : Map -> list byte -> error * Map;

  sha3_Sum256 : list byte -> list byte;
  ecdsa_Verify : BigInt -> BigInt -> list byte -> BigInt -> BigInt -> bool
}.

(** ** The machine *)

Record VM (C : Type) := mkVM {
  code : list byte;
  pc : Z;
  evaluationStack : Stack.t;
  callStack : CallStack.t;
  context : C
}.
Arguments mkVM {C}.
Arguments code {C}.
Arguments pc {C}.
Arguments evaluationStack {C}.
Arguments callStack {C}.
Arguments context {C}.

(** Assignment to one field of the machine. *)
Definition with_code {C} (vm : VM C) (c : list byte) : VM C :=
  mkVM c (pc vm) (evaluationStack vm) (callStack vm) (context vm).
Definition with_pc {C} (vm : VM C) (n : Z) : VM C :=
  mkVM (code vm) n (evaluationStack vm) (callStack vm) (context vm).
Definition with_evaluationStack {C} (vm : VM C) (s : Stack.t) : VM C :=
  mkVM (code vm) (pc vm) s (callStack vm) (context vm).
Definition with_callStack {C} (vm : VM C) (cs : CallStack.t) : VM C :=
  mkVM (code vm) (pc vm) (evaluationStack vm) cs (context vm).
Definition with_context {C} (vm : VM C) (ctx : C) : VM C :=
  mkVM (code vm) (pc vm) (evaluationStack vm) (callStack vm) ctx.

(** [NewVM]; the quota of the evaluation stack is set by [NewStack], which is
    not among the sources. *)
Definition NewVM {C} (quota : Z) (ctx : C) : VM C :=
  mkVM [] 0 (Stack.NewStack quota) CallStack.NewCallStack ctx.

(** The result of a piece of the interpreter: a value and the machine it
    leaves, or a run-time panic of the Go program. *)
Inductive Res (S A : Type) :=
| Ok (a : A) (s : S)
| Panicked.
Arguments Ok {S A}.
Arguments Panicked {S A}.

(** How one pass through the loop of [Exec] ends: the loop goes on, or
    [Exec] returns. *)
Inductive Outcome :=
| Continue
| Return (b : bool).

Module VMMonad.

Definition M (C A : Type) := VM C -> Res (VM C) A.

Definition ret {C A} (a : A) : M C A := fun vm => Ok a vm.

Definition bind {C A B} (m : M C A) (k : A -> M C B) : M C B :=
  fun vm =>
    match m vm with
    | Ok a vm' => k a vm'
    | Panicked => Panicked
    end.

Definition panic {C A} : M C A := fun _ => Panicked.

Definition get {C} : M C (VM C) := fun vm => Ok vm vm.

Definition put {C} (vm : VM C) : M C unit := fun _ => Ok tt vm.

End VMMonad.
Import VMMonad.

Declare Scope vm_scope.
Delimit Scope vm_scope with vm.
Notation "'let*' p ':=' c1 'in' c2" := (bind c1 (fun p => c2))
  (at level 10, p pattern, c1 at level 100, c2 at level 200) : vm_scope.
Notation "c1 ;; c2" := (bind c1 (fun _ => c2))
  (at level 100, right associativity) : vm_scope.
Local Open Scope vm_scope.


Section Interpreter.

Context {C : Type} `{!Context C} `{!Externals}.

Abbreviation M := (VMMonad.M C).

(** *** Access to the fields of the machine *)

Definition set_pc (n : Z) : M unit := fun vm => Ok tt (with_pc vm n).

Definition set_evaluationStack (s : Stack.t) : M unit :=
  fun vm => Ok tt (with_evaluationStack vm s).

Definition set_callStack (cs : CallStack.t) : M unit :=
  fun vm => Ok tt (with_callStack vm cs).

Definition set_context (ctx : C) : M unit :=
  fun vm => Ok tt (with_context vm ctx).

Definition set_code (c : list byte) : M unit :=
  fun vm => Ok tt (with_code vm c).

(** [vm.evaluationStack.Push(v)], with the error it returns. *)
Definition evalPush (v : BigInt) : M error :=
  let* vm := get in
  let (err, s) := Stack.Push v (evaluationStack vm) in
  set_evaluationStack s ;; ret err.

Definition evalPop : M (BigInt * error) :=
  let* vm := get in
  let (r, s) := Stack.Pop (evaluationStack vm) in
  set_evaluationStack s ;; ret r.

Definition evalPeek : M (BigInt * error) :=
  let* vm := get in ret (Stack.Peek (evaluationStack vm)).

Definition evalPopIndexAt (index : Z) : M (BigInt * error) :=
  let* vm := get in
  let (r, s) := Stack.PopIndexAt index (evaluationStack vm) in
  set_evaluationStack s ;; ret r.

Definition evalGetLength : M Z :=
  let* vm := get in ret (Stack.GetLength (evaluationStack vm)).

Definition callPeek : M (Frame * error) :=
  let* vm := get in ret (CallStack.Peek (callStack vm)).

(** [vm.evaluationStack.Push(StrToBigInt(msg))]: the error that [Push]
    may return is dropped, as in the source. *)
Definition pushStr (msg : string) : M unit :=
  evalPush (StrToBigInt msg) ;; ret tt.

(** [vm.evaluationStack.Push(StrToBigInt(msg)); return false]. *)
Definition halt (msg : string) : M Outcome :=
  pushStr msg ;; ret (Return false).

(** [err = vm.evaluationStack.Push(v); if err != nil { ...; return false }],
    the end of most cases of the [switch]. *)
Definition pushOrHalt (v : BigInt) : M Outcome :=
  let* err := evalPush v in
  match err with
  | Some msg => halt msg
  | None => ret Continue
  end.

(** *** [fetch], [fetchMany], [checkErrors] *)

Definition fetch : M (byte * error) :=
  let* vm := get in
  let tempPc := pc vm in
  if len (code vm) >? tempPc then
    if tempPc <? 0 then panic
    else
      match nth_error (code vm) (Z.to_nat tempPc) with
      | Some element => set_pc (tempPc + 1) ;; ret (element, None)
      | None => panic
      end
  else ret (x00, Some "instructionSet out of bounds").

Definition fetchMany (argument : Z) : M (list byte * error) :=
  let* vm := get in
  let tempPc := pc vm in
  if len (code vm) - tempPc >? argument then
    if (tempPc <? 0) || (argument <? 0) then panic
    else
      set_pc (tempPc + argument) ;;
      ret (slice (code vm) tempPc (tempPc + argument), None)
  else ret ([], Some "instructionSet out of bounds").

Fixpoint checkErrors (errors : list error) : M bool :=
  match errors with
  | [] => ret true
  | Some msg :: _ => pushStr msg ;; ret false
  | None :: rest => checkErrors rest
  end.

(** *** The cases of the [switch] *)

(** The binary operators: [right] is popped first, [left] second. *)
Definition pop2 : M (BigInt * BigInt * bool) :=
  let* (right_, rerr) := evalPop in
  let* (left_, lerr) := evalPop in
  let* ok := checkErrors [rerr; lerr] in
  ret (right_, left_, ok).

(** [left.Op(&left, &right)] followed by the checked push. *)
Definition arith (f : BigInt -> BigInt -> BigInt) : M Outcome :=
  let* (right_, left_, ok) := pop2 in
  if negb ok then ret (Return false)
  else pushOrHalt (f left_ right_).

(** A comparison pushes 1 or 0; the error of this push is not looked at. *)
Definition compareOp (test : BigInt -> BigInt -> bool) : M Outcome :=
  let* (right_, left_, ok) := pop2 in
  if negb ok then ret (Return false)
  else
    (if test left_ right_ then evalPush 1 else evalPush 0) ;;
    ret Continue.

(** The loop of [CALL] and [CALLIF]:
    [for i := int(argsToLoad) - 1; i >= 0; i-- { frame.variables[i], err = Pop() ... }].
    The first argument is the number of indices still to fill. *)
Fixpoint loadArguments (n : nat) (vars : gmap Z BigInt)
  : M (gmap Z BigInt * error) :=
  match n with
  | O => ret (vars, None)
  | S i =>
      let* (v, err) := evalPop in
      let vars' := <[Z.of_nat i := v]> vars in
      match err with
      | Some msg => ret (vars', Some msg)
      | None => loadArguments i vars'
      end
  end.

(** The body shared by [CALL] and [CALLIF] once the operands are read. *)
Definition doCall (returnAddressBytes : list byte) (argsToLoad : byte)
  : M Outcome :=
  let returnAddress := big.SetBytes returnAddressBytes in
  let* vm := get in
  if (big.Int64 returnAddress =? 0) || (big.Int64 returnAddress >? len (code vm))
  then halt "ReturnAddress out of bounds"
  else
    let* (vars, err) :=
      loadArguments (Z.to_nat (byte_val argsToLoad)) ∅ in
    match err with
    | Some msg => halt msg
    | None =>
        let frame := mkFrame (pc vm) vars in
        let* vm' := get in
        set_callStack (CallStack.Push frame (callStack vm')) ;;
        set_pc (big.Int64 returnAddress) ;;
        ret Continue
    end.

(** The loop of [CALLDATA]; [i] is the loop variable at the test
    [i < len(td)].  Every round moves [i] forward, so [len(td)] rounds
    are enough. *)
Fixpoint calldataLoop (rounds : nat) (td : list byte) (i : Z) : M Outcome :=
  match rounds with
  | O => ret Continue
  | S rounds' =>
      if i <? len td then
        let length_ := byte_val (nth (Z.to_nat i) td x00) in
        if len td - i - 1 <=? length_ then halt "Index out of bounds"
        else
          let* err := evalPush (big.SetBytes (slice td (i + 1) (i + length_ + 2))) in
          match err with
          | Some msg => halt msg
          | None => calldataLoop rounds' td (i + (length_ + 1) + 1)
          end
      else ret Continue
  end.

Definition exec_op (op : Op) : M Outcome :=
  match op with
  | PUSH =>
      let* (arg, errArg1) := fetch in
      let byteCount := byte_val arg + 1 in
      let* (bytes, errArg2) := fetchMany byteCount in
      let* ok := checkErrors [errArg1; errArg2] in
      if negb ok then ret (Return false)
      else pushOrHalt (big.SetBytes bytes)

  | DUP =>
      let* (val, err) := evalPeek in
      let* ok := checkErrors [err] in
      if negb ok then ret (Return false)
      else pushOrHalt val

  | ROLL =>
      let* (arg, err) := fetch in
      let* length_ := evalGetLength in
      let index := length_ - (byte_val arg + 2) in
      let* ok := checkErrors [err] in
      if negb ok then ret (Return false)
      else if negb (index =? -1) then
        let* length' := evalGetLength in
        if byte_val arg >=? length' then halt "index out of bounds"
        else
          let* (newTos, err) := evalPopIndexAt index in
          match err with
          | Some msg => halt msg
          | None => pushOrHalt newTos
          end
      else ret Continue

  | POP =>
      let* (_, rerr) := evalPop in
      let* ok := checkErrors [rerr] in
      if negb ok then ret (Return false) else ret Continue

  | ADD => arith big.Add
  | SUB => arith big.Sub
  | MULT => arith big.Mul

  | DIV =>
      let* (right_, left_, ok) := pop2 in
      if negb ok then ret (Return false)
      else if big.Cmp right_ 0 =? 0 then halt "Division by Zero"
      else pushOrHalt (big.Div left_ right_)

  | MOD =>
      let* (right_, left_, ok) := pop2 in
      if negb ok then ret (Return false)
      else if big.Cmp right_ 0 =? 0 then halt "Division by Zero"
      else pushOrHalt (big.Mod left_ right_)

  | NEG =>
      let* (tos, err) := evalPop in
      match err with
      | Some msg => halt msg
      | None => evalPush (big.Neg tos) ;; ret Continue
      end

  | EQ => compareOp (fun left_ right_ => big.Cmp left_ right_ =? 0)
  | NEQ => compareOp (fun left_ right_ => negb (big.Cmp left_ right_ =? 0))
  | LT => compareOp (fun left_ right_ => big.Cmp left_ right_ =? -1)
  | GT => compareOp (fun left_ right_ => big.Cmp left_ right_ =? 1)
  | LTE => compareOp (fun left_ right_ =>
             (big.Cmp left_ right_ =? -1) || (big.Cmp left_ right_ =? 0))
  | GTE => compareOp (fun left_ right_ =>
             (big.Cmp left_ right_ =? 1) || (big.Cmp left_ right_ =? 0))

  | SHIFTL =>
      let* (nrOfShifts, errArg) := fetch in
      let* (tos, errStack) := evalPop in
      let* ok := checkErrors [errArg; errStack] in
      if negb ok then ret (Return false)
      else pushOrHalt (big.Lsh tos (byte_val nrOfShifts))

  | SHIFTR =>
      let* (nrOfShifts, errArg) := fetch in
      let* (tos, errStack) := evalPop in
      let* ok := checkErrors [errArg; errStack] in
      if negb ok then ret (Return false)
      else pushOrHalt (big.Rsh tos (byte_val nrOfShifts))

  | NOP =>
      let* (_, err) := fetch in
      match err with
      | Some msg => halt msg
      | None => ret Continue
      end

  | JMP =>
      let* (nextInstruction, err) := fetchMany 2 in
      let* ok := checkErrors [err] in
      if negb ok then ret (Return false)
      else
        let jumpTo := big.SetBytes nextInstruction in
        set_pc (big.Int64 jumpTo) ;; ret Continue

  | JMPIF =>
      let* (nextInstruction, errArg) := fetchMany 2 in
      let* (right_, errStack) := evalPop in
      let* ok := checkErrors [errArg; errStack] in
      if negb ok then ret (Return false)
      else
        let jumpTo := big.SetBytes nextInstruction in
        if big.Int64 right_ =? 1 then set_pc (big.Int64 jumpTo) ;; ret Continue
        else ret Continue

  | CALL =>
      let* (returnAddressBytes, errArg1) := fetchMany 2 in
      let* (argsToLoad, errArg2) := fetch in
      let* ok := checkErrors [errArg1; errArg2] in
      if negb ok then ret (Return false)
      else doCall returnAddressBytes argsToLoad

  | CALLIF =>
      let* (returnAddressBytes, errArg1) := fetchMany 2 in
      let* (argsToLoad, errArg2) := fetch in
      let* (right_, errStack) := evalPop in
      let* ok := checkErrors [errArg1; errArg2; errStack] in
      if negb ok then ret (Return false)
      else if big.Int64 right_ =? 1 then doCall returnAddressBytes argsToLoad
      else ret Continue

  | CALLEXT =>
      let* (transactionAddress, errArg1) := fetchMany 32 in
      let* (functionHash, errArg2) := fetchMany 4 in
      let* (argsToLoad, errArg3) := fetch in
      let* ok := checkErrors [errArg1; errArg2; errArg3] in
      if negb ok then ret (Return false) else ret Continue

  | RET =>
      let* (callstackTos, err) := callPeek in
      let* ok := checkErrors [err] in
      if negb ok then ret (Return false)
      else
        let* vm := get in
        set_callStack (snd (CallStack.Pop (callStack vm))) ;;
        set_pc (returnAddress callstackTos) ;;
        ret Continue

  | SIZE =>
      let* (right_, err) := evalPop in
      let* ok := checkErrors [err] in
      if negb ok then ret (Return false)
      else pushOrHalt (getElementMemoryUsage (big.BitLen right_))

  | SSTORE =>
      let* (index, errArgs) := fetch in
      let* (value, errStack) := evalPop in
      let* ok := checkErrors [errArgs; errStack] in
      if negb ok then ret (Return false)
      else
        let* vm := get in
        let (err, ctx) := SetContractVariable (context vm) (byte_val index) value in
        set_context ctx ;;
        match err with
        | Some msg => halt msg
        | None => ret Continue
        end

  | STORE =>
      let* (address, errArgs) := fetch in
      let* (right_, errStack) := evalPop in
      let* ok := checkErrors [errArgs; errStack] in
      if negb ok then ret (Return false)
      else
        let* (callstackTos, err) := callPeek in
        match err with
        | Some msg => halt msg
        | None =>
            let* vm := get in
            let frame :=
              mkFrame (returnAddress callstackTos)
                      (<[byte_val address := right_]> (variables callstackTos)) in
            set_callStack (frame :: tl (callStack vm)) ;;
            ret Continue
        end

  | SLOAD =>
      let* (index, err) := fetch in
      let* ok := checkErrors [err] in
      if negb ok then ret (Return false)
      else
        let* vm := get in
        let (value, err) := GetContractVariable (context vm) (byte_val index) in
        match err with
        | Some msg => halt msg
        | None => pushOrHalt value
        end

  | LOAD =>
      let* (address, errArg) := fetch in
      let* (callstackTos, errCallStack) := callPeek in
      let* ok := checkErrors [errArg; errCallStack] in
      if negb ok then ret (Return false)
      else
        let val := default 0 (variables callstackTos !! byte_val address) in
        pushOrHalt val

  | ADDRESS =>
      let* vm := get in
      pushOrHalt (big.SetBytes (GetAddress (context vm)))

  | ISSUER =>
      let* vm := get in
      pushOrHalt (big.SetBytes (GetIssuer (context vm)))

  | BALANCE =>
      let* vm := get in
      let ba := PutUint64_le (GetBalance (context vm)) in
      pushOrHalt (big.SetBytes ba)

  | CALLER =>
      let* vm := get in
      pushOrHalt (big.SetBytes (GetSender (context vm)))

  | CALLVAL =>
      let* vm := get in
      let ba := PutUint64_le (GetAmount (context vm)) in
      pushOrHalt (big.SetBytes ba)

  | CALLDATA =>
      let* vm := get in
      let td := GetTransactionData (context vm) in
      calldataLoop (S (length td)) td 0

  | NEWMAP => pushOrHalt (Map_ToBigInt NewMap)

  | MAPPUSH =>
      let* (k, kerr) := evalPop in
      let* (v, verr) := evalPop in
      let* (mbi, mbierr) := evalPop in
      let (m, merr) := MapFromBigInt mbi in
      let* ok := checkErrors [kerr; verr; mbierr; merr] in
      if negb ok then ret (Return false)
      else
        let (_, m') := Map_Append m (big.Bytes k) (big.Bytes v) in
        pushOrHalt (Map_ToBigInt m')

  | MAPGETVAL =>
      let* (kbi, kerr) := evalPop in
      let* (mbi, mbierr) := evalPop in
      let k := big.Bytes kbi in
      let (m, merr) := MapFromBigInt mbi in
      let (v, err) := Map_GetVal m k in
      let* ok := checkErrors [kerr; mbierr; merr; err] in
      if negb ok then ret (Return false)
      else pushOrHalt (big.SetBytes v)

  | MAPSETVAL =>
      let* (k, kerr) := evalPop in
      let* (v, verr) := evalPop in
      let* (mbi, mbierr) := evalPop in
      let (m, merr) := MapFromBigInt mbi in
      let* ok := checkErrors [kerr; verr; mbierr; merr] in
      if negb ok then ret (Return false)
      else
        let (err, m') := Map_SetVal m (big.Bytes k) (big.Bytes v) in
        match err with
        | Some msg => halt msg
        | None => pushOrHalt (Map_ToBigInt m')
        end

  | MAPREMOVE =>
      let* (kbi, kbierr) := evalPop in
      let* (mbi, mbierr) := evalPop in
      let (m, merr) := MapFromBigInt mbi in
      let* ok := checkErrors [kbierr; mbierr; merr] in
      if negb ok then ret (Return false)
      else
        let (_, m') := Map_Remove m (big.Bytes kbi) in
        pushOrHalt (Map_ToBigInt m')

  | NEWARR =>
      evalPush (Array_ToBigInt NewArray) ;; ret Continue

  | ARRAPPEND =>
      let* (v, verr) := evalPop in
      let* (a, aerr) := evalPop in
      let* ok := checkErrors [verr; aerr] in
      if negb ok then ret (Return false)
      else
        let (arr, err) := ArrayFromBigInt a in
        match err with
        | Some msg => halt msg
        | None =>
            let (err, arr') := Array_Append arr v in
            match err with
            | Some _ => halt "Invalid argument size of ARRAPPEND"
            | None => pushOrHalt (Array_ToBigInt arr')
            end
        end

  | ARRINSERT =>
      let* (i, err) := evalPop in
      match err with
      | Some msg => halt msg
      | None =>
      if len (big.Bytes i) >? 2 then halt "Wrong index size"
      else
      let* (e, err) := evalPop in
      match err with
      | Some msg => halt msg
      | None =>
      let* (a, err) := evalPop in
      match err with
      | Some msg => halt msg
      | None =>
      let (arr, err) := ArrayFromBigInt a in
      match err with
      | Some msg => halt msg
      | None =>
      let (index, err) := ByteArrayToUI16 (big.Bytes i) in
      match err with
      | Some msg => halt msg
      | None =>
      let (size, err) := Array_getSize arr in
      match err with
      | Some msg => halt msg
      | None =>
      if index >=? size then halt "Index out of bounds"
      else
      let (err, arr') := Array_Insert arr index e in
      match err with
      | Some msg => halt msg
      | None => pushOrHalt (Array_ToBigInt arr')
      end end end end end end end

  | ARRREMOVE =>
      let* (a, aerr) := evalPop in
      let* (ba, errArgs) := fetchMany 2 in
      let (index, _) := ByteArrayToUI16 ba in
      let* ok := checkErrors [aerr; errArgs] in
      if negb ok then ret (Return false)
      else
        let (arr, perr) := ArrayFromBigInt a in
        match perr with
        | Some msg => halt msg
        | None =>
            let (rerr, arr') := Array_Remove arr index in
            match rerr with
            | Some msg => halt msg
            | None => pushOrHalt (Array_ToBigInt arr')
            end
        end

  | ARRAT =>
      let* (a, err) := evalPeek in
      match err with
      | Some msg => halt msg
      | None =>
          let* (ba, err) := fetchMany 2 in
          let (index, conversionErr) := ByteArrayToUI16 ba in
          match conversionErr with
          | Some _ =>
              (* pushes [err.Error()], the error of [fetchMany]: a nil
                 dereference when that one is nil *)
              match err with
              | Some msg => halt msg
              | None => panic
              end
          | None =>
              match err with
              | Some msg => halt msg
              | None =>
                  let (arr, err) := ArrayFromBigInt a in
                  match err with
                  | Some msg => halt msg
                  | None =>
                      let (e, err) := Array_At arr index in
                      match err with
                      | Some msg => halt msg
                      | None => pushOrHalt (big.SetBytes e)
                      end
                  end
              end
          end
      end

  | SHA3 =>
      let* (right_, err) := evalPop in
      match err with
      | Some msg => halt msg
      | None =>
          let hash := sha3_Sum256 (big.Bytes right_) in
          pushOrHalt (big.SetBytes hash)
      end

  | CHECKSIG =>
      let* (publicKeySig, errArg1) := evalPop in
      let* (hash, errArg2) := evalPop in
      let* ok := checkErrors [errArg1; errArg2] in
      if negb ok then ret (Return false)
      else if negb (len (big.Bytes publicKeySig) =? 64) then
        halt "Not a valid address"
      else if negb (len (big.Bytes hash) =? 32) then
        halt "Not a valid hash"
      else
        let pubKey1Sig1 := big.SetBytes (slice (big.Bytes publicKeySig) 0 32) in
        let pubKey2Sig1 := big.SetBytes (slice (big.Bytes publicKeySig) 32 64) in
        let* vm := get in
        let sig1 := GetSig1 (context vm) in
        let r := big.SetBytes (slice sig1 0 32) in
        let s := big.SetBytes (slice sig1 32 64) in
        (if ecdsa_Verify pubKey1Sig1 pubKey2Sig1 (big.Bytes hash) r s
         then evalPush 1 else evalPush 0) ;;
        ret Continue

  | ERRHALT => ret (Return false)

  | HALT => ret (Return true)
  end.

(** *** The loop of [Exec] *)

(** [switch opCode { case PUSH: ... }]: the first case whose constant is
    the fetched byte; a byte that is no case leaves the [switch] at once. *)
Definition decode (opCode : byte) : option Op :=
  find (fun op => byte_eqb (opcode_of op) opCode) switch_cases.

(** The [switch] statement: the case of the byte, or nothing when the byte
    is no case. *)
Definition dispatch (opCode : byte) : M Outcome :=
  match decode opCode with
  | Some op => exec_op op
  | None => ret Continue
  end.

(** One pass through the body of [for { ... }] with [trace] off.  The
    local variable [fee] is an argument and a result. *)
Definition iter (fee : Z) : M (Outcome * Z) :=
  let* (opCode, err) := fetch in
  match err with
  | Some msg => pushStr msg ;; ret (Return false, fee)
  | None =>
      if len OpCodes <? byte_val opCode then
        pushStr "Not a valid opCode" ;; ret (Return false, fee)
      else
        match nth_error OpCodes (Z.to_nat (byte_val opCode)) with
        | None => panic
        | Some entry =>
            if fee <? gasPrice entry then
              pushStr "out of gas" ;; ret (Return false, fee)
            else
              let fee' := (fee - gasPrice entry) mod 2 ^ 64 in
              let* o := dispatch opCode in ret (o, fee')
        end
  end.

(** The loop, run for at most [fuel] passes; [None] when the passes are
    used up before [Exec] returns. *)
Fixpoint loop (fuel : nat) (fee : Z) (vm : VM C) : option (Res (VM C) bool) :=
  match fuel with
  | O => None
  | S fuel' =>
      match iter fee vm with
      | Ok (Continue, fee') vm' => loop fuel' fee' vm'
      | Ok (Return b, _) vm' => Some (Ok b vm')
      | Panicked => Some Panicked
      end
  end.

(** The state of [Exec] when it enters the loop, or its early return. *)
Definition Exec_init : M (option Z) :=
  let* vm := get in
  set_code (GetContract (context vm)) ;;
  if len (GetContract (context vm)) >? 100000 then
    pushStr "Instruction set to big" ;; ret None
  else ret (Some (GetFee (context vm))).

(** [Exec(false)]. *)
Definition Exec (fuel : nat) (vm : VM C) : option (Res (VM C) bool) :=
  match Exec_init vm with
  | Ok None vm' => Some (Ok false vm')
  | Ok (Some fee) vm' => loop fuel fee vm'
  | Panicked => Some Panicked
  end.

(** The price that a pass charges for an opcode byte of the table. *)
Definition price (opCode : byte) : Z :=
  match nth_error OpCodes (Z.to_nat (byte_val opCode)) with
  | Some entry => gasPrice entry
  | None => 0
  end.

(** [k] passes through the loop, none of which ends [Exec]: the opcode
    bytes they fetched, in order, and the fee and the machine they leave. *)
Fixpoint passes (k : nat) (fee : Z) (vm : VM C)
  : option (list byte * Z * VM C) :=
  match k with
  | O => Some ([], fee, vm)
  | S k' =>
      match nth_error (code vm) (Z.to_nat (pc vm)), iter fee vm with
      | Some opCode, Ok (Continue, fee') vm' =>
          match passes k' fee' vm' with
          | Some (ops, fee'', vm'') => Some (opCode :: ops, fee'', vm'')
          | None => None
          end
      | _, _ => None
      end
  end.

(** [GetErrorMsg]. *)
Definition GetErrorMsg (vm : VM C) : string :=
  let (tos, err) := Stack.Peek (evaluationStack vm) in
  match err with
  | Some _ => "Peek on empty Stack"
  | None => BigIntToString tos
  end.

(** *** Vocabulary of the statements *)



(** The messages that [Exec], [fetch] and [fetchMany] write as literals. *)
Definition interpreter_messages : list string :=
  ["Instruction set to big"; "Not a valid opCode"; "out of gas";
   "instructionSet out of bounds"; "index out of bounds"; "Division by Zero";
   "ReturnAddress out of bounds"; "Index out of bounds";
   "Invalid argument size of ARRAPPEND"; "Wrong index size";
   "Not a valid address"; "Not a valid hash"].

(** The errors of the evaluation stack and of the call stack. *)
Definition stack_messages : list string :=
  ["stack overflow"; "pop on empty stack"; "index out of bounds"].

(** The message of an error that the host returns for some request. *)
Definition host_message (msg : string) : Prop :=
  (exists ctx index, snd (GetContractVariable ctx index) = Some msg)
  \/ (exists ctx index value, fst (SetContractVariable ctx index value) = Some msg).

(** The message of an error that a conversion, an array or a map returns for
    some arguments, where the interpreter pushes that message. *)
Definition helper_message (msg : string) : Prop :=
  (exists bs, snd (ByteArrayToUI16 bs) = Some msg)
  \/ (exists x, snd (ArrayFromBigInt x) = Some msg)
  \/ (exists a i e, fst (Array_Insert a i e) = Some msg)
  \/ (exists a i, fst (Array_Remove a i) = Some msg)
  \/ (exists a i, snd (Array_At a i) = Some msg)
  \/ (exists a, snd (Array_getSize a) = Some msg)
  \/ (exists x, snd (MapFromBigInt x) = Some msg)
  \/ (exists m k, snd (Map_GetVal m k) = Some msg)
  \/ (exists m k v, fst (Map_SetVal m k v) = Some msg).

(** The messages a run can push: the literals of the interpreter, the errors
    of the two stacks, and the errors of the host and of the helpers. *)
Definition run_message (msg : string) : Prop :=
  In msg interpreter_messages
  \/ In msg stack_messages
  \/ host_message msg
  \/ helper_message msg.


(** The machine is as a push of an error message leaves it: the BigInt of
    one of the messages of the run is on top of the evaluation stack, or the
    evaluation stack has no room for it, which is when [Push] refuses it and
    leaves the stack as it was. *)
Definition halted_with_message (vm : VM C) : Prop :=
  exists msg : string,
    run_message msg
    /\ ((exists rest, Stack.Stack (evaluationStack vm) = StrToBigInt msg :: rest)
        \/ Stack.hasEnoughMemory (evaluationStack vm)
             (big.BitLen (StrToBigInt msg)) = false).






(** *** Vocabulary of the further statements *)

(** The machine is the one left by a pass that executed [op] and moved
    nothing but [pc], past the opcode byte. *)
Definition stopped_by (op : Op) (vm : VM C) : Prop :=
  exists (vm0 : VM C) (b : byte),
    0 <= pc vm0
    /\ nth_error (code vm0) (Z.to_nat (pc vm0)) = Some b
    /\ decode b = Some op
    /\ vm = with_pc vm0 (pc vm0 + 1).

(** A piece of the interpreter that never makes [Exec] return true. *)
Definition never_true (m : M Outcome) : Prop :=
  forall vm vm', m vm <> Ok (Return true) vm'.

(** A piece of the interpreter that leaves the code alone and, when [host]
    is set, the state of the host as well. *)
Definition keeps {A} (host : bool) (m : M A) : Prop :=
  forall vm a vm',
    m vm = Ok a vm' ->
    code vm' = code vm /\ (host = true -> context vm' = context vm).

(** No byte of the code is the constant of [op]. *)
Definition free_of (op : Op) (program : list byte) : Prop :=
  Forall (fun b => decode b <> Some op) program.

(** The counters of the machine are indices that Go accepts: [pc] and the
    return address of every frame are not negative. *)
Definition counters_valid (vm : VM C) : Prop :=
  0 <= pc vm /\ Forall (fun f => 0 <= returnAddress f) (callStack vm).

(** [wpt m Q vm]: [m] runs on [vm] without a panic, and its result and the
    machine it leaves satisfy [Q]. *)
Definition wpt {A} (m : M A) (Q : A -> VM C -> Prop) (vm : VM C) : Prop :=
  match m vm with
  | Ok a vm' => Q a vm'
  | Panicked => False
  end.

(** What a comparison opcode asks of its operands; [left_] is the operand
    that was pushed first. *)
Definition comparison (op : Op) (left_ right_ : BigInt) : option bool :=
  match op with
  | EQ => Some (left_ =? right_)
  | NEQ => Some (negb (left_ =? right_))
  | LT => Some (left_ <? right_)
  | GT => Some (left_ >? right_)
  | LTE => Some (left_ <=? right_)
  | GTE => Some (left_ >=? right_)
  | _ => None
  end.

(** The 64-bit word whose eight bytes are those of [v], least significant
    byte first, read as a big-endian number. *)
Definition reversed64 (v : Z) : Z :=
  (v mod 256) * 2 ^ 56
  + (v / 2 ^ 8 mod 256) * 2 ^ 48
  + (v / 2 ^ 16 mod 256) * 2 ^ 40
  + (v / 2 ^ 24 mod 256) * 2 ^ 32
  + (v / 2 ^ 32 mod 256) * 2 ^ 24
  + (v / 2 ^ 40 mod 256) * 2 ^ 16
  + (v / 2 ^ 48 mod 256) * 2 ^ 8
  + v / 2 ^ 56 mod 256.

(** A parameter in the transaction data, as [CALLDATA] reads it: a byte
    that holds the length of the parameter less one, then its bytes. *)
Definition parameter (p : list byte) : list byte :=
  byte_of_Z (len p - 1) :: p.

Definition parameters (ps : list (list byte)) : list byte :=
  flat_map parameter ps.

(** The memory that the stack counts for the values. *)
Definition memory_of (vs : list BigInt) : Z :=
  fold_right Z.add 0 (map (fun v => getElementMemoryUsage (big.BitLen v)) vs).

(** The stack after pushes of the values, first to last, that were all
    accepted. *)
Definition pushed_all (vs : list BigInt) (s : Stack.t) : Stack.t :=
  Stack.mk (rev vs ++ Stack.Stack s)
    (Stack.memoryUsage s + memory_of vs) (Stack.memoryMax s).

(** The opcodes whose case starts with a pop (or, for [DUP] and [ARRAT], a
    peek) of the evaluation stack and looks at its error before it fetches
    an operand or calls a helper of another file. *)
Definition pops_first : list Op :=
  [DUP; POP; ADD; SUB; MULT; DIV; MOD; NEG; EQ; NEQ; LT; GT; LTE; GTE; SIZE;
   ARRAPPEND; ARRINSERT; ARRAT; SHA3; CHECKSIG].

End Interpreter.

(** ** A sample instantiation

    The theorems below hold for every host and for every table, numbering
    and implementation of the array and map objects.  To run the interpreter
    on concrete programs this module fixes one of each: the opcodes numbered
    in the order of the [switch], a price of 1 for every opcode, a host that
    keeps its variables in a list (as [Account.ContractVariables] does), and
    arrays and maps in the wire form of §3 of the specification.  The hash
    and the signature check are stand-ins: no statement depends on them. *)
Module Sample.

Definition opcode (op : Op) : byte :=
  match op with
  | PUSH => x00
  | DUP => x01
  | ROLL => x02
  | POP => x03
  | ADD => x04
  | SUB => x05
  | MULT => x06
  | DIV => x07
  | MOD => x08
  | NEG => x09
  | EQ => x0a
  | NEQ => x0b
  | LT => x0c
  | GT => x0d
  | LTE => x0e
  | GTE => x0f
  | SHIFTL => x10
  | SHIFTR => x11
  | NOP => x12
  | JMP => x13
  | JMPIF => x14
  | CALL => x15
  | CALLIF => x16
  | CALLEXT => x17
  | RET => x18
  | SIZE => x19
  | SSTORE => x1a
  | STORE => x1b
  | SLOAD => x1c
  | LOAD => x1d
  | ADDRESS => x1e
  | ISSUER => x1f
  | BALANCE => x20
  | CALLER => x21
  | CALLVAL => x22
  | CALLDATA => x23
  | NEWMAP => x24
  | MAPPUSH => x25
  | MAPGETVAL => x26
  | MAPSETVAL => x27
  | MAPREMOVE => x28
  | NEWARR => x29
  | ARRAPPEND => x2a
  | ARRINSERT => x2b
  | ARRREMOVE => x2c
  | ARRAT => x2d
  | SHA3 => x2e
  | CHECKSIG => x2f
  | ERRHALT => x30
  | HALT => x31
  end.

Definition name (op : Op) : string :=
  match op with
  | PUSH => "push"
  | DUP => "dup"
  | ROLL => "roll"
  | POP => "pop"
  | ADD => "add"
  | SUB => "sub"
  | MULT => "mult"
  | DIV => "div"
  | MOD => "mod"
  | NEG => "neg"
  | EQ => "eq"
  | NEQ => "neq"
  | LT => "lt"
  | GT => "gt"
  | LTE => "lte"
  | GTE => "gte"
  | SHIFTL => "shiftl"
  | SHIFTR => "shiftr"
  | NOP => "nop"
  | JMP => "jmp"
  | JMPIF => "jmpif"
  | CALL => "call"
  | CALLIF => "callif"
  | CALLEXT => "callext"
  | RET => "ret"
  | SIZE => "size"
  | SSTORE => "sstore"
  | STORE => "store"
  | SLOAD => "sload"
  | LOAD => "load"
  | ADDRESS => "address"
  | ISSUER => "issuer"
  | BALANCE => "balance"
  | CALLER => "caller"
  | CALLVAL => "callval"
  | CALLDATA => "calldata"
  | NEWMAP => "newmap"
  | MAPPUSH => "mappush"
  | MAPGETVAL => "mapgetval"
  | MAPSETVAL => "mapsetval"
  | MAPREMOVE => "mapremove"
  | NEWARR => "newarr"
  | ARRAPPEND => "arrappend"
  | ARRINSERT => "arrinsert"
  | ARRREMOVE => "arrremove"
  | ARRAT => "arrat"
  | SHA3 => "sha3"
  | CHECKSIG => "checksig"
  | ERRHALT => "errhalt"
  | HALT => "halt"
  end.

Definition nargs (op : Op) : Z :=
  match op with
  | PUSH => 1
  | ROLL => 1
  | SHIFTL => 1
  | SHIFTR => 1
  | NOP => 1
  | JMP => 2
  | JMPIF => 2
  | CALL => 3
  | CALLIF => 3
  | CALLEXT => 37
  | SSTORE => 1
  | STORE => 1
  | SLOAD => 1
  | LOAD => 1
  | ARRREMOVE => 2
  | ARRAT => 2
  | _ => 0
  end.

Definition table : list OpCode :=
  map (fun op => mkOpCode (name op) (nargs op) 1) switch_cases.

(** Big-endian value of at most two bytes. *)
Definition toUI16 (element : list byte) : Z * error :=
  if len element <=? 2 then (big.SetBytes element, None)
  else (0, Some "byte array to uint16 invalid parameters provided").

Definition be_u16 (n : Z) : list byte :=
  [byte_of_Z (n / 256); byte_of_Z n].

(** Arrays: [0x02 ‖ repeat(len_be_u16(element) ‖ element)]. *)
Definition array := list (list byte).

Definition array_wire (a : array) : list byte :=
  x02 :: flat_map (fun e => be_u16 (len e) ++ e) a.

Fixpoint parse_elements (fuel : nat) (bs : list byte) : option array :=
  match fuel, bs with
  | _, [] => Some []
  | S fuel', hi :: lo :: rest =>
      let n := Z.to_nat (byte_val hi * 256 + byte_val lo) in
      if (n <=? length rest)%nat then
        option_map (cons (firstn n rest)) (parse_elements fuel' (skipn n rest))
      else None
  | _, _ => None
  end.

Definition array_of_BigInt (x : BigInt) : array * error :=
  match big.Bytes x with
  | tag :: rest =>
      if byte_val tag =? 2 then
        match parse_elements (length rest) rest with
        | Some a => (a, None)
        | None => ([], Some "malformed array")
        end
      else ([], Some "not an array")
  | [] => ([], Some "not an array")
  end.

Definition array_append (a : array) (v : BigInt) : error * array :=
  if len (big.Bytes v) <=? 65535 then (None, a ++ [big.Bytes v])
  else (Some "element too large", a).

Definition array_insert (a : array) (index : Z) (e : BigInt) : error * array :=
  if (0 <=? index) && (index <? len a) then
    (None, firstn (Z.to_nat index) a ++ big.Bytes e :: skipn (Z.to_nat index) a)
  else (Some "array index out of bounds", a).

Definition array_remove (a : array) (index : Z) : error * array :=
  if (0 <=? index) && (index <? len a) then
    (None, firstn (Z.to_nat index) a ++ skipn (S (Z.to_nat index)) a)
  else (Some "array index out of bounds", a).

Definition array_at (a : array) (index : Z) : list byte * error :=
  if 0 <=? index then
    match nth_error a (Z.to_nat index) with
    | Some e => (e, None)
    | None => ([], Some "array index out of bounds")
    end
  else ([], Some "array index out of bounds").

(** Maps:
    [0x01 ‖ count_be_u16 ‖ repeat(len(key) ‖ key ‖ len(value) ‖ value)]. *)
Definition map_ := list (list byte * list byte).

Definition map_wire (m : map_) : list byte :=
  x01 :: be_u16 (len m)
      ++ flat_map (fun kv => be_u16 (len (fst kv)) ++ fst kv
                               ++ be_u16 (len (snd kv)) ++ snd kv) m.

Fixpoint pair_up (es : array) : option map_ :=
  match es with
  | [] => Some []
  | k :: v :: rest => option_map (cons (k, v)) (pair_up rest)
  | _ => None
  end.

Definition map_of_BigInt (x : BigInt) : map_ * error :=
  match big.Bytes x with
  | tag :: hi :: lo :: rest =>
      if byte_val tag =? 1 then
        match parse_elements (length rest) rest with
        | Some es =>
            match pair_up es with
            | Some m =>
                if len m =? byte_val hi * 256 + byte_val lo then (m, None)
                else ([], Some "malformed map")
            | None => ([], Some "malformed map")
            end
        | None => ([], Some "malformed map")
        end
      else ([], Some "not a map")
  | _ => ([], Some "not a map")
  end.

Definition bytes_eqb (a b : list byte) : bool :=
  (length a =? length b)%nat && forallb (fun p => byte_eqb (fst p) (snd p)) (combine a b).

Definition map_find (m : map_) (k : list byte) : option (list byte) :=
  option_map snd (find (fun kv => bytes_eqb (fst kv) k) m).

Definition map_remove (m : map_) (k : list byte) : error * map_ :=
  (None, filter (fun kv => negb (bytes_eqb (fst kv) k)) m).

Definition map_append (m : map_) (k v : list byte) : error * map_ :=
  match map_find m k with
  | Some _ => (Some "key already exists", m)
  | None => (None, m ++ [(k, v)])
  end.

Definition map_getval (m : map_) (k : list byte) : list byte * error :=
  match map_find m k with
  | Some v => (v, None)
  | None => ([], Some "key not found")
  end.

Definition map_setval (m : map_) (k v : list byte) : error * map_ :=
  match map_find m k with
  | Some _ =>
      (None, map (fun kv => if bytes_eqb (fst kv) k then (k, v) else kv) m)
  | None => (None, m ++ [(k, v)])
  end.

#[export] Instance externals : Externals := {|
  OpCodes := table;
  opcode_of := opcode;
  ByteArrayToUI16 := toUI16;
  Array := array;
  NewArray := [];
  ArrayFromBigInt := array_of_BigInt;
  Array_ToBigInt := fun a => big.SetBytes (array_wire a);
  Array_Append := array_append;
  Array_Insert := array_insert;
  Array_Remove := array_remove;
  Array_At := array_at;
  Array_getSize := fun a => (len a, None);
  Map := map_;
  NewMap := [];
  MapFromBigInt := map_of_BigInt;
  Map_ToBigInt := fun m => big.SetBytes (map_wire m);
  Map_Append := map_append;
  Map_GetVal := map_getval;
  Map_SetVal := map_setval;
  Map_Remove := map_remove;
  sha3_Sum256 := fun _ => repeat x00 32;
  ecdsa_Verify := fun _ _ _ _ _ => false
|}.

(** A host in the manner of the package's mock context. *)
Record Host := mkHost {
  contract : list byte;
  contractVariables : list BigInt;
  fee : Z;
  transactionData : list byte
}.

Definition host_get (h : Host) (index : Z) : BigInt * error :=
  if 0 <=? index then
    match nth_error (contractVariables h) (Z.to_nat index) with
    | Some v => (v, None)
    | None => (0, Some "Index out of bounds")
    end
  else (0, Some "Index out of bounds").

Definition host_set (h : Host) (index : Z) (value : BigInt) : error * Host :=
  if (0 <=? index) && (index <? len (contractVariables h)) then
    (None,
     mkHost (contract h)
            (firstn (Z.to_nat index) (contractVariables h)
               ++ value :: skipn (S (Z.to_nat index)) (contractVariables h))
            (fee h) (transactionData h))
  else (Some "Index out of bounds", h).

#[export] Instance host : Context Host := {|
  GetContract := contract;
  GetContractVariable := host_get;
  SetContractVariable := host_set;
  GetAddress := fun _ => repeat x00 64;
  GetIssuer := fun _ => repeat x00 32;
  GetBalance := fun _ => 0;
  GetSender := fun _ => repeat x00 32;
  GetAmount := fun _ => 0;
  GetTransactionData := transactionData;
  GetFee := fee;
  GetSig1 := fun _ => repeat x00 64
|}.

(** A fresh machine for a program, with a fee and a stack quota. *)
Definition machine (program : list byte) (fee quota : Z) : VM Host :=
  NewVM quota (mkHost program [] fee []).

(** The machine for a program when [Exec] enters its loop. *)
Definition loaded (program : list byte) (fee quota : Z) : VM Host :=
  with_code (machine program fee quota) program.

(** The evaluation stack that pushes of the given values, last one first,
    build: the head of the list is the top. *)
Definition stack_of (quota : Z) (elements : list BigInt) : Stack.t :=
  fold_right (fun v s => snd (Stack.Push v s)) (Stack.NewStack quota) elements.

(** A machine in the middle of a run: at [pc] in the program, with the given
    values on the evaluation stack. *)
Definition running (program : list byte) (at_pc : Z) (quota : Z)
  (elements : list BigInt) : VM Host :=
  mkVM program at_pc (stack_of quota elements) CallStack.NewCallStack
    (mkHost program [] 0 []).

(** [push 2^64+1; jmpif 18; push 7; halt; push 42; halt]. *)
Definition jump_program : list byte :=
  [x00; x08; x01; x00; x00; x00; x00; x00; x00; x00; x01;
   x14; x00; x12;
   x00; x00; x07; x31;
   x00; x00; x2a; x31].

(** [newarr; push 0x010203040506070809; arrappend; arrat 0; halt]. *)
Definition array_program : list byte :=
  [x29;
   x00; x08; x01; x02; x03; x04; x05; x06; x07; x08; x09;
   x2a;
   x2d; x00; x00;
   x31].

(** The evaluation stack, top first, after [Exec] returned. *)
Definition run (program : list byte) (fee quota : Z)
  : option (Res (list BigInt) bool) :=
  match Exec 1000 (machine program fee quota) with
  | Some (Ok b vm) => Some (Ok b (Stack.Stack (evaluationStack vm)))
  | Some Panicked => Some Panicked
  | None => None
  end.

End Sample.


(** * Properties of the interpreter *)

Section Properties.

Context {C : Type} `{!Context C} `{!Externals}.

(** ** The building blocks *)

Lemma nth_error_in_range {A} (l : list A) (i : Z) (x : A) :
  0 <= i -> nth_error l (Z.to_nat i) = Some x -> i < len l.
Proof.
  intros Hi Hx. unfold len.
  assert (Z.to_nat i < length l)%nat by (apply nth_error_Some; congruence).
  lia.
Qed.

Lemma fetch_ok (vm : VM C) (b : byte) :
  0 <= pc vm ->
  nth_error (code vm) (Z.to_nat (pc vm)) = Some b ->
  fetch vm = Ok (b, None) (with_pc vm (pc vm + 1)).
Proof.
  intros Hpc Hb. unfold fetch, bind, get, ret, set_pc.
  pose proof (nth_error_in_range _ _ _ Hpc Hb) as Hlt.
  destruct (len (code vm) >? pc vm) eqn:E; [| lia].
  destruct (pc vm <? 0) eqn:E0; [lia |].
  rewrite Hb. reflexivity.
Qed.

Lemma fetch_out_of_bounds (vm : VM C) :
  len (code vm) <= pc vm ->
  fetch vm = Ok (x00, Some "instructionSet out of bounds") vm.
Proof.
  intros Hpc. unfold fetch, bind, get, ret.
  destruct (len (code vm) >? pc vm) eqn:E; [lia | reflexivity].
Qed.

Lemma fetchMany_ok (vm : VM C) (n : Z) :
  0 <= pc vm -> 0 <= n -> n < len (code vm) - pc vm ->
  fetchMany n vm
  = Ok (slice (code vm) (pc vm) (pc vm + n), None) (with_pc vm (pc vm + n)).
Proof.
  intros Hpc Hn Hlt. unfold fetchMany, bind, get, ret, set_pc.
  destruct (len (code vm) - pc vm >? n) eqn:E; [| lia].
  destruct (pc vm <? 0) eqn:E0; [lia |].
  destruct (n <? 0) eqn:E1; [lia |].
  reflexivity.
Qed.

Lemma fetchMany_out_of_bounds (vm : VM C) (n : Z) :
  len (code vm) - pc vm <= n ->
  fetchMany n vm = Ok ([], Some "instructionSet out of bounds") vm.
Proof.
  intros Hle. unfold fetchMany, bind, get, ret.
  destruct (len (code vm) - pc vm >? n) eqn:E; [lia | reflexivity].
Qed.

(** [pushStr] is the stack's [Push], whatever it answers. *)
Lemma pushStr_eq (msg : string) (vm : VM C) :
  pushStr msg vm
  = Ok tt (with_evaluationStack vm
             (snd (Stack.Push (StrToBigInt msg) (evaluationStack vm)))).
Proof.
  unfold pushStr, evalPush, bind, get, ret, set_evaluationStack.
  destruct (Stack.Push (StrToBigInt msg) (evaluationStack vm)); reflexivity.
Qed.

Lemma halt_eq (msg : string) (vm : VM C) :
  halt msg vm
  = Ok (Return false)
       (with_evaluationStack vm
          (snd (Stack.Push (StrToBigInt msg) (evaluationStack vm)))).
Proof. unfold halt, bind. rewrite pushStr_eq. reflexivity. Qed.

Lemma evalPop_cons (vm : VM C) (x : BigInt) (rest : list BigInt) :
  Stack.Stack (evaluationStack vm) = x :: rest ->
  evalPop vm
  = Ok (x, None)
       (with_evaluationStack vm
          (Stack.mk rest
             (Stack.memoryUsage (evaluationStack vm)
              - getElementMemoryUsage (big.BitLen x))
             (Stack.memoryMax (evaluationStack vm)))).
Proof.
  intros Hs. unfold evalPop, bind, get, ret, set_evaluationStack, Stack.Pop.
  rewrite Hs. reflexivity.
Qed.

Lemma evalPop_nil (vm : VM C) :
  Stack.Stack (evaluationStack vm) = [] ->
  evalPop vm = Ok (0, Some "pop on empty stack") (with_evaluationStack vm (evaluationStack vm)).
Proof.
  intros Hs. unfold evalPop, bind, get, ret, set_evaluationStack, Stack.Pop.
  rewrite Hs. reflexivity.
Qed.

(** ** The error message helper *)

(** C10.  [GetErrorMsg] never fails: on an empty evaluation stack it returns
    the literal "Peek on empty Stack", otherwise the decoded string form of
    the top element. *)
Theorem GetErrorMsg_reads_top_or_reports_empty (vm : VM C) :
  GetErrorMsg vm
  = match Stack.Stack (evaluationStack vm) with
    | [] => "Peek on empty Stack"
    | tos :: _ => BigIntToString tos
    end.
Proof.
  unfold GetErrorMsg, Stack.Peek.
  destruct (Stack.Stack (evaluationStack vm)); reflexivity.
Qed.

(** ** One pass through the loop *)

Lemma table_entry_in_range (b : byte) (entry : OpCode) :
  nth_error OpCodes (Z.to_nat (byte_val b)) = Some entry ->
  byte_val b < len OpCodes.
Proof.
  intros He. apply (nth_error_in_range _ _ entry); [| exact He].
  unfold byte_val. lia.
Qed.

Lemma iter_paid (fee : Z) (vm : VM C) (b : byte) (entry : OpCode) :
  0 <= pc vm ->
  nth_error (code vm) (Z.to_nat (pc vm)) = Some b ->
  nth_error OpCodes (Z.to_nat (byte_val b)) = Some entry ->
  gasPrice entry <= fee ->
  iter fee vm
  = match dispatch b (with_pc vm (pc vm + 1)) with
    | Ok o vm' => Ok (o, (fee - gasPrice entry) mod 2 ^ 64) vm'
    | Panicked => Panicked
    end.
Proof.
  intros Hpc Hb He Hfee. unfold iter, bind at 1. rewrite (fetch_ok vm b Hpc Hb).
  pose proof (table_entry_in_range b entry He) as Hin.
  destruct (len OpCodes <? byte_val b) eqn:E; [lia |].
  rewrite He.
  destruct (fee <? gasPrice entry) eqn:E1; [lia |].
  unfold bind, ret.
  destruct (dispatch b (with_pc vm (pc vm + 1))) as [out vm'|]; reflexivity.
Qed.

Lemma loop_returns (fuel : nat) (fee fee' : Z) (vm vm' : VM C) (r : bool) :
  iter fee vm = Ok (Return r, fee') vm' ->
  loop (S fuel) fee vm = Some (Ok r vm').
Proof. intros Hi. simpl. rewrite Hi. reflexivity. Qed.

Lemma loop_panics (fuel : nat) (fee : Z) (vm : VM C) :
  iter fee vm = Panicked -> loop (S fuel) fee vm = Some Panicked.
Proof. intros Hi. simpl. rewrite Hi. reflexivity. Qed.

(** ** Bytes that are not opcodes *)

(** A byte above the length of the table is refused. *)
Lemma opcode_above_table_length_is_refused (fee : Z) (vm : VM C) (b : byte) :
  0 <= pc vm ->
  nth_error (code vm) (Z.to_nat (pc vm)) = Some b ->
  len OpCodes < byte_val b ->
  iter fee vm
  = Ok (Return false, fee)
       (with_evaluationStack (with_pc vm (pc vm + 1))
          (snd (Stack.Push (StrToBigInt "Not a valid opCode") (evaluationStack vm)))).
Proof.
  intros Hpc Hb Hgt. unfold iter, bind at 1. rewrite (fetch_ok vm b Hpc Hb).
  destruct (len OpCodes <? byte_val b) eqn:E; [| lia].
  unfold bind. rewrite pushStr_eq. reflexivity.
Qed.

(** C1.  The claim fails for the byte that equals the length of the table:
    the test [len(OpCodes) < int(opCode)] lets it through, and the look-up
    [OpCodes[int(opCode)]] of its price is out of range, a run-time panic
    that leaves [Exec]. *)
Theorem opcode_equal_to_table_length_panics (fee : Z) (vm : VM C) (b : byte) :
  0 <= pc vm ->
  nth_error (code vm) (Z.to_nat (pc vm)) = Some b ->
  byte_val b = len OpCodes ->
  iter fee vm = Panicked /\ forall fuel, loop (S fuel) fee vm = Some Panicked.
Proof.
  intros Hpc Hb Heq.
  assert (Hi : iter fee vm = Panicked).
  { unfold iter, bind at 1. rewrite (fetch_ok vm b Hpc Hb).
    destruct (len OpCodes <? byte_val b) eqn:E; [lia |].
    destruct (nth_error OpCodes (Z.to_nat (byte_val b))) as [entry|] eqn:He.
    - apply table_entry_in_range in He. lia.
    - reflexivity. }
  split; [exact Hi |]. intros fuel. apply loop_panics, Hi.
Qed.

(** ** Division and modulo by zero *)

Lemma getElementMemoryUsage_min (bitlen : Z) : 8 <= getElementMemoryUsage bitlen.
Proof.
  unfold getElementMemoryUsage.
  change 8 with (2 ^ 3) at 1.
  apply Z.pow_le_mono_r; [lia |].
  change 3 with (Z.log2_up 8).
  apply Z.log2_up_le_mono. lia.
Qed.

Lemma exec_div_mod_by_zero (op : Op) (vm : VM C)
  (right_ left_ : BigInt) (rest : list BigInt) :
  op = DIV \/ op = MOD ->
  Stack.Stack (evaluationStack vm) = right_ :: left_ :: rest ->
  big.Cmp right_ 0 = 0 ->
  exec_op op vm
  = Ok (Return false)
       (with_evaluationStack vm
          (snd (Stack.Push (StrToBigInt "Division by Zero")
                  (Stack.mk rest
                     (Stack.memoryUsage (evaluationStack vm)
                      - getElementMemoryUsage (big.BitLen right_)
                      - getElementMemoryUsage (big.BitLen left_))
                     (Stack.memoryMax (evaluationStack vm)))))).
Proof.
  intros [-> | ->] Hs Hz; cbn [exec_op]; unfold pop2, bind;
    rewrite (evalPop_cons vm right_ (left_ :: rest) Hs); cbn beta iota;
    rewrite (evalPop_cons _ left_ rest) by reflexivity;
    cbn [checkErrors ret negb]; rewrite Hz; cbn [Z.eqb];
    rewrite halt_eq; reflexivity.
Qed.

(** C4.  With at least two elements on the evaluation stack and a top
    (right) operand that compares equal to zero, a pass that executes [div]
    or [mod] makes [Exec] return false after the push of "Division by Zero"
    onto the stack left by the two pops.  The host state of the machine that
    is returned is the one the pass started with, for every host: no
    [SetContractVariable] is issued.  On a stack within its quota the two
    pops make room for the message, so it is the top of the stack. *)
Theorem div_mod_by_zero_halts_without_store
  (op : Op) (fee : Z) (vm : VM C) (b : byte) (entry : OpCode)
  (right_ left_ : BigInt) (rest : list BigInt) :
  op = DIV \/ op = MOD ->
  0 <= pc vm ->
  nth_error (code vm) (Z.to_nat (pc vm)) = Some b ->
  decode b = Some op ->
  nth_error OpCodes (Z.to_nat (byte_val b)) = Some entry ->
  gasPrice entry <= fee ->
  Stack.Stack (evaluationStack vm) = right_ :: left_ :: rest ->
  big.Cmp right_ 0 = 0 ->
  let popped :=
    Stack.mk rest
      (Stack.memoryUsage (evaluationStack vm)
       - getElementMemoryUsage (big.BitLen right_)
       - getElementMemoryUsage (big.BitLen left_))
      (Stack.memoryMax (evaluationStack vm)) in
  let pushed := snd (Stack.Push (StrToBigInt "Division by Zero") popped) in
  (forall fuel,
     loop (S fuel) fee vm
     = Some (Ok false (mkVM (code vm) (pc vm + 1) pushed (callStack vm) (context vm))))
  /\ (Stack.memoryUsage (evaluationStack vm) <= Stack.memoryMax (evaluationStack vm) ->
      Stack.Stack pushed = StrToBigInt "Division by Zero" :: rest).
Proof.
  intros Hop Hpc Hb Hd He Hfee Hs Hz popped pushed. split.
  - intros fuel.
    apply (loop_returns fuel fee ((fee - gasPrice entry) mod 2 ^ 64)).
    rewrite (iter_paid fee vm b entry Hpc Hb He Hfee).
    unfold dispatch. rewrite Hd.
    rewrite (exec_div_mod_by_zero op (with_pc vm (pc vm + 1)) right_ left_ rest Hop Hs Hz).
    reflexivity.
  - intros Hquota. subst pushed popped. unfold Stack.Push, Stack.hasEnoughMemory.
    cbn [Stack.memoryUsage Stack.memoryMax Stack.Stack].
    assert (Hm : getElementMemoryUsage (big.BitLen (StrToBigInt "Division by Zero")) = 16)
      by (vm_compute; reflexivity).
    rewrite Hm.
    pose proof (getElementMemoryUsage_min (big.BitLen right_)).
    pose proof (getElementMemoryUsage_min (big.BitLen left_)).
    match goal with |- context [if ?c then _ else _] => destruct c eqn:E end;
      [reflexivity | lia].
Qed.

(** ** Immediate operands *)

Lemma byte_val_range (b : byte) : 0 <= byte_val b < 256.
Proof.
  unfold byte_val. pose proof (Byte.to_N_bounded b). lia.
Qed.

Lemma skipn_nth_error_cons {A} (l : list A) (n : nat) (a : A) :
  nth_error l n = Some a -> skipn n l = a :: skipn (S n) l.
Proof.
  revert l. induction n as [| n IH]; intros [| x l] Hn; cbn in *; try discriminate.
  - injection Hn as ->. reflexivity.
  - apply IH, Hn.
Qed.

Lemma slice_two {A} (l : list A) (i : Z) (a b : A) :
  0 <= i ->
  nth_error l (Z.to_nat i) = Some a ->
  nth_error l (Z.to_nat (i + 1)) = Some b ->
  slice l i (i + 2) = [a; b].
Proof.
  intros Hi Ha Hb. unfold slice.
  replace (Z.to_nat (i + 2 - i)) with 2%nat by lia.
  replace (Z.to_nat (i + 1)) with (S (Z.to_nat i)) in Hb by lia.
  rewrite (skipn_nth_error_cons _ _ _ Ha), (skipn_nth_error_cons _ _ _ Hb).
  reflexivity.
Qed.

Lemma Int64_small (x : Z) : 0 <= x < 2 ^ 63 -> big.Int64 x = x.
Proof.
  intros Hx. unfold big.Int64, big.wrap_int64.
  destruct (x <? 0) eqn:E; [lia |].
  rewrite Z.abs_eq by lia.
  rewrite (Z.mod_small x) by lia.
  rewrite Z.mod_small by lia. lia.
Qed.

Lemma SetBytes_two (hi lo : byte) :
  big.SetBytes [hi; lo] = byte_val hi * 256 + byte_val lo.
Proof. unfold big.SetBytes. simpl. lia. Qed.

(** The low 64 bits of the magnitude decide what [Int64] returns. *)
Lemma Int64_of_low_bits (k : Z) : 0 <= k -> big.Int64 (k * 2 ^ 64 + 1) = 1.
Proof.
  intros Hk. unfold big.Int64, big.wrap_int64.
  destruct (k * 2 ^ 64 + 1 <? 0) eqn:E; [lia |].
  rewrite Z.abs_eq by lia.
  replace (k * 2 ^ 64 + 1) with (1 + k * 2 ^ 64) by lia.
  rewrite Z.mod_add by lia.
  reflexivity.
Qed.

(** [PUSH] when more than [n + 1] bytes follow the length byte [n]: the next
    [n + 1] bytes are pushed as one unsigned big-endian number. *)
Lemma exec_push_reads_operand (vm : VM C) (n : byte) :
  0 <= pc vm ->
  nth_error (code vm) (Z.to_nat (pc vm)) = Some n ->
  byte_val n + 1 < len (code vm) - (pc vm + 1) ->
  exec_op PUSH vm
  = pushOrHalt
      (big.SetBytes (slice (code vm) (pc vm + 1) (pc vm + 1 + (byte_val n + 1))))
      (with_pc vm (pc vm + 1 + (byte_val n + 1))).
Proof.
  intros Hpc Hn Hlt. cbn [exec_op]. unfold bind at 1.
  rewrite (fetch_ok vm n Hpc Hn). unfold bind at 1.
  pose proof (byte_val_range n).
  rewrite fetchMany_ok by (cbn [pc code with_pc]; lia).
  cbn [checkErrors bind ret negb pc code with_pc]. reflexivity.
Qed.

(** [PUSH] when at most [n + 1] bytes follow the length byte. *)
Lemma exec_push_out_of_bounds (vm : VM C) (n : byte) :
  0 <= pc vm ->
  nth_error (code vm) (Z.to_nat (pc vm)) = Some n ->
  len (code vm) - (pc vm + 1) <= byte_val n + 1 ->
  exec_op PUSH vm
  = Ok (Return false)
       (with_evaluationStack (with_pc vm (pc vm + 1))
          (snd (Stack.Push (StrToBigInt "instructionSet out of bounds")
                  (evaluationStack vm)))).
Proof.
  intros Hpc Hn Hle. cbn [exec_op]. unfold bind at 1.
  rewrite (fetch_ok vm n Hpc Hn). unfold bind at 1.
  rewrite fetchMany_out_of_bounds by (cbn [pc code with_pc]; lia).
  cbn [checkErrors]. unfold bind. rewrite pushStr_eq. reflexivity.
Qed.

(** C6.  The claim fails for a [push] whose magnitude bytes end at the last
    byte of the code: [fetchMany] asks for more than [n + 1] remaining
    bytes, so the pass pushes "instructionSet out of bounds" and [Exec]
    returns false; the operand is not pushed. *)
Theorem push_ending_at_last_byte_is_refused
  (fee : Z) (vm : VM C) (b n : byte) (entry : OpCode) :
  0 <= pc vm ->
  nth_error (code vm) (Z.to_nat (pc vm)) = Some b ->
  decode b = Some PUSH ->
  nth_error OpCodes (Z.to_nat (byte_val b)) = Some entry ->
  gasPrice entry <= fee ->
  nth_error (code vm) (Z.to_nat (pc vm + 1)) = Some n ->
  len (code vm) = pc vm + 2 + (byte_val n + 1) ->
  forall fuel,
    loop (S fuel) fee vm
    = Some (Ok false
              (mkVM (code vm) (pc vm + 2)
                 (snd (Stack.Push (StrToBigInt "instructionSet out of bounds")
                         (evaluationStack vm)))
                 (callStack vm) (context vm))).
Proof.
  intros Hpc Hb Hd He Hfee Hn Hlen fuel.
  apply (loop_returns fuel fee ((fee - gasPrice entry) mod 2 ^ 64)).
  rewrite (iter_paid fee vm b entry Hpc Hb He Hfee).
  unfold dispatch. rewrite Hd.
  rewrite (exec_push_out_of_bounds (with_pc vm (pc vm + 1)) n);
    cbn [pc code with_pc]; try lia; try assumption.
  unfold with_evaluationStack, with_pc. cbn.
  replace (pc vm + 1 + 1) with (pc vm + 2) by lia. reflexivity.
Qed.

(** ** Conditional jump *)

Lemma exec_jmpif (vm : VM C) (hi lo : byte) (v : BigInt) (rest : list BigInt) :
  0 <= pc vm ->
  nth_error (code vm) (Z.to_nat (pc vm)) = Some hi ->
  nth_error (code vm) (Z.to_nat (pc vm + 1)) = Some lo ->
  2 < len (code vm) - pc vm ->
  Stack.Stack (evaluationStack vm) = v :: rest ->
  exec_op JMPIF vm
  = Ok Continue
       (mkVM (code vm)
          (if big.Int64 v =? 1 then byte_val hi * 256 + byte_val lo
           else pc vm + 2)
          (Stack.mk rest
             (Stack.memoryUsage (evaluationStack vm)
              - getElementMemoryUsage (big.BitLen v))
             (Stack.memoryMax (evaluationStack vm)))
          (callStack vm) (context vm)).
Proof.
  intros Hpc Hhi Hlo Hlen Hs. cbn [exec_op]. unfold bind at 1.
  rewrite fetchMany_ok by lia. unfold bind at 1.
  rewrite (evalPop_cons _ v rest) by exact Hs.
  cbn [checkErrors bind ret negb].
  rewrite (slice_two (code vm) (pc vm) hi lo Hpc Hhi Hlo), SetBytes_two.
  pose proof (byte_val_range hi). pose proof (byte_val_range lo).
  rewrite (Int64_small (byte_val hi * 256 + byte_val lo)) by lia.
  destruct (big.Int64 v =? 1); reflexivity.
Qed.

(** C5.  The claim fails for condition values outside the [int64] range:
    [right.Int64() == 1] looks at the low 64 bits of the magnitude only, so
    every value [k * 2^64 + 1] with [k >= 0] makes [jmpif] jump, not just 1. *)
Theorem jmpif_jumps_on_low_64_bits
  (fee : Z) (vm : VM C) (b hi lo : byte) (entry : OpCode)
  (k : Z) (rest : list BigInt) :
  0 <= pc vm ->
  nth_error (code vm) (Z.to_nat (pc vm)) = Some b ->
  decode b = Some JMPIF ->
  nth_error OpCodes (Z.to_nat (byte_val b)) = Some entry ->
  gasPrice entry <= fee ->
  nth_error (code vm) (Z.to_nat (pc vm + 1)) = Some hi ->
  nth_error (code vm) (Z.to_nat (pc vm + 2)) = Some lo ->
  pc vm + 3 < len (code vm) ->
  0 <= k ->
  Stack.Stack (evaluationStack vm) = (k * 2 ^ 64 + 1) :: rest ->
  iter fee vm
  = Ok (Continue, (fee - gasPrice entry) mod 2 ^ 64)
       (mkVM (code vm) (byte_val hi * 256 + byte_val lo)
          (Stack.mk rest
             (Stack.memoryUsage (evaluationStack vm)
              - getElementMemoryUsage (big.BitLen (k * 2 ^ 64 + 1)))
             (Stack.memoryMax (evaluationStack vm)))
          (callStack vm) (context vm)).
Proof.
  intros Hpc Hb Hd He Hfee Hhi Hlo Hlen Hk Hs.
  rewrite (iter_paid fee vm b entry Hpc Hb He Hfee).
  unfold dispatch. rewrite Hd.
  rewrite (exec_jmpif (with_pc vm (pc vm + 1)) hi lo (k * 2 ^ 64 + 1) rest);
    cbn [pc code with_pc evaluationStack]; try lia; try assumption.
  - rewrite Int64_of_low_bits by exact Hk. reflexivity.
  - replace (pc vm + 1 + 1) with (pc vm + 2) by lia. exact Hlo.
Qed.

(** ** Gas *)

Lemma iter_out_of_gas (fee : Z) (vm : VM C) (b : byte) (entry : OpCode) :
  0 <= pc vm ->
  nth_error (code vm) (Z.to_nat (pc vm)) = Some b ->
  nth_error OpCodes (Z.to_nat (byte_val b)) = Some entry ->
  fee < gasPrice entry ->
  iter fee vm
  = Ok (Return false, fee)
       (with_evaluationStack (with_pc vm (pc vm + 1))
          (snd (Stack.Push (StrToBigInt "out of gas") (evaluationStack vm)))).
Proof.
  intros Hpc Hb He Hfee. unfold iter, bind at 1. rewrite (fetch_ok vm b Hpc Hb).
  pose proof (table_entry_in_range b entry He) as Hin.
  destruct (len OpCodes <? byte_val b) eqn:E; [lia |].
  rewrite He.
  destruct (fee <? gasPrice entry) eqn:E1; [| lia].
  unfold bind. rewrite pushStr_eq. reflexivity.
Qed.

Lemma price_nonneg (b : byte) :
  Forall (fun entry => 0 <= gasPrice entry) OpCodes -> 0 <= price b.
Proof.
  intros Hall. unfold price.
  destruct (nth_error OpCodes (Z.to_nat (byte_val b))) as [entry|] eqn:He; [| lia].
  rewrite Forall_forall in Hall. apply Hall.
  apply list_elem_of_In. eapply nth_error_In, He.
Qed.

(** A pass that goes on has charged the price of the byte at [pc], and the
    subtraction did not wrap. *)
Lemma iter_continue_fee (fee fee' : Z) (vm vm' : VM C) (b : byte) :
  Forall (fun entry => 0 <= gasPrice entry) OpCodes ->
  0 <= fee < 2 ^ 64 ->
  nth_error (code vm) (Z.to_nat (pc vm)) = Some b ->
  iter fee vm = Ok (Continue, fee') vm' ->
  fee' = fee - price b /\ 0 <= fee' <= fee.
Proof.
  intros Hall Hfee Hb Hi.
  destruct (Z.ltb_spec (pc vm) 0) as [Hneg | Hpc].
  - exfalso. revert Hi. unfold iter, bind at 1, fetch, bind at 1, get.
    destruct (len (code vm) >? pc vm).
    + destruct (pc vm <? 0) eqn:E; [discriminate | lia].
    + unfold ret, bind. rewrite pushStr_eq. discriminate.
  - pose proof (price_nonneg b Hall) as Hp. unfold price in *.
    revert Hi. unfold iter, bind at 1. rewrite (fetch_ok vm b Hpc Hb).
    destruct (len OpCodes <? byte_val b).
    { unfold bind. rewrite pushStr_eq. discriminate. }
    destruct (nth_error OpCodes (Z.to_nat (byte_val b))) as [entry|]; [| discriminate].
    destruct (fee <? gasPrice entry) eqn:E.
    { unfold bind. rewrite pushStr_eq. discriminate. }
    unfold bind, ret.
    destruct (dispatch b (with_pc vm (pc vm + 1))) as [o vm1|]; [| discriminate].
    intros Hi. injection Hi as _ Hf _.
    rewrite Z.mod_small in Hf by lia. lia.
Qed.

Lemma passes_fee (k : nat) :
  Forall (fun entry => 0 <= gasPrice entry) OpCodes ->
  forall (fee fee' : Z) (vm vm' : VM C) (ops : list byte),
    0 <= fee < 2 ^ 64 ->
    passes k fee vm = Some (ops, fee', vm') ->
    fee' = fee - fold_right Z.add 0 (map price ops) /\ 0 <= fee' <= fee.
Proof.
  intros Hall. induction k as [| k IH]; intros fee fee' vm vm' ops Hfee Hp.
  - injection Hp as <- <- <-. cbn. lia.
  - cbn [passes] in Hp.
    destruct (nth_error (code vm) (Z.to_nat (pc vm))) as [b|] eqn:Hb; [| discriminate].
    destruct (iter fee vm) as [[[| r] fee1] vm1|] eqn:Hi; try discriminate.
    destruct (passes k fee1 vm1) as [[[ops1 fee2] vm2]|] eqn:Hk; [| discriminate].
    injection Hp as <- <- <-.
    destruct (iter_continue_fee fee fee1 vm vm1 b Hall Hfee Hb Hi) as [Hf1 Hr1].
    destruct (IH fee1 fee2 vm1 vm2 ops1 ltac:(lia) Hk) as [Hf2 Hr2].
    cbn [map fold_right]. lia.
Qed.

Lemma Exec_enters_loop (fuel : nat) (vm : VM C) :
  len (GetContract (context vm)) <= 100000 ->
  Exec fuel vm
  = loop fuel (GetFee (context vm)) (with_code vm (GetContract (context vm))).
Proof.
  intros Hlen. unfold Exec, Exec_init, bind, get, set_code.
  destruct (len (GetContract (context vm)) >? 100000) eqn:E; [lia |].
  reflexivity.
Qed.

(** C3.  Before the [switch], a pass compares the remaining fee with the
    price of the fetched opcode.  When the fee is smaller it pushes
    "out of gas" and [Exec] returns false: only [pc] and the evaluation
    stack differ from the machine before the pass, no case of the [switch]
    ran.  Otherwise the price is subtracted, without wrapping.  So after any
    [k] passes that went on, the fee is the initial one minus the prices of
    the opcodes dispatched, and it is never negative; [Exec] starts the loop
    with [GetFee]. *)
Theorem gas_is_checked_then_charged :
  Forall (fun entry => 0 <= gasPrice entry) OpCodes ->
  (forall (fee : Z) (vm : VM C) (b : byte) (entry : OpCode),
     0 <= fee < 2 ^ 64 ->
     0 <= pc vm ->
     nth_error (code vm) (Z.to_nat (pc vm)) = Some b ->
     nth_error OpCodes (Z.to_nat (byte_val b)) = Some entry ->
     (fee < gasPrice entry ->
      forall fuel,
        loop (S fuel) fee vm
        = Some (Ok false
                  (mkVM (code vm) (pc vm + 1)
                     (snd (Stack.Push (StrToBigInt "out of gas") (evaluationStack vm)))
                     (callStack vm) (context vm))))
     /\ (gasPrice entry <= fee ->
         0 <= fee - gasPrice entry
         /\ iter fee vm
            = match dispatch b (with_pc vm (pc vm + 1)) with
              | Ok o vm' => Ok (o, fee - gasPrice entry) vm'
              | Panicked => Panicked
              end))
  /\ (forall (k : nat) (fee fee' : Z) (vm vm' : VM C) (ops : list byte),
        0 <= fee < 2 ^ 64 ->
        passes k fee vm = Some (ops, fee', vm') ->
        fee' = fee - fold_right Z.add 0 (map price ops) /\ 0 <= fee' <= fee)
  /\ (forall (fuel : nat) (vm : VM C),
        len (GetContract (context vm)) <= 100000 ->
        Exec fuel vm
        = loop fuel (GetFee (context vm)) (with_code vm (GetContract (context vm)))).
Proof.
  intros Hall. split; [| split].
  - intros fee vm b entry Hfee Hpc Hb He. split.
    + intros Hlt fuel. apply (loop_returns fuel fee fee).
      rewrite (iter_out_of_gas fee vm b entry Hpc Hb He Hlt). reflexivity.
    + intros Hle.
      assert (Hg : 0 <= gasPrice entry).
      { rewrite Forall_forall in Hall. apply Hall.
        apply list_elem_of_In. eapply nth_error_In, He. }
      split; [lia |].
      rewrite (iter_paid fee vm b entry Hpc Hb He Hle).
      rewrite Z.mod_small by lia. reflexivity.
  - intros k. apply passes_fee, Hall.
  - apply Exec_enters_loop.
Qed.

(** ** Calls *)

(** The loop of [CALL] on a stack that holds the [n] values: they are popped,
    the value popped [j]-th going to index [n - 1 - j]. *)
Lemma loadArguments_enough (n : nat) :
  forall (vars : gmap Z BigInt) (vm : VM C) (args rest : list BigInt),
    length args = n ->
    Stack.Stack (evaluationStack vm) = args ++ rest ->
    exists vars',
      loadArguments n vars vm
      = Ok (vars', None)
           (with_evaluationStack vm
              (Stack.mk rest
                 (Stack.memoryUsage (evaluationStack vm)
                  - fold_right Z.add 0
                      (map (fun v => getElementMemoryUsage (big.BitLen v)) args))
                 (Stack.memoryMax (evaluationStack vm))))
      /\ (forall j : nat,
            (j < n)%nat -> vars' !! Z.of_nat (n - 1 - j) = args !! j)
      /\ (forall i : Z, ~ 0 <= i < Z.of_nat n -> vars' !! i = vars !! i).
Proof.
  induction n as [| n IH]; intros vars vm args rest Hlen Hs.
  - destruct args; [| discriminate]. exists vars. cbn [loadArguments ret map fold_right].
    split; [| split].
    + rewrite Z.sub_0_r. destruct vm as [c p [s u m] cs ctx]. cbn in *. subst s. reflexivity.
    + intros j Hj. lia.
    + reflexivity.
  - destruct args as [| v args]; [discriminate |].
    injection Hlen as Hlen. cbn [loadArguments]. unfold bind at 1.
    rewrite (evalPop_cons vm v (args ++ rest) Hs).
    destruct (IH (<[Z.of_nat n := v]> vars)
                (with_evaluationStack vm
                   (Stack.mk (args ++ rest)
                      (Stack.memoryUsage (evaluationStack vm)
                       - getElementMemoryUsage (big.BitLen v))
                      (Stack.memoryMax (evaluationStack vm))))
                args rest Hlen eq_refl) as (vars' & Hrun & Hin & Hout).
    exists vars'. split; [| split].
    + rewrite Hrun. cbn [map fold_right evaluationStack with_evaluationStack
                         Stack.memoryUsage Stack.memoryMax].
      unfold with_evaluationStack. cbn. do 3 f_equal. lia.
    + intros [| j] Hj.
      * replace (S n - 1 - 0)%nat with n by lia.
        rewrite Hout by lia. cbn. apply lookup_insert_eq.
      * replace (S n - 1 - S j)%nat with (n - 1 - j)%nat by lia.
        cbn. apply Hin. lia.
    + intros i Hi. rewrite Hout by lia. apply lookup_insert_ne. lia.
Qed.

(** The loop of [CALL] on a stack that holds fewer than [n] values: it pops
    them all and stops at the pop that fails. *)
Lemma loadArguments_underflow (n : nat) :
  forall (vars : gmap Z BigInt) (vm : VM C),
    (length (Stack.Stack (evaluationStack vm)) < n)%nat ->
    exists vars',
      loadArguments n vars vm
      = Ok (vars', Some "pop on empty stack")
           (with_evaluationStack vm
              (Stack.mk []
                 (Stack.memoryUsage (evaluationStack vm)
                  - fold_right Z.add 0
                      (map (fun v => getElementMemoryUsage (big.BitLen v))
                         (Stack.Stack (evaluationStack vm))))
                 (Stack.memoryMax (evaluationStack vm)))).
Proof.
  induction n as [| n IH]; intros vars vm Hlt; [lia |].
  cbn [loadArguments]. unfold bind at 1.
  destruct (Stack.Stack (evaluationStack vm)) as [| v s] eqn:Hs.
  - rewrite (evalPop_nil vm Hs). eexists.
    cbn [map fold_right]. rewrite Z.sub_0_r.
    destruct vm as [c p [s u m] cs ctx]. cbn in *. subst s. reflexivity.
  - rewrite (evalPop_cons vm v s Hs).
    destruct (IH (<[Z.of_nat n := v]> vars)
                (with_evaluationStack vm
                   (Stack.mk s
                      (Stack.memoryUsage (evaluationStack vm)
                       - getElementMemoryUsage (big.BitLen v))
                      (Stack.memoryMax (evaluationStack vm)))))
      as (vars' & Hrun).
    { cbn in *. lia. }
    exists vars'. rewrite Hrun.
    cbn [map fold_right evaluationStack with_evaluationStack
         Stack.memoryUsage Stack.memoryMax Stack.Stack].
    unfold with_evaluationStack. cbn. do 3 f_equal. lia.
Qed.

(** [CALL] up to the test of the target: the operands are read. *)
Lemma exec_call_operands (vm : VM C) (hi lo n : byte) :
  0 <= pc vm ->
  nth_error (code vm) (Z.to_nat (pc vm)) = Some hi ->
  nth_error (code vm) (Z.to_nat (pc vm + 1)) = Some lo ->
  nth_error (code vm) (Z.to_nat (pc vm + 2)) = Some n ->
  exec_op CALL vm = doCall [hi; lo] n (with_pc vm (pc vm + 3)).
Proof.
  intros Hpc Hhi Hlo Hn. cbn [exec_op]. unfold bind at 1.
  assert (pc vm + 2 < len (code vm)) by (apply (nth_error_in_range _ _ n); [lia | exact Hn]).
  rewrite fetchMany_ok by lia. unfold bind at 1.
  rewrite (fetch_ok _ n) by (cbn [pc code with_pc]; first [lia | exact Hn]).
  cbn [checkErrors bind ret negb pc code with_pc].
  rewrite (slice_two (code vm) (pc vm) hi lo Hpc Hhi Hlo).
  unfold with_pc. cbn. replace (pc vm + 2 + 1) with (pc vm + 3) by lia. reflexivity.
Qed.

Lemma target_of_bytes (hi lo : byte) :
  big.Int64 (big.SetBytes [hi; lo]) = byte_val hi * 256 + byte_val lo.
Proof.
  rewrite SetBytes_two. apply Int64_small.
  pose proof (byte_val_range hi). pose proof (byte_val_range lo). lia.
Qed.

Lemma doCall_bad_target (vm : VM C) (hi lo n : byte) :
  byte_val hi * 256 + byte_val lo = 0
  \/ byte_val hi * 256 + byte_val lo > len (code vm) ->
  doCall [hi; lo] n vm
  = Ok (Return false)
       (with_evaluationStack vm
          (snd (Stack.Push (StrToBigInt "ReturnAddress out of bounds")
                  (evaluationStack vm)))).
Proof.
  intros Ht. unfold doCall, bind at 1, get. rewrite target_of_bytes.
  destruct ((byte_val hi * 256 + byte_val lo =? 0)
            || (byte_val hi * 256 + byte_val lo >? len (code vm))) eqn:E.
  - apply halt_eq.
  - apply orb_false_iff in E. lia.
Qed.

Lemma doCall_good_target (vm : VM C) (hi lo n : byte) :
  0 < byte_val hi * 256 + byte_val lo <= len (code vm) ->
  doCall [hi; lo] n vm
  = (let* (vars, err) := loadArguments (Z.to_nat (byte_val n)) ∅ in
     match err with
     | Some msg => halt msg
     | None =>
         let frame := mkFrame (pc vm) vars in
         let* vm' := get in
         set_callStack (CallStack.Push frame (callStack vm')) ;;
         set_pc (byte_val hi * 256 + byte_val lo) ;;
         ret Continue
     end) vm.
Proof.
  intros Ht. unfold doCall, bind at 1, get. rewrite target_of_bytes.
  destruct ((byte_val hi * 256 + byte_val lo =? 0)
            || (byte_val hi * 256 + byte_val lo >? len (code vm))) eqn:E.
  - apply orb_true_iff in E. lia.
  - reflexivity.
Qed.

(** C7, amended.  For a [call] with 2-byte target [t] and argument count
    [n]: when [t = 0] or [t > len(code)] the pass pushes
    "ReturnAddress out of bounds" and [Exec] returns false.  Otherwise, when
    the evaluation stack holds at least [n] values, the [n] topmost are
    popped into the variables of a new frame, the value popped [j]-th going
    to index [n - 1 - j]; the frame, whose return address is the [pc] just
    past the operands, is pushed onto the call stack and [pc] becomes [t].
    With fewer than [n] values the pop that fails ends the run: its message
    is pushed, [Exec] returns false and no frame is pushed. *)
Theorem call_checks_target_then_loads_arguments
  (fee : Z) (vm : VM C) (b hi lo n : byte) (entry : OpCode) :
  0 <= pc vm ->
  nth_error (code vm) (Z.to_nat (pc vm)) = Some b ->
  decode b = Some CALL ->
  nth_error OpCodes (Z.to_nat (byte_val b)) = Some entry ->
  gasPrice entry <= fee ->
  nth_error (code vm) (Z.to_nat (pc vm + 1)) = Some hi ->
  nth_error (code vm) (Z.to_nat (pc vm + 2)) = Some lo ->
  nth_error (code vm) (Z.to_nat (pc vm + 3)) = Some n ->
  let t := byte_val hi * 256 + byte_val lo in
  (t = 0 \/ t > len (code vm) ->
   forall fuel,
     loop (S fuel) fee vm
     = Some (Ok false
               (mkVM (code vm) (pc vm + 4)
                  (snd (Stack.Push (StrToBigInt "ReturnAddress out of bounds")
                          (evaluationStack vm)))
                  (callStack vm) (context vm))))
  /\ (0 < t <= len (code vm) ->
      forall args rest : list BigInt,
        Stack.Stack (evaluationStack vm) = args ++ rest ->
        len args = byte_val n ->
        exists vars : gmap Z BigInt,
          iter fee vm
          = Ok (Continue, (fee - gasPrice entry) mod 2 ^ 64)
               (mkVM (code vm) t
                  (Stack.mk rest
                     (Stack.memoryUsage (evaluationStack vm)
                      - fold_right Z.add 0
                          (map (fun v => getElementMemoryUsage (big.BitLen v)) args))
                     (Stack.memoryMax (evaluationStack vm)))
                  (mkFrame (pc vm + 4) vars :: callStack vm)
                  (context vm))
          /\ (forall j : nat,
                (j < length args)%nat ->
                vars !! Z.of_nat (length args - 1 - j) = args !! j)
          /\ (forall i : Z, ~ 0 <= i < len args -> vars !! i = None))
  /\ (0 < t <= len (code vm) ->
      len (Stack.Stack (evaluationStack vm)) < byte_val n ->
      forall fuel,
        loop (S fuel) fee vm
        = Some (Ok false
                  (mkVM (code vm) (pc vm + 4)
                     (snd (Stack.Push (StrToBigInt "pop on empty stack")
                             (Stack.mk []
                                (Stack.memoryUsage (evaluationStack vm)
                                 - fold_right Z.add 0
                                     (map (fun v => getElementMemoryUsage (big.BitLen v))
                                        (Stack.Stack (evaluationStack vm))))
                                (Stack.memoryMax (evaluationStack vm)))))
                     (callStack vm) (context vm)))).
Proof.
  intros Hpc Hb Hd He Hfee Hhi Hlo Hn t.
  assert (Hiter :
    iter fee vm
    = match doCall [hi; lo] n (with_pc vm (pc vm + 4)) with
      | Ok o vm' => Ok (o, (fee - gasPrice entry) mod 2 ^ 64) vm'
      | Panicked => Panicked
      end).
  { rewrite (iter_paid fee vm b entry Hpc Hb He Hfee).
    unfold dispatch. rewrite Hd.
    rewrite (exec_call_operands (with_pc vm (pc vm + 1)) hi lo n);
      cbn [pc code with_pc]; try lia; try assumption.
    - unfold with_pc. cbn. replace (pc vm + 1 + 3) with (pc vm + 4) by lia. reflexivity.
    - replace (pc vm + 1 + 1) with (pc vm + 2) by lia. exact Hlo.
    - replace (pc vm + 1 + 2) with (pc vm + 3) by lia. exact Hn. }
  split; [| split].
  - intros Ht fuel.
    apply (loop_returns fuel fee ((fee - gasPrice entry) mod 2 ^ 64)).
    rewrite Hiter, doCall_bad_target by exact Ht. reflexivity.
  - intros Ht args rest Hs Hlen.
    destruct (loadArguments_enough (length args) ∅ (with_pc vm (pc vm + 4))
                args rest eq_refl Hs) as (vars & Hrun & Hin & Hout).
    exists vars. split; [| split].
    + rewrite Hiter, doCall_good_target by exact Ht.
      unfold bind at 1.
      replace (Z.to_nat (byte_val n)) with (length args) by (unfold len in Hlen; lia).
      rewrite Hrun. reflexivity.
    + exact Hin.
    + intros i Hi. rewrite Hout by exact Hi. apply lookup_empty.
  - intros Ht Hlt.
    destruct (loadArguments_underflow (Z.to_nat (byte_val n)) ∅
                (with_pc vm (pc vm + 4))) as (vars & Hrun).
    { cbn [evaluationStack with_pc]. unfold len in Hlt. lia. }
    intros fuel.
    apply (loop_returns fuel fee ((fee - gasPrice entry) mod 2 ^ 64)).
    rewrite Hiter, doCall_good_target by exact Ht.
    unfold bind at 1. rewrite Hrun. rewrite halt_eq. reflexivity.
Qed.

(** ** Signature check *)

Lemma exec_checksig_lengths (vm : VM C)
  (publicKeySig hash : BigInt) (rest : list BigInt) :
  Stack.Stack (evaluationStack vm) = publicKeySig :: hash :: rest ->
  let popped :=
    with_evaluationStack vm
      (Stack.mk rest
         (Stack.memoryUsage (evaluationStack vm)
          - getElementMemoryUsage (big.BitLen publicKeySig)
          - getElementMemoryUsage (big.BitLen hash))
         (Stack.memoryMax (evaluationStack vm))) in
  (len (big.Bytes publicKeySig) <> 64 ->
   exec_op CHECKSIG vm = halt "Not a valid address" popped)
  /\ (len (big.Bytes publicKeySig) = 64 ->
      len (big.Bytes hash) <> 32 ->
      exec_op CHECKSIG vm = halt "Not a valid hash" popped).
Proof.
  intros Hs popped. split.
  - intros Hk. cbn [exec_op]. unfold bind at 1.
    rewrite (evalPop_cons vm publicKeySig (hash :: rest) Hs). unfold bind at 1.
    rewrite (evalPop_cons _ hash rest) by reflexivity.
    cbn [checkErrors bind ret negb].
    destruct (len (big.Bytes publicKeySig) =? 64) eqn:E; [lia |]. reflexivity.
  - intros Hk Hh. cbn [exec_op]. unfold bind at 1.
    rewrite (evalPop_cons vm publicKeySig (hash :: rest) Hs). unfold bind at 1.
    rewrite (evalPop_cons _ hash rest) by reflexivity.
    cbn [checkErrors bind ret negb].
    destruct (len (big.Bytes publicKeySig) =? 64) eqn:E; [| lia].
    destruct (len (big.Bytes hash) =? 32) eqn:E1; [lia |]. reflexivity.
Qed.

(** C8, amended.  [checksig] pops the public key first and the hash second.
    After the two pops, a key whose byte representation is not exactly 64
    bytes long makes the pass push "Not a valid address"; a key of 64 bytes
    with a hash that is not exactly 32 bytes long makes it push
    "Not a valid hash".  In both cases [Exec] returns false. *)
Theorem checksig_checks_key_then_hash
  (fee : Z) (vm : VM C) (b : byte) (entry : OpCode)
  (publicKeySig hash : BigInt) (rest : list BigInt) :
  0 <= pc vm ->
  nth_error (code vm) (Z.to_nat (pc vm)) = Some b ->
  decode b = Some CHECKSIG ->
  nth_error OpCodes (Z.to_nat (byte_val b)) = Some entry ->
  gasPrice entry <= fee ->
  Stack.Stack (evaluationStack vm) = publicKeySig :: hash :: rest ->
  let popped :=
    Stack.mk rest
      (Stack.memoryUsage (evaluationStack vm)
       - getElementMemoryUsage (big.BitLen publicKeySig)
       - getElementMemoryUsage (big.BitLen hash))
      (Stack.memoryMax (evaluationStack vm)) in
  (len (big.Bytes publicKeySig) <> 64 ->
   forall fuel,
     loop (S fuel) fee vm
     = Some (Ok false
               (mkVM (code vm) (pc vm + 1)
                  (snd (Stack.Push (StrToBigInt "Not a valid address") popped))
                  (callStack vm) (context vm))))
  /\ (len (big.Bytes publicKeySig) = 64 ->
      len (big.Bytes hash) <> 32 ->
      forall fuel,
        loop (S fuel) fee vm
        = Some (Ok false
                  (mkVM (code vm) (pc vm + 1)
                     (snd (Stack.Push (StrToBigInt "Not a valid hash") popped))
                     (callStack vm) (context vm)))).
Proof.
  intros Hpc Hb Hd He Hfee Hs popped.
  destruct (exec_checksig_lengths (with_pc vm (pc vm + 1)) publicKeySig hash rest Hs)
    as [Hkey Hhash].
  split.
  - intros Hk fuel.
    apply (loop_returns fuel fee ((fee - gasPrice entry) mod 2 ^ 64)).
    rewrite (iter_paid fee vm b entry Hpc Hb He Hfee).
    unfold dispatch. rewrite Hd, (Hkey Hk), halt_eq. reflexivity.
  - intros Hk Hh fuel.
    apply (loop_returns fuel fee ((fee - gasPrice entry) mod 2 ^ 64)).
    rewrite (iter_paid fee vm b entry Hpc Hb He Hfee).
    unfold dispatch. rewrite Hd, (Hhash Hk Hh), halt_eq. reflexivity.
Qed.

(** ** Reading an array element *)

Lemma evalPeek_cons (vm : VM C) (x : BigInt) (rest : list BigInt) :
  Stack.Stack (evaluationStack vm) = x :: rest ->
  evalPeek vm = Ok (x, None) vm.
Proof.
  intros Hs. unfold evalPeek, bind, get, ret, Stack.Peek. rewrite Hs. reflexivity.
Qed.

(** [ARRAT] with an array on top and an index that it has: what is left is
    the checked push of the element onto the stack as it was. *)
Lemma exec_arrat_found (vm : VM C) (hi lo : byte)
  (a : BigInt) (rest : list BigInt) (index : Z) (arr : Array) (e : list byte) :
  0 <= pc vm ->
  nth_error (code vm) (Z.to_nat (pc vm)) = Some hi ->
  nth_error (code vm) (Z.to_nat (pc vm + 1)) = Some lo ->
  pc vm + 2 < len (code vm) ->
  Stack.Stack (evaluationStack vm) = a :: rest ->
  ByteArrayToUI16 [hi; lo] = (index, None) ->
  ArrayFromBigInt a = (arr, None) ->
  Array_At arr index = (e, None) ->
  exec_op ARRAT vm = pushOrHalt (big.SetBytes e) (with_pc vm (pc vm + 2)).
Proof.
  intros Hpc Hhi Hlo Hlen Hs Hconv Harr Hat. cbn [exec_op]. unfold bind at 1.
  rewrite (evalPeek_cons vm a rest Hs). unfold bind at 1.
  rewrite fetchMany_ok by lia.
  rewrite (slice_two (code vm) (pc vm) hi lo Hpc Hhi Hlo), Hconv, Harr, Hat.
  reflexivity.
Qed.

(** [ARRAT] when at most two bytes follow the opcode: [fetchMany] refuses to
    read the immediate, whatever the conversion of the empty slice answers. *)
Lemma exec_arrat_immediate_out_of_bounds (vm : VM C)
  (a : BigInt) (rest : list BigInt) :
  len (code vm) - pc vm <= 2 ->
  Stack.Stack (evaluationStack vm) = a :: rest ->
  exec_op ARRAT vm
  = Ok (Return false)
       (with_evaluationStack vm
          (snd (Stack.Push (StrToBigInt "instructionSet out of bounds")
                  (evaluationStack vm)))).
Proof.
  intros Hlen Hs. cbn [exec_op]. unfold bind at 1.
  rewrite (evalPeek_cons vm a rest Hs). unfold bind at 1.
  rewrite fetchMany_out_of_bounds by exact Hlen.
  destruct (ByteArrayToUI16 []) as [index [conversionErr |]]; apply halt_eq.
Qed.

Lemma Push_accepted (v : BigInt) (s : Stack.t) :
  Stack.hasEnoughMemory s (big.BitLen v) = true ->
  Stack.Push v s
  = (None,
     Stack.mk (v :: Stack.Stack s)
       (Stack.memoryUsage s + getElementMemoryUsage (big.BitLen v))
       (Stack.memoryMax s)).
Proof. intros Hm. unfold Stack.Push. rewrite Hm. reflexivity. Qed.

Lemma Push_refused (v : BigInt) (s : Stack.t) :
  Stack.hasEnoughMemory s (big.BitLen v) = false ->
  Stack.Push v s = (Some "stack overflow", s).
Proof. intros Hm. unfold Stack.Push. rewrite Hm. reflexivity. Qed.

(** Whatever [Push] answers, what was on the stack stays below. *)
Lemma Push_keeps_elements (v : BigInt) (s : Stack.t) :
  Stack.Stack (snd (Stack.Push v s)) = Stack.Stack s
  \/ Stack.Stack (snd (Stack.Push v s)) = v :: Stack.Stack s.
Proof.
  unfold Stack.Push. destruct (Stack.hasEnoughMemory s (big.BitLen v)); cbn; auto.
Qed.

(** C9, amended.  With on top of the evaluation stack a word that encodes
    an array, and a 2-byte immediate, read by [fetchMany], that is the index
    of one of its elements, [arrat] does not pop the array.  When the memory
    quota of the stack admits the element, the element is pushed: the array
    is directly beneath it and the stack is one element deeper.  When the
    quota does not admit it, the push is refused, the pass pushes the
    message of that refusal and [Exec] returns false, the array still on the
    stack. *)
Theorem arrat_keeps_the_array
  (fee : Z) (vm : VM C) (b hi lo : byte) (entry : OpCode)
  (a : BigInt) (rest : list BigInt) (index : Z) (arr : Array) (e : list byte) :
  0 <= pc vm ->
  nth_error (code vm) (Z.to_nat (pc vm)) = Some b ->
  decode b = Some ARRAT ->
  nth_error OpCodes (Z.to_nat (byte_val b)) = Some entry ->
  gasPrice entry <= fee ->
  nth_error (code vm) (Z.to_nat (pc vm + 1)) = Some hi ->
  nth_error (code vm) (Z.to_nat (pc vm + 2)) = Some lo ->
  pc vm + 3 < len (code vm) ->
  Stack.Stack (evaluationStack vm) = a :: rest ->
  ByteArrayToUI16 [hi; lo] = (index, None) ->
  ArrayFromBigInt a = (arr, None) ->
  Array_At arr index = (e, None) ->
  (Stack.hasEnoughMemory (evaluationStack vm) (big.BitLen (big.SetBytes e)) = true ->
   iter fee vm
   = Ok (Continue, (fee - gasPrice entry) mod 2 ^ 64)
        (mkVM (code vm) (pc vm + 3)
           (Stack.mk (big.SetBytes e :: a :: rest)
              (Stack.memoryUsage (evaluationStack vm)
               + getElementMemoryUsage (big.BitLen (big.SetBytes e)))
              (Stack.memoryMax (evaluationStack vm)))
           (callStack vm) (context vm)))
  /\ (Stack.hasEnoughMemory (evaluationStack vm) (big.BitLen (big.SetBytes e)) = false ->
      exists s' : Stack.t,
        (forall fuel,
           loop (S fuel) fee vm
           = Some (Ok false (mkVM (code vm) (pc vm + 3) s' (callStack vm) (context vm))))
        /\ s' = snd (Stack.Push (StrToBigInt "stack overflow") (evaluationStack vm))
        /\ (Stack.Stack s' = a :: rest
            \/ Stack.Stack s' = StrToBigInt "stack overflow" :: a :: rest)).
Proof.
  intros Hpc Hb Hd He Hfee Hhi Hlo Hlen Hs Hconv Harr Hat.
  assert (Hiter :
    iter fee vm
    = match pushOrHalt (big.SetBytes e) (with_pc vm (pc vm + 3)) with
      | Ok o vm' => Ok (o, (fee - gasPrice entry) mod 2 ^ 64) vm'
      | Panicked => Panicked
      end).
  { rewrite (iter_paid fee vm b entry Hpc Hb He Hfee).
    unfold dispatch. rewrite Hd.
    rewrite (exec_arrat_found (with_pc vm (pc vm + 1)) hi lo a rest index arr e);
      cbn [pc code with_pc evaluationStack]; try lia; try assumption.
    - unfold with_pc. cbn. replace (pc vm + 1 + 2) with (pc vm + 3) by lia. reflexivity.
    - replace (pc vm + 1 + 1) with (pc vm + 2) by lia. exact Hlo. }
  split.
  - intros Hm. rewrite Hiter.
    unfold pushOrHalt, bind at 1, evalPush, bind at 1, get.
    cbn [evaluationStack with_pc]. rewrite (Push_accepted _ _ Hm).
    unfold bind, set_evaluationStack, ret. rewrite Hs. reflexivity.
  - intros Hm. eexists. split; [| split].
    + intros fuel.
      apply (loop_returns fuel fee ((fee - gasPrice entry) mod 2 ^ 64)).
      rewrite Hiter.
      unfold pushOrHalt, bind at 1, evalPush, bind at 1, get.
      cbn [evaluationStack with_pc]. rewrite (Push_refused _ _ Hm).
      unfold bind at 1, set_evaluationStack, ret. rewrite halt_eq.
      unfold with_evaluationStack. cbn. reflexivity.
    + reflexivity.
    + rewrite <- Hs. apply Push_keeps_elements.
Qed.

(** ** Strings on the stack *)







(** ** Every error path pushes a message *)

















































(** How a fetch of the opcode can end. *)
Lemma fetch_cases (vm : VM C) :
  fetch vm = Panicked
  \/ fetch vm = Ok (x00, Some "instructionSet out of bounds") vm
  \/ exists b : byte,
       0 <= pc vm
       /\ nth_error (code vm) (Z.to_nat (pc vm)) = Some b
       /\ fetch vm = Ok (b, None) (with_pc vm (pc vm + 1)).
Proof.
  destruct (Z.leb_spec (len (code vm)) (pc vm)) as [Hout | Hin].
  - right. left. apply fetch_out_of_bounds, Hout.
  - destruct (Z.ltb_spec (pc vm) 0) as [Hneg | Hpc].
    + left. unfold fetch, bind, get.
      destruct (len (code vm) >? pc vm) eqn:E; [| lia].
      destruct (pc vm <? 0) eqn:E0; [reflexivity | lia].
    + destruct (nth_error (code vm) (Z.to_nat (pc vm))) as [b |] eqn:Hb.
      * right. right. exists b. auto using fetch_ok.
      * apply nth_error_None in Hb. unfold len in Hin. lia.
Qed.




(** ** [Exec] returns true through [halt] only *)

Lemma never_true_bind {A} (m : VMMonad.M C A) (k : A -> VMMonad.M C Outcome) :
  (forall a, never_true (k a)) -> never_true (bind m k).
Proof.
  intros Hk vm vm'. unfold bind.
  destruct (m vm) as [a vm1 |]; [apply Hk | discriminate].
Qed.

Lemma never_true_ret (o : Outcome) :
  o <> Return true -> never_true (C := C) (ret o).
Proof. intros Ho vm vm' Hr. injection Hr as Hr _. contradiction. Qed.

Lemma never_true_halt (msg : string) : never_true (C := C) (halt msg).
Proof. intros vm vm'. rewrite halt_eq. discriminate. Qed.

Lemma never_true_pushOrHalt (v : BigInt) : never_true (C := C) (pushOrHalt v).
Proof.
  unfold pushOrHalt. apply never_true_bind. intros [msg |].
  - apply never_true_halt.
  - apply never_true_ret. discriminate.
Qed.

Ltac never_true_step :=
  lazymatch goal with
  | |- never_true (bind _ _) => apply never_true_bind; intros ?
  | |- never_true (ret _) => apply never_true_ret; discriminate
  | |- never_true (halt _) => apply never_true_halt
  | |- never_true (pushOrHalt _) => apply never_true_pushOrHalt
  | |- never_true panic => intros ? ?; discriminate
  | |- never_true (if ?c then _ else _) => destruct c
  | |- never_true (let (_, _) := ?p in _) => destruct p as [? ?]
  | |- never_true (match ?e with Some _ => _ | None => _ end) => destruct e
  end; cbn beta iota.

Lemma never_true_calldataLoop (rounds : nat) :
  forall (td : list byte) (i : Z), never_true (C := C) (calldataLoop rounds td i).
Proof.
  induction rounds as [| rounds IH]; intros td i; cbn [calldataLoop].
  - never_true_step.
  - repeat first [apply IH | never_true_step].
Qed.

(** No case of the [switch] but [HALT] makes [Exec] return true. *)
Lemma exec_op_never_true (op : Op) : op <> HALT -> never_true (C := C) (exec_op op).
Proof.
  intros Hop.
  destruct op; try congruence; cbn [exec_op];
    unfold arith, compareOp, pop2, doCall;
    repeat first [apply never_true_calldataLoop | never_true_step].
Qed.

Lemma iter_true (fee fee' : Z) (vm vm' : VM C) :
  iter fee vm = Ok (Return true, fee') vm' -> stopped_by HALT vm'.
Proof.
  unfold iter, bind at 1.
  destruct (fetch_cases vm) as [-> | [-> | (b & Hpc & Hb & ->)]].
  - discriminate.
  - unfold bind. rewrite pushStr_eq. discriminate.
  - destruct (len OpCodes <? byte_val b).
    { unfold bind. rewrite pushStr_eq. discriminate. }
    destruct (nth_error OpCodes (Z.to_nat (byte_val b))) as [entry |]; [| discriminate].
    destruct (fee <? gasPrice entry).
    { unfold bind. rewrite pushStr_eq. discriminate. }
    unfold bind, ret, dispatch.
    destruct (decode b) as [op |] eqn:Hd; [| discriminate].
    destruct (exec_op op (with_pc vm (pc vm + 1))) as [o vm1 |] eqn:Hx; [| discriminate].
    intros Hi. injection Hi as -> _ ->.
    destruct op; try (exfalso; revert Hx; apply exec_op_never_true; discriminate).
    cbn [exec_op] in Hx. injection Hx as <-. exists vm, b. auto.
Qed.

Lemma loop_true (fuel : nat) :
  forall (fee : Z) (vm vm' : VM C),
    loop fuel fee vm = Some (Ok true vm') -> stopped_by HALT vm'.
Proof.
  induction fuel as [| fuel IH]; intros fee vm vm' Hl.
  - discriminate.
  - cbn [loop] in Hl.
    destruct (iter fee vm) as [[[| r] fee1] vm1 |] eqn:Hi.
    + apply (IH fee1 vm1 vm' Hl).
    + injection Hl as -> ->. apply (iter_true fee fee1 vm vm' Hi).
    + discriminate.
Qed.

(** X1.  [Exec] returns true only from the case [HALT]: the machine it leaves is
    the one before the last pass with [pc] moved past a byte that is the
    constant [HALT].  Running off the end of the code, or any other way out
    of the loop, gives false. *)
Theorem Exec_returns_true_only_by_halt (fuel : nat) (vm vm' : VM C) :
  Exec fuel vm = Some (Ok true vm') -> stopped_by HALT vm'.
Proof.
  unfold Exec, Exec_init, bind at 1, get, bind at 1, set_code.
  destruct (len (GetContract (context vm)) >? 100000).
  - unfold bind. rewrite pushStr_eq. cbn beta iota. discriminate.
  - cbn beta iota. apply loop_true.
Qed.

(** ** What a run leaves alone *)

Lemma keeps_bind {A B} (host : bool) (m : VMMonad.M C A) (k : A -> VMMonad.M C B) :
  keeps host m -> (forall a, keeps host (k a)) -> keeps host (bind m k).
Proof.
  intros Hm Hk vm b vm' Hr. unfold bind in Hr.
  destruct (m vm) as [a vm1 |] eqn:Hmv; [| discriminate].
  destruct (Hm vm a vm1 Hmv) as [Hc1 Hh1].
  destruct (Hk a vm1 b vm' Hr) as [Hc2 Hh2].
  split; [congruence |]. intros Hhost. rewrite Hh2, Hh1; auto.
Qed.

Lemma keeps_ret {A} (host : bool) (a : A) : keeps (C := C) host (ret a).
Proof. intros vm a' vm' Hr. injection Hr as _ <-. auto. Qed.

Lemma keeps_panic {A} (host : bool) : keeps (C := C) (A := A) host panic.
Proof. intros vm a vm' Hr. discriminate. Qed.

Lemma keeps_get (host : bool) : keeps (C := C) host get.
Proof. intros vm a vm' Hr. injection Hr as _ <-. auto. Qed.

Lemma keeps_set_pc (host : bool) (n : Z) : keeps (C := C) host (set_pc n).
Proof. intros vm a vm' Hr. injection Hr as _ <-. auto. Qed.

Lemma keeps_set_evaluationStack (host : bool) (s : Stack.t) :
  keeps (C := C) host (set_evaluationStack s).
Proof. intros vm a vm' Hr. injection Hr as _ <-. auto. Qed.

Lemma keeps_set_callStack (host : bool) (cs : CallStack.t) :
  keeps (C := C) host (set_callStack cs).
Proof. intros vm a vm' Hr. injection Hr as _ <-. auto. Qed.

(** [SetContractVariable] is the one way to the state of the host. *)
Lemma keeps_set_context (ctx : C) : keeps false (set_context ctx).
Proof. intros vm a vm' Hr. injection Hr as _ <-. split; [reflexivity | discriminate]. Qed.

Ltac keeps_step :=
  lazymatch goal with
  | |- keeps _ (bind _ _) => apply keeps_bind; [| intros ?]
  | |- keeps _ (ret _) => apply keeps_ret
  | |- keeps _ panic => apply keeps_panic
  | |- keeps _ get => apply keeps_get
  | |- keeps _ (set_pc _) => apply keeps_set_pc
  | |- keeps _ (set_evaluationStack _) => apply keeps_set_evaluationStack
  | |- keeps _ (set_callStack _) => apply keeps_set_callStack
  | |- keeps false (set_context _) => apply keeps_set_context
  | |- keeps _ (if ?c then _ else _) => destruct c
  | |- keeps _ (let (_, _) := ?p in _) => destruct p as [? ?]
  | |- keeps _ (match ?e with Some _ => _ | None => _ end) => destruct e
  end; cbn beta iota.

Lemma keeps_evalPush (host : bool) (v : BigInt) : keeps (C := C) host (evalPush v).
Proof. unfold evalPush. repeat keeps_step. Qed.

Lemma keeps_evalPop (host : bool) : keeps (C := C) host evalPop.
Proof. unfold evalPop. repeat keeps_step. Qed.

Lemma keeps_evalPeek (host : bool) : keeps (C := C) host evalPeek.
Proof. unfold evalPeek. repeat keeps_step. Qed.

Lemma keeps_evalPopIndexAt (host : bool) (index : Z) :
  keeps (C := C) host (evalPopIndexAt index).
Proof. unfold evalPopIndexAt. repeat keeps_step. Qed.

Lemma keeps_evalGetLength (host : bool) : keeps (C := C) host evalGetLength.
Proof. unfold evalGetLength. repeat keeps_step. Qed.

Lemma keeps_callPeek (host : bool) : keeps (C := C) host callPeek.
Proof. unfold callPeek. repeat keeps_step. Qed.

Lemma keeps_pushStr (host : bool) (msg : string) : keeps (C := C) host (pushStr msg).
Proof. unfold pushStr. keeps_step; [apply keeps_evalPush | keeps_step]. Qed.

Lemma keeps_halt (host : bool) (msg : string) : keeps (C := C) host (halt msg).
Proof. unfold halt. keeps_step; [apply keeps_pushStr | keeps_step]. Qed.

Lemma keeps_pushOrHalt (host : bool) (v : BigInt) : keeps (C := C) host (pushOrHalt v).
Proof.
  unfold pushOrHalt. keeps_step; [apply keeps_evalPush |].
  keeps_step; [apply keeps_halt | keeps_step].
Qed.

Lemma keeps_fetch (host : bool) : keeps (C := C) host fetch.
Proof. unfold fetch. repeat keeps_step. Qed.

Lemma keeps_fetchMany (host : bool) (n : Z) : keeps (C := C) host (fetchMany n).
Proof. unfold fetchMany. repeat keeps_step. Qed.

Lemma keeps_checkErrors (host : bool) (errors : list error) :
  keeps (C := C) host (checkErrors errors).
Proof.
  induction errors as [| [msg |] errors IH]; cbn [checkErrors].
  - keeps_step.
  - keeps_step; [apply keeps_pushStr | keeps_step].
  - exact IH.
Qed.

Lemma keeps_loadArguments (host : bool) (n : nat) :
  forall vars : gmap Z BigInt, keeps (C := C) host (loadArguments n vars).
Proof.
  induction n as [| n IH]; intros vars; cbn [loadArguments].
  - keeps_step.
  - keeps_step; [apply keeps_evalPop |]. keeps_step. keeps_step; [keeps_step | apply IH].
Qed.

Ltac keeps_run :=
  repeat first
    [ apply keeps_evalPush | apply keeps_evalPop | apply keeps_evalPeek
    | apply keeps_evalPopIndexAt | apply keeps_evalGetLength | apply keeps_callPeek
    | apply keeps_pushStr | apply keeps_halt | apply keeps_pushOrHalt
    | apply keeps_fetch | apply keeps_fetchMany | apply keeps_checkErrors
    | apply keeps_loadArguments
    | keeps_step ].

Lemma keeps_calldataLoop (host : bool) (rounds : nat) :
  forall (td : list byte) (i : Z), keeps (C := C) host (calldataLoop rounds td i).
Proof.
  induction rounds as [| rounds IH]; intros td i; cbn [calldataLoop].
  - keeps_run.
  - repeat first [apply IH | progress keeps_run].
Qed.

(** Every case of the [switch] leaves the code as it is; every case but
    [SSTORE] leaves the host as it is. *)
Lemma exec_op_keeps (host : bool) (op : Op) :
  (host = true -> op <> SSTORE) -> keeps (C := C) host (exec_op op).
Proof.
  intros Hop.
  destruct op; cbn [exec_op]; unfold arith, compareOp, pop2, doCall;
    try (repeat first [apply keeps_calldataLoop | progress keeps_run]; fail).
  destruct host; [exfalso; apply Hop; reflexivity |].
  keeps_run.
Qed.

Lemma dispatch_keeps (host : bool) (b : byte) :
  (host = true -> decode b <> Some SSTORE) -> keeps (C := C) host (dispatch b).
Proof.
  intros Hb. unfold dispatch. destruct (decode b) as [op |].
  - apply exec_op_keeps. intros Hh ->. apply (Hb Hh). reflexivity.
  - apply keeps_ret.
Qed.

Lemma iter_keeps (host : bool) (fee fee' : Z) (vm vm' : VM C) (o : Outcome) :
  (host = true -> free_of SSTORE (code vm)) ->
  iter fee vm = Ok (o, fee') vm' ->
  code vm' = code vm /\ (host = true -> context vm' = context vm).
Proof.
  intros Hfree. unfold iter, bind at 1.
  destruct (fetch_cases vm) as [-> | [-> | (b & Hpc & Hb & ->)]].
  - discriminate.
  - unfold bind. rewrite pushStr_eq. intros Hi. injection Hi as _ _ <-. auto.
  - destruct (len OpCodes <? byte_val b).
    { unfold bind. rewrite pushStr_eq. intros Hi. injection Hi as _ _ <-. auto. }
    destruct (nth_error OpCodes (Z.to_nat (byte_val b))) as [entry |]; [| discriminate].
    destruct (fee <? gasPrice entry).
    { unfold bind. rewrite pushStr_eq. intros Hi. injection Hi as _ _ <-. auto. }
    unfold bind, ret.
    destruct (dispatch b (with_pc vm (pc vm + 1))) as [o1 vm1 |] eqn:Hd; [| discriminate].
    intros Hi. injection Hi as _ _ <-.
    refine (dispatch_keeps host b _ _ _ _ Hd).
    intros Hh. specialize (Hfree Hh). unfold free_of in Hfree.
    rewrite Forall_forall in Hfree. apply Hfree.
    apply list_elem_of_In. eapply nth_error_In, Hb.
Qed.

Lemma loop_keeps (host : bool) (fuel : nat) :
  forall (fee : Z) (vm vm' : VM C) (r : bool),
    (host = true -> free_of SSTORE (code vm)) ->
    loop fuel fee vm = Some (Ok r vm') ->
    code vm' = code vm /\ (host = true -> context vm' = context vm).
Proof.
  induction fuel as [| fuel IH]; intros fee vm vm' r Hfree Hl.
  - discriminate.
  - cbn [loop] in Hl.
    destruct (iter fee vm) as [[[| r1] fee1] vm1 |] eqn:Hi; [| | discriminate].
    + destruct (iter_keeps host _ _ _ _ _ Hfree Hi) as [Hc1 Hh1].
      destruct (IH fee1 vm1 vm' r) as [Hc2 Hh2]; [rewrite Hc1; exact Hfree | exact Hl |].
      split; [congruence |]. intros Hh. rewrite Hh2, Hh1; auto.
    + injection Hl as -> ->. apply (iter_keeps host _ _ _ _ _ Hfree Hi).
Qed.

(** X2.  However [Exec] returns, the code of the machine is the contract of the
    host, unchanged by the run; and when no byte of the contract is the
    constant [SSTORE], the state of the host is the one the run started
    with: [SetContractVariable], which only [SSTORE] calls, is the one way
    in which a contract changes the host. *)
Theorem Exec_changes_host_only_by_sstore (fuel : nat) (vm vm' : VM C) (r : bool) :
  Exec fuel vm = Some (Ok r vm') ->
  code vm' = GetContract (context vm)
  /\ (free_of SSTORE (GetContract (context vm)) -> context vm' = context vm).
Proof.
  unfold Exec, Exec_init, bind at 1, get, bind at 1, set_code.
  destruct (len (GetContract (context vm)) >? 100000).
  - unfold bind. rewrite pushStr_eq. cbn beta iota. intros Hx. injection Hx as _ <-.
    auto.
  - cbn beta iota. unfold ret. intros Hl. split.
    + apply (loop_keeps false fuel (GetFee (context vm))
               (with_code vm (GetContract (context vm))) vm' r
               ltac:(discriminate) Hl).
    + intros Hfree.
      destruct (loop_keeps true fuel (GetFee (context vm))
                  (with_code vm (GetContract (context vm))) vm' r
                  (fun _ => Hfree) Hl) as [_ Hctx].
      apply Hctx. reflexivity.
Qed.

(** ** No run-time panic *)

Lemma wpt_bind {A B} (m : VMMonad.M C A) (k : A -> VMMonad.M C B)
  (Q : B -> VM C -> Prop) (vm : VM C) :
  wpt m (fun a vm1 => wpt (k a) Q vm1) vm -> wpt (bind m k) Q vm.
Proof. unfold wpt, bind. destruct (m vm); trivial. Qed.

Lemma wpt_ret {A} (a : A) (Q : A -> VM C -> Prop) (vm : VM C) :
  Q a vm -> wpt (ret a) Q vm.
Proof. trivial. Qed.

Lemma wpt_get (Q : VM C -> VM C -> Prop) (vm : VM C) : Q vm vm -> wpt get Q vm.
Proof. trivial. Qed.

Lemma wpt_set_pc (n : Z) (Q : unit -> VM C -> Prop) (vm : VM C) :
  Q tt (with_pc vm n) -> wpt (set_pc n) Q vm.
Proof. trivial. Qed.

Lemma wpt_set_callStack (cs : CallStack.t) (Q : unit -> VM C -> Prop) (vm : VM C) :
  Q tt (with_callStack vm cs) -> wpt (set_callStack cs) Q vm.
Proof. trivial. Qed.

Lemma wpt_set_context (ctx : C) (Q : unit -> VM C -> Prop) (vm : VM C) :
  Q tt (with_context vm ctx) -> wpt (set_context ctx) Q vm.
Proof. trivial. Qed.

Lemma counters_valid_stack (vm : VM C) (s : Stack.t) :
  counters_valid vm -> counters_valid (with_evaluationStack vm s).
Proof. trivial. Qed.

Lemma wpt_evalPush (v : BigInt) (Q : error -> VM C -> Prop) (vm : VM C) :
  counters_valid vm ->
  (forall e vm', counters_valid vm' -> Q e vm') -> wpt (evalPush v) Q vm.
Proof.
  intros Hv HQ. unfold wpt, evalPush, bind, get.
  destruct (Stack.Push v (evaluationStack vm)) as [e s]. cbn. apply HQ, Hv.
Qed.

Lemma wpt_evalPop (Q : BigInt * error -> VM C -> Prop) (vm : VM C) :
  counters_valid vm ->
  (forall r vm', counters_valid vm' -> Q r vm') -> wpt evalPop Q vm.
Proof.
  intros Hv HQ. unfold wpt, evalPop, bind, get.
  destruct (Stack.Pop (evaluationStack vm)) as [r s]. cbn. apply HQ, Hv.
Qed.

Lemma wpt_evalPeek (Q : BigInt * error -> VM C -> Prop) (vm : VM C) :
  (forall r, Q r vm) -> wpt evalPeek Q vm.
Proof. intros HQ. apply HQ. Qed.

Lemma wpt_evalPopIndexAt (index : Z) (Q : BigInt * error -> VM C -> Prop) (vm : VM C) :
  counters_valid vm ->
  (forall r vm', counters_valid vm' -> Q r vm') -> wpt (evalPopIndexAt index) Q vm.
Proof.
  intros Hv HQ. unfold wpt, evalPopIndexAt, bind, get.
  destruct (Stack.PopIndexAt index (evaluationStack vm)) as [r s]. cbn. apply HQ, Hv.
Qed.

Lemma wpt_evalGetLength (Q : Z -> VM C -> Prop) (vm : VM C) :
  (forall n, Q n vm) -> wpt evalGetLength Q vm.
Proof. intros HQ. apply HQ. Qed.

(** The frame that [Peek] returns without an error is one of the call
    stack. *)
Lemma wpt_callPeek (Q : Frame * error -> VM C -> Prop) (vm : VM C) :
  counters_valid vm ->
  (forall f e, (e = None -> 0 <= returnAddress f) -> Q (f, e) vm) ->
  wpt callPeek Q vm.
Proof.
  intros [_ Hcs] HQ. unfold wpt, callPeek, bind, get, ret, CallStack.Peek.
  destruct (callStack vm) as [| f cs]; apply HQ.
  - discriminate.
  - intros _. inversion Hcs; assumption.
Qed.

Lemma wpt_pushStr (msg : string) (Q : unit -> VM C -> Prop) (vm : VM C) :
  counters_valid vm ->
  (forall vm', counters_valid vm' -> Q tt vm') -> wpt (pushStr msg) Q vm.
Proof. intros Hv HQ. unfold wpt. rewrite pushStr_eq. apply HQ, Hv. Qed.

Lemma wpt_halt (msg : string) (Q : Outcome -> VM C -> Prop) (vm : VM C) :
  counters_valid vm ->
  (forall vm', counters_valid vm' -> Q (Return false) vm') -> wpt (halt msg) Q vm.
Proof. intros Hv HQ. unfold wpt. rewrite halt_eq. apply HQ, Hv. Qed.

Lemma wpt_pushOrHalt (v : BigInt) (Q : Outcome -> VM C -> Prop) (vm : VM C) :
  counters_valid vm ->
  (forall o vm', counters_valid vm' -> Q o vm') -> wpt (pushOrHalt v) Q vm.
Proof.
  intros Hv HQ. unfold pushOrHalt. apply wpt_bind, wpt_evalPush; [exact Hv |].
  intros [msg |] vm' Hv'; [apply wpt_halt; auto | apply wpt_ret; auto].
Qed.

(** With [pc] not negative the index of [fetch] is inside the code. *)
Lemma wpt_fetch (Q : byte * error -> VM C -> Prop) (vm : VM C) :
  counters_valid vm ->
  (forall r vm', counters_valid vm' -> Q r vm') -> wpt fetch Q vm.
Proof.
  intros [Hpc Hcs] HQ. unfold wpt.
  destruct (Z.leb_spec (len (code vm)) (pc vm)) as [Hout | Hin].
  - rewrite fetch_out_of_bounds by exact Hout. apply HQ. split; assumption.
  - destruct (nth_error (code vm) (Z.to_nat (pc vm))) as [b |] eqn:Hb.
    + rewrite (fetch_ok vm b Hpc Hb). apply HQ. split; [cbn; lia | exact Hcs].
    + apply nth_error_None in Hb. unfold len in Hin. lia.
Qed.

Lemma slice_length {A} (l : list A) (lo n : Z) :
  0 <= lo -> 0 <= n -> lo + n <= len l -> len (slice l lo (lo + n)) = n.
Proof.
  intros Hlo Hn Hle. unfold slice, len in *.
  rewrite length_firstn, length_skipn. lia.
Qed.

(** The bounds of the slice of [fetchMany] are inside the code, and it
    returns as many bytes as it was asked for. *)
Lemma wpt_fetchMany (n : Z) (Q : list byte * error -> VM C -> Prop) (vm : VM C) :
  0 <= n ->
  counters_valid vm ->
  (forall bs e vm', counters_valid vm' -> (e = None -> len bs = n) -> Q (bs, e) vm') ->
  wpt (fetchMany n) Q vm.
Proof.
  intros Hn [Hpc Hcs] HQ. unfold wpt.
  destruct (Z.leb_spec (len (code vm) - pc vm) n) as [Hout | Hin].
  - rewrite fetchMany_out_of_bounds by exact Hout.
    apply HQ; [split; assumption | discriminate].
  - rewrite fetchMany_ok by lia. apply HQ.
    + split; [cbn; lia | exact Hcs].
    + intros _. apply slice_length; lia.
Qed.

Lemma wpt_checkErrors (errors : list error) (Q : bool -> VM C -> Prop) (vm : VM C) :
  counters_valid vm ->
  (forall vm', counters_valid vm' -> Q false vm') ->
  (Forall (fun e => e = None) errors -> Q true vm) ->
  wpt (checkErrors errors) Q vm.
Proof.
  intros Hv Hf Ht. induction errors as [| [msg |] errors IH]; cbn [checkErrors].
  - apply Ht. constructor.
  - apply wpt_bind, wpt_pushStr; [exact Hv |]. intros vm' Hv'. apply Hf, Hv'.
  - apply IH. intros Hall. apply Ht. constructor; [reflexivity | exact Hall].
Qed.

Lemma target_not_negative (bs : list byte) :
  len bs = 2 -> 0 <= big.Int64 (big.SetBytes bs).
Proof.
  intros Hl. destruct bs as [| hi [| lo [| x bs]]]; try discriminate.
  - rewrite target_of_bytes.
    pose proof (byte_val_range hi). pose proof (byte_val_range lo). lia.
  - exfalso. unfold len in Hl. cbn in Hl. lia.
Qed.

Ltac use_no_errors :=
  repeat match goal with
         | H : Forall _ (_ :: _) |- _ => inversion H; clear H; subst
         | H : Forall _ [] |- _ => clear H
         end;
  repeat match goal with
         | H : None = None -> _ |- _ => specialize (H eq_refl)
         end.

Lemma frames_valid_Pop (P : Frame -> Prop) (cs : CallStack.t) :
  Forall P cs -> Forall P (snd (CallStack.Pop cs)).
Proof. intros Hcs. destruct Hcs; cbn; [constructor | assumption]. Qed.

Lemma frames_valid_tail (P : Frame -> Prop) (cs : CallStack.t) :
  Forall P cs -> Forall P (tail cs).
Proof. intros Hcs. destruct Hcs; cbn; [constructor | assumption]. Qed.

Ltac counters_leaf :=
  use_no_errors;
  try assumption;
  match goal with
  | |- counters_valid _ =>
      unfold counters_valid in *; cbn [pc callStack with_pc with_callStack
                                        with_context with_evaluationStack] in *;
      repeat match goal with H : _ /\ _ |- _ => destruct H end;
      split;
      [ first [ assumption | apply target_not_negative; assumption | lia ]
      | first [ assumption
              | apply frames_valid_Pop; assumption
              | constructor;
                [ cbn; first [assumption | lia]
                | first [assumption | apply frames_valid_tail; assumption] ] ] ]
  end.

Ltac wpt_step :=
  lazymatch goal with
  | |- wpt (bind _ _) _ _ => apply wpt_bind
  | |- wpt (ret _) _ _ => apply wpt_ret
  | |- wpt get _ _ => apply wpt_get
  | |- wpt (set_pc _) _ _ => apply wpt_set_pc
  | |- wpt (set_callStack _) _ _ => apply wpt_set_callStack
  | |- wpt (set_context _) _ _ => apply wpt_set_context
  | |- wpt evalPop _ _ => apply wpt_evalPop; [assumption | intros ? ? ?]
  | |- wpt evalPeek _ _ => apply wpt_evalPeek; intros ?
  | |- wpt (evalPopIndexAt _) _ _ => apply wpt_evalPopIndexAt; [assumption | intros ? ? ?]
  | |- wpt evalGetLength _ _ => apply wpt_evalGetLength; intros ?
  | |- wpt callPeek _ _ => apply wpt_callPeek; [assumption | intros ? ? ?]
  | |- wpt fetch _ _ => apply wpt_fetch; [assumption | intros ? ? ?]
  | |- wpt (fetchMany _) _ _ =>
      apply wpt_fetchMany;
      [ first [lia | match goal with |- 0 <= byte_val ?b + 1 =>
                       pose proof (byte_val_range b); lia end]
      | assumption | intros ? ? ? ? ? ]
  | |- wpt (evalPush _) _ _ => apply wpt_evalPush; [assumption | intros ? ? ?]
  | |- wpt (checkErrors _) _ _ =>
      apply wpt_checkErrors; [assumption | intros ? ? | intros ? ]
  | |- wpt (halt _) _ _ => apply wpt_halt; [assumption | intros ? ?]
  | |- wpt (pushOrHalt _) _ _ => apply wpt_pushOrHalt; [assumption | intros ? ? ?]
  | |- wpt (if ?c then _ else _) _ _ => destruct c
  | |- wpt (let (_, _) := ?p in _) _ _ => destruct p as [? ?]
  | |- wpt (match ?e with Some _ => _ | None => _ end) _ _ => destruct e
  end; cbn beta iota; cbn [negb].

Lemma wpt_loadArguments (n : nat) :
  forall (vars : gmap Z BigInt) (Q : gmap Z BigInt * error -> VM C -> Prop) (vm : VM C),
    counters_valid vm ->
    (forall r vm', counters_valid vm' -> Q r vm') ->
    wpt (loadArguments n vars) Q vm.
Proof.
  induction n as [| n IH]; intros vars Q vm Hv HQ; cbn [loadArguments].
  - apply wpt_ret, HQ, Hv.
  - apply wpt_bind, wpt_evalPop; [exact Hv |]. intros [v [msg |]] vm' Hv'; cbn beta iota.
    + apply wpt_ret, HQ, Hv'.
    + apply IH; assumption.
Qed.

Lemma wpt_doCall (returnAddressBytes : list byte) (argsToLoad : byte) (vm : VM C) :
  len returnAddressBytes = 2 ->
  counters_valid vm ->
  wpt (doCall returnAddressBytes argsToLoad) (fun _ vm' => counters_valid vm') vm.
Proof.
  intros Hl Hv. unfold doCall. wpt_step. wpt_step. wpt_step.
  - wpt_step. counters_leaf.
  - wpt_step. apply wpt_loadArguments; [exact Hv |]. intros [vars e] vm' Hv'.
    cbn beta iota. repeat wpt_step; counters_leaf.
Qed.

Lemma wpt_calldataLoop (rounds : nat) :
  forall (td : list byte) (i : Z) (vm : VM C),
    counters_valid vm ->
    wpt (calldataLoop rounds td i) (fun _ vm' => counters_valid vm') vm.
Proof.
  induction rounds as [| rounds IH]; intros td i vm Hv; cbn [calldataLoop].
  - wpt_step. exact Hv.
  - wpt_step; [| wpt_step; exact Hv].
    wpt_step; [wpt_step; assumption |].
    wpt_step. wpt_step. wpt_step; [wpt_step; assumption | apply IH; assumption].
Qed.

Ltac wpt_case :=
  repeat first
    [ apply wpt_doCall; [use_no_errors; assumption | assumption]
    | apply wpt_calldataLoop; assumption
    | wpt_step ].

(** A case of the [switch] that starts with counters that are not negative
    does not panic and leaves such counters, when the conversion of the
    two bytes of an index does not fail. *)
Lemma exec_op_safe (op : Op) (vm : VM C) :
  (forall bs, len bs = 2 -> snd (ByteArrayToUI16 bs) = None) ->
  counters_valid vm ->
  wpt (exec_op op) (fun _ vm' => counters_valid vm') vm.
Proof.
  intros Hconv Hv.
  destruct op; cbn [exec_op]; unfold arith, compareOp, pop2;
    try (wpt_case; counters_leaf; fail).
  (* ARRAT: the conversion error is looked at before the error of
     [fetchMany] *)
  wpt_step. wpt_step. wpt_step. wpt_step; [wpt_step; counters_leaf |].
  wpt_step. wpt_step.
  match goal with
  | |- context [ByteArrayToUI16 ?bs] =>
      pose proof (Hconv bs) as Hc;
      destruct (ByteArrayToUI16 bs) as [index [cmsg |]]
  end; cbn [snd] in Hc; cbn beta iota.
  - match goal with
    | |- wpt (match ?e with Some _ => _ | None => _ end) _ _ =>
        destruct e as [msg |]
    end.
    + wpt_step. counters_leaf.
    + match goal with
      | Hl : None = None -> len _ = 2 |- _ => specialize (Hc (Hl eq_refl))
      end.
      discriminate.
  - wpt_case; counters_leaf.
Qed.

Lemma iter_safe (fee : Z) (vm : VM C) :
  (forall bs, len bs = 2 -> snd (ByteArrayToUI16 bs) = None) ->
  counters_valid vm ->
  Forall (fun b => byte_val b <> len OpCodes) (code vm) ->
  wpt (iter fee) (fun _ vm' => counters_valid vm') vm.
Proof.
  intros Hconv [Hpc Hcs] Hcode. unfold wpt, iter, bind at 1.
  destruct (Z.leb_spec (len (code vm)) (pc vm)) as [Hout | Hin].
  { rewrite fetch_out_of_bounds by exact Hout. unfold bind. rewrite pushStr_eq.
    split; assumption. }
  destruct (nth_error (code vm) (Z.to_nat (pc vm))) as [b |] eqn:Hb;
    [| apply nth_error_None in Hb; unfold len in Hin; lia].
  rewrite (fetch_ok vm b Hpc Hb).
  assert (Hnext : counters_valid (with_pc vm (pc vm + 1))).
  { split; [cbn; lia | exact Hcs]. }
  destruct (Z.ltb_spec (len OpCodes) (byte_val b)) as [E | E].
  { unfold bind. rewrite pushStr_eq. exact Hnext. }
  destruct (nth_error OpCodes (Z.to_nat (byte_val b))) as [entry |] eqn:He.
  - destruct (fee <? gasPrice entry).
    { unfold bind. rewrite pushStr_eq. exact Hnext. }
    unfold bind, ret, dispatch. destruct (decode b) as [op |].
    + pose proof (exec_op_safe op _ Hconv Hnext) as Hx. unfold wpt in Hx.
      destruct (exec_op op (with_pc vm (pc vm + 1))); exact Hx.
    + exact Hnext.
  - apply nth_error_None in He. rewrite Forall_forall in Hcode.
    apply (Hcode b).
    + apply list_elem_of_In. eapply nth_error_In, Hb.
    + pose proof (byte_val_range b). unfold len in *. lia.
Qed.

Lemma loop_safe (fuel : nat) :
  (forall bs, len bs = 2 -> snd (ByteArrayToUI16 bs) = None) ->
  forall (fee : Z) (vm : VM C),
    counters_valid vm ->
    Forall (fun b => byte_val b <> len OpCodes) (code vm) ->
    loop fuel fee vm <> Some Panicked.
Proof.
  intros Hconv. induction fuel as [| fuel IH]; intros fee vm Hv Hcode.
  - discriminate.
  - cbn [loop]. pose proof (iter_safe fee vm Hconv Hv Hcode) as Hi. unfold wpt in Hi.
    destruct (iter fee vm) as [[[| r] fee1] vm1 |] eqn:Hr.
    + apply IH; [exact Hi |].
      destruct (iter_keeps false _ _ _ _ _ ltac:(discriminate) Hr) as [-> _].
      exact Hcode.
    + discriminate.
    + contradiction.
Qed.

(** X3.  No index of the interpreter is out of range.  When no byte of the
    contract has the value [len(OpCodes)] and the conversion of two bytes
    to an index does not fail, a run that starts with a [pc] and return
    addresses that are not negative, as the machine of [NewVM] does, never
    ends in a run-time panic of [vm.go]: [pc] and the return addresses stay
    non-negative, the bound of [fetch] and [fetchMany] keeps every index
    into the code in range, and every other error is reported by a
    message.  (The helpers of the other files are functions here; what
    happens inside them is not part of the statement.) *)
Theorem Exec_never_panics (fuel : nat) (vm : VM C) :
  (forall bs, len bs = 2 -> snd (ByteArrayToUI16 bs) = None) ->
  counters_valid vm ->
  Forall (fun b => byte_val b <> len OpCodes) (GetContract (context vm)) ->
  Exec fuel vm <> Some Panicked.
Proof.
  intros Hconv Hv Hcode.
  unfold Exec, Exec_init, bind at 1, get, bind at 1, set_code.
  destruct (len (GetContract (context vm)) >? 100000).
  - unfold bind. rewrite pushStr_eq. cbn beta iota. discriminate.
  - cbn beta iota. unfold ret.
    apply (loop_safe fuel Hconv (GetFee (context vm))
             (with_code vm (GetContract (context vm)))); [exact Hv | exact Hcode].
Qed.

(** ** Gas bounds the run *)

(** A pass that goes on has charged at least 1 when every price is at
    least 1. *)
Lemma iter_continue_charges (fee fee' : Z) (vm vm' : VM C) :
  Forall (fun entry => 1 <= gasPrice entry) OpCodes ->
  0 <= fee ->
  iter fee vm = Ok (Continue, fee') vm' ->
  0 <= fee' < fee.
Proof.
  intros Hall Hfee. unfold iter, bind at 1.
  destruct (fetch_cases vm) as [-> | [-> | (b & Hpc & Hb & ->)]].
  - discriminate.
  - unfold bind. rewrite pushStr_eq. discriminate.
  - destruct (len OpCodes <? byte_val b).
    { unfold bind. rewrite pushStr_eq. discriminate. }
    destruct (nth_error OpCodes (Z.to_nat (byte_val b))) as [entry |] eqn:He;
      [| discriminate].
    destruct (Z.ltb_spec fee (gasPrice entry)) as [Hlt | Hge].
    { unfold bind. rewrite pushStr_eq. discriminate. }
    unfold bind, ret.
    destruct (dispatch b (with_pc vm (pc vm + 1))) as [o vm1 |]; [| discriminate].
    intros Hi. injection Hi as _ <- _.
    assert (Hp : 1 <= gasPrice entry).
    { rewrite Forall_forall in Hall. apply Hall.
      apply list_elem_of_In. eapply nth_error_In, He. }
    pose proof (Z.mod_pos_bound (fee - gasPrice entry) (2 ^ 64) ltac:(lia)).
    pose proof (Z.mod_le (fee - gasPrice entry) (2 ^ 64) ltac:(lia) ltac:(lia)).
    lia.
Qed.

Lemma loop_stops (fuel : nat) :
  Forall (fun entry => 1 <= gasPrice entry) OpCodes ->
  forall (fee : Z) (vm : VM C),
    0 <= fee < Z.of_nat fuel ->
    exists r, loop fuel fee vm = Some r.
Proof.
  intros Hall. induction fuel as [| fuel IH]; intros fee vm Hfee; [lia |].
  cbn [loop].
  destruct (iter fee vm) as [[[| r] fee1] vm1 |] eqn:Hi.
  - apply IH.
    pose proof (iter_continue_charges fee fee1 vm vm1 Hall ltac:(lia) Hi). lia.
  - eauto.
  - eauto.
Qed.

(** X4.  The fee bounds the run.  When every opcode of the table costs at least
    1, the loop of [Exec] is left after at most [GetFee() + 1] passes: every
    pass that goes on has lowered the fee, and a pass that finds the fee
    below the price returns.  So [Exec] returns (or panics) on every
    contract, also on one that jumps in a circle. *)
Theorem gas_bounds_the_run (fuel : nat) (vm : VM C) :
  Forall (fun entry => 1 <= gasPrice entry) OpCodes ->
  0 <= GetFee (context vm) < Z.of_nat fuel ->
  exists r, Exec fuel vm = Some r.
Proof.
  intros Hall Hfee.
  unfold Exec, Exec_init, bind at 1, get, bind at 1, set_code.
  destruct (len (GetContract (context vm)) >? 100000).
  - unfold bind. rewrite pushStr_eq. cbn beta iota. eauto.
  - cbn beta iota. unfold ret. apply loop_stops; assumption.
Qed.

(** ** The first and the last steps of [Exec] *)

(** X5.  [Exec] does not run a contract of more than 100000 bytes: before it
    reads the fee or fetches anything it pushes "Instruction set to big"
    and returns false; the contract has become the code of the machine. *)
Theorem Exec_refuses_long_contract (fuel : nat) (vm : VM C) :
  100000 < len (GetContract (context vm)) ->
  Exec fuel vm
  = Some (Ok false
            (with_evaluationStack (with_code vm (GetContract (context vm)))
               (snd (Stack.Push (StrToBigInt "Instruction set to big")
                       (evaluationStack vm))))).
Proof.
  intros Hlen. unfold Exec, Exec_init, bind at 1, get, bind at 1, set_code.
  destruct (Z.gtb_spec (len (GetContract (context vm))) 100000) as [_ | Hle]; [| lia].
  unfold bind. rewrite pushStr_eq. reflexivity.
Qed.

Lemma iter_past_the_end (fee : Z) (vm : VM C) :
  len (code vm) <= pc vm ->
  iter fee vm
  = Ok (Return false, fee)
       (with_evaluationStack vm
          (snd (Stack.Push (StrToBigInt "instructionSet out of bounds")
                  (evaluationStack vm)))).
Proof.
  intros Hout. unfold iter, bind at 1. rewrite fetch_out_of_bounds by exact Hout.
  unfold bind. rewrite pushStr_eq. reflexivity.
Qed.

(** X6.  There is no implicit halt.  When [pc] is at or past the end of the
    contract as [Exec] starts a pass (an empty contract on a fresh machine,
    a contract that runs past its last instruction, or a second [Exec] on a
    machine whose first run ended at the last byte: [Exec] does not reset
    [pc]), [Exec] pushes "instructionSet out of bounds" and returns
    false, whatever the fee. *)
Theorem Exec_past_the_end_is_an_error (fuel : nat) (vm : VM C) :
  len (GetContract (context vm)) <= 100000 ->
  len (GetContract (context vm)) <= pc vm ->
  Exec (S fuel) vm
  = Some (Ok false
            (with_evaluationStack (with_code vm (GetContract (context vm)))
               (snd (Stack.Push (StrToBigInt "instructionSet out of bounds")
                       (evaluationStack vm))))).
Proof.
  intros Hlen Hpc. rewrite Exec_enters_loop by exact Hlen.
  cbn [loop]. rewrite iter_past_the_end by exact Hpc. reflexivity.
Qed.

(** ** [checkErrors] *)

(** X7.  [checkErrors] reports the first error only: the message of the first
    argument that is not nil is pushed and the result is false, whatever
    the arguments after it; when every argument is nil nothing is pushed
    and the result is true. *)
Theorem checkErrors_reports_first_error
  (k : nat) (msg : string) (rest : list error) (vm : VM C) :
  checkErrors (repeat None k ++ Some msg :: rest) vm
  = Ok false
       (with_evaluationStack vm
          (snd (Stack.Push (StrToBigInt msg) (evaluationStack vm))))
  /\ checkErrors (repeat None k) vm = Ok true vm.
Proof.
  induction k as [| k [IH1 IH2]]; cbn [repeat app checkErrors].
  - split; [| reflexivity]. unfold bind. rewrite pushStr_eq. reflexivity.
  - split; assumption.
Qed.

(** ** The cases of the [switch], one by one *)

Lemma evalPush_accepted (v : BigInt) (vm : VM C) :
  Stack.memoryUsage (evaluationStack vm) + getElementMemoryUsage (big.BitLen v)
  <= Stack.memoryMax (evaluationStack vm) ->
  evalPush v vm
  = Ok None
       (with_evaluationStack vm
          (Stack.mk (v :: Stack.Stack (evaluationStack vm))
             (Stack.memoryUsage (evaluationStack vm)
              + getElementMemoryUsage (big.BitLen v))
             (Stack.memoryMax (evaluationStack vm)))).
Proof.
  intros Hm. unfold evalPush, bind, get.
  rewrite Push_accepted; [reflexivity |].
  unfold Stack.hasEnoughMemory. apply Z.leb_le, Hm.
Qed.

Lemma pushOrHalt_accepted (v : BigInt) (vm : VM C) :
  Stack.memoryUsage (evaluationStack vm) + getElementMemoryUsage (big.BitLen v)
  <= Stack.memoryMax (evaluationStack vm) ->
  pushOrHalt v vm
  = Ok Continue
       (with_evaluationStack vm
          (Stack.mk (v :: Stack.Stack (evaluationStack vm))
             (Stack.memoryUsage (evaluationStack vm)
              + getElementMemoryUsage (big.BitLen v))
             (Stack.memoryMax (evaluationStack vm)))).
Proof.
  intros Hm. unfold pushOrHalt, bind. rewrite evalPush_accepted by exact Hm.
  reflexivity.
Qed.

(** X8.  [ROLL] with argument [n] on a stack of [L] elements.  With [n + 2 <= L]
    the element at depth [n + 1] below the top is taken out and pushed back
    on top, the others keeping their order; on a stack within its quota
    this push is always accepted, as the element has just been taken out.
    With [n + 1 = L] the case does nothing and the run goes on.  With
    [n >= L] it pushes "index out of bounds" and [Exec] returns false. *)
Theorem roll_moves_one_element (vm : VM C) (arg : byte) :
  0 <= pc vm ->
  nth_error (code vm) (Z.to_nat (pc vm)) = Some arg ->
  let s := evaluationStack vm in
  let n := byte_val arg in
  (forall e,
     nth_error (Stack.Stack s) (Z.to_nat (n + 1)) = Some e ->
     Stack.memoryUsage s <= Stack.memoryMax s ->
     exec_op ROLL vm
     = Ok Continue
          (with_evaluationStack (with_pc vm (pc vm + 1))
             (Stack.mk
                (e :: firstn (Z.to_nat (n + 1)) (Stack.Stack s)
                   ++ skipn (Z.to_nat (n + 2)) (Stack.Stack s))
                (Stack.memoryUsage s) (Stack.memoryMax s))))
  /\ (Stack.GetLength s = n + 1 ->
      exec_op ROLL vm = Ok Continue (with_pc vm (pc vm + 1)))
  /\ (Stack.GetLength s <= n ->
      exec_op ROLL vm
      = Ok (Return false)
           (with_evaluationStack (with_pc vm (pc vm + 1))
              (snd (Stack.Push (StrToBigInt "index out of bounds") s)))).
Proof.
  intros Hpc Harg. cbv zeta. pose proof (byte_val_range arg) as Hn.
  assert (Hstart : forall (b1 b2 : bool),
    (Stack.GetLength (evaluationStack vm) - (byte_val arg + 2) =? -1) = b1 ->
    (byte_val arg >=? Stack.GetLength (evaluationStack vm)) = b2 ->
    exec_op ROLL vm
    = (if b1 then Ok Continue (with_pc vm (pc vm + 1))
       else if b2 then halt "index out of bounds" (with_pc vm (pc vm + 1))
       else
         match evalPopIndexAt
                 (Stack.GetLength (evaluationStack vm) - (byte_val arg + 2))
                 (with_pc vm (pc vm + 1)) with
         | Ok (newTos, Some msg) vm' => halt msg vm'
         | Ok (newTos, None) vm' => pushOrHalt newTos vm'
         | Panicked => Panicked
         end)).
  { intros b1 b2 E1 E2. cbn [exec_op]. unfold bind at 1.
    rewrite (fetch_ok vm arg Hpc Harg).
    cbn [checkErrors]. unfold evalGetLength, bind, get, ret.
    cbn beta iota. cbn [negb evaluationStack with_pc].
    destruct b1; rewrite E1; cbn [negb]; [reflexivity |].
    cbn beta iota. cbn [evaluationStack with_pc]. rewrite E2.
    destruct b2; [reflexivity |].
    destruct (evalPopIndexAt _ _) as [[newTos [msg |]] vm' |]; reflexivity. }
  split; [| split].
  - intros e He Hm.
    assert (Hlen : byte_val arg + 1 < Stack.GetLength (evaluationStack vm)).
    { apply (nth_error_in_range _ _ e); [lia | exact He]. }
    rewrite (Hstart false false);
      [| apply Z.eqb_neq; lia | rewrite Z.geb_leb; apply Z.leb_gt; lia].
    unfold evalPopIndexAt, bind at 1, get, Stack.PopIndexAt.
    cbn [evaluationStack with_pc].
    replace (Z.to_nat (Stack.GetLength (evaluationStack vm) - 1
                       - (Stack.GetLength (evaluationStack vm) - (byte_val arg + 2))))
      with (Z.to_nat (byte_val arg + 1)) by lia.
    destruct (Z.leb_spec 0 (Stack.GetLength (evaluationStack vm) - (byte_val arg + 2)))
      as [_ | Hneg]; [| lia].
    destruct (Z.ltb_spec (Stack.GetLength (evaluationStack vm) - (byte_val arg + 2))
                (Stack.GetLength (evaluationStack vm))) as [_ | Hbig]; [| lia].
    cbn [andb]. rewrite He. unfold bind, set_evaluationStack, ret.
    rewrite pushOrHalt_accepted
      by (cbn [evaluationStack with_evaluationStack Stack.memoryUsage Stack.memoryMax];
          lia).
    cbn [evaluationStack with_evaluationStack Stack.memoryUsage Stack.memoryMax
         Stack.Stack].
    unfold with_evaluationStack. cbn [code pc callStack context with_pc].
    replace (S (Z.to_nat (byte_val arg + 1))) with (Z.to_nat (byte_val arg + 2)) by lia.
    do 2 f_equal. f_equal. lia.
  - intros Hl. rewrite (Hstart true false);
      [reflexivity | apply Z.eqb_eq; lia | rewrite Z.geb_leb; apply Z.leb_gt; lia].
  - intros Hl. rewrite (Hstart false true);
      [| apply Z.eqb_neq; lia | rewrite Z.geb_leb; apply Z.leb_le; lia].
    rewrite halt_eq. reflexivity.
Qed.

Lemma pop2_two (vm : VM C) (right_ left_ : BigInt) (rest : list BigInt) :
  Stack.Stack (evaluationStack vm) = right_ :: left_ :: rest ->
  pop2 vm
  = Ok (right_, left_, true)
       (with_evaluationStack vm
          (Stack.mk rest
             (Stack.memoryUsage (evaluationStack vm)
              - getElementMemoryUsage (big.BitLen right_)
              - getElementMemoryUsage (big.BitLen left_))
             (Stack.memoryMax (evaluationStack vm)))).
Proof.
  intros Hs. unfold pop2, bind.
  rewrite (evalPop_cons vm right_ (left_ :: rest) Hs). cbn beta iota.
  rewrite (evalPop_cons _ left_ rest) by reflexivity.
  reflexivity.
Qed.

(** X9.  [div] and [mod] with a divisor that is not zero: the quotient and the
    remainder pushed are those of Euclidean division, [left = q * right + r]
    with [0 <= r < |right|], whatever the signs of the operands; [left] is
    the operand pushed first. *)
Theorem div_and_mod_are_euclidean
  (vm : VM C) (right_ left_ : BigInt) (rest : list BigInt) :
  Stack.Stack (evaluationStack vm) = right_ :: left_ :: rest ->
  right_ <> 0 ->
  let popped :=
    with_evaluationStack vm
      (Stack.mk rest
         (Stack.memoryUsage (evaluationStack vm)
          - getElementMemoryUsage (big.BitLen right_)
          - getElementMemoryUsage (big.BitLen left_))
         (Stack.memoryMax (evaluationStack vm))) in
  exists q r : BigInt,
    exec_op DIV vm = pushOrHalt q popped
    /\ exec_op MOD vm = pushOrHalt r popped
    /\ left_ = q * right_ + r
    /\ 0 <= r < Z.abs right_.
Proof.
  intros Hs Hnz popped.
  assert (Hcmp : (big.Cmp right_ 0 =? 0) = false).
  { unfold big.Cmp. destruct (Z.compare_spec right_ 0); [lia | reflexivity | reflexivity]. }
  exists (big.Div left_ right_), (big.Mod left_ right_).
  split; [| split; [| split]].
  - cbn [exec_op]. unfold bind. rewrite (pop2_two vm right_ left_ rest Hs).
    cbn [negb]. rewrite Hcmp. reflexivity.
  - cbn [exec_op]. unfold bind. rewrite (pop2_two vm right_ left_ rest Hs).
    cbn [negb]. rewrite Hcmp. reflexivity.
  - unfold big.Div, big.Mod.
    pose proof (Z.div_mod left_ (Z.abs right_) ltac:(lia)) as Hdm.
    destruct (Z.lt_trichotomy right_ 0) as [Hneg | [Hz | Hpos]]; [| lia |].
    + rewrite Z.sgn_neg by lia. rewrite Z.abs_neq in * by lia. lia.
    + rewrite Z.sgn_pos by lia. rewrite Z.abs_eq in * by lia. lia.
  - unfold big.Mod. apply Z.mod_pos_bound. lia.
Qed.

Lemma Cmp_tests (x y : BigInt) :
  (big.Cmp x y =? 0) = (x =? y)
  /\ (big.Cmp x y =? -1) = (x <? y)
  /\ (big.Cmp x y =? 1) = (x >? y).
Proof.
  rewrite (Z.eqb_compare x y). unfold big.Cmp, Z.ltb, Z.gtb.
  destruct (x ?= y); auto.
Qed.

Lemma evalPush_eq (v : BigInt) (vm : VM C) :
  evalPush v vm
  = Ok (fst (Stack.Push v (evaluationStack vm)))
       (with_evaluationStack vm (snd (Stack.Push v (evaluationStack vm)))).
Proof.
  unfold evalPush, bind, get.
  destruct (Stack.Push v (evaluationStack vm)) as [e s]. reflexivity.
Qed.

(** X10.  The comparison opcodes pop the right operand, then the left one, and
    push 1 when the relation holds between the left and the right operand
    and 0 otherwise; the run goes on, the error of this push is not looked
    at.  On a stack within its quota the push cannot be refused, as the two
    pops have freed more than it takes: the truth value is on top. *)
Theorem comparison_pushes_truth_value
  (op : Op) (vm : VM C) (right_ left_ : BigInt) (rest : list BigInt) (holds : bool) :
  comparison op left_ right_ = Some holds ->
  Stack.Stack (evaluationStack vm) = right_ :: left_ :: rest ->
  let popped :=
    Stack.mk rest
      (Stack.memoryUsage (evaluationStack vm)
       - getElementMemoryUsage (big.BitLen right_)
       - getElementMemoryUsage (big.BitLen left_))
      (Stack.memoryMax (evaluationStack vm)) in
  let truth : BigInt := if holds then 1 else 0 in
  exec_op op vm
  = Ok Continue (with_evaluationStack vm (snd (Stack.Push truth popped)))
  /\ (Stack.memoryUsage (evaluationStack vm) <= Stack.memoryMax (evaluationStack vm) ->
      Stack.Push truth popped
      = (None,
         Stack.mk (truth :: rest) (Stack.memoryUsage popped + 8)
           (Stack.memoryMax popped))).
Proof.
  intros Hop Hs popped truth.
  destruct (Cmp_tests left_ right_) as (Heq & Hlt & Hgt).
  assert (Hsize : getElementMemoryUsage (big.BitLen truth) = 8)
    by (unfold truth; destruct holds; reflexivity).
  split.
  - assert (Hpush : forall v : BigInt,
      (let* _ := evalPush v in ret Continue) (with_evaluationStack vm popped)
      = Ok Continue (with_evaluationStack vm (snd (Stack.Push v popped)))).
    { intros v. unfold bind. rewrite evalPush_eq. reflexivity. }
    unfold truth.
    destruct op; try discriminate; cbn [comparison] in Hop; injection Hop as <-;
      cbn [exec_op]; unfold compareOp, bind at 1;
      rewrite (pop2_two vm right_ left_ rest Hs); cbn [negb];
      rewrite ?Heq, ?Hlt, ?Hgt.
    + destruct (left_ =? right_); apply Hpush.
    + destruct (left_ =? right_); apply Hpush.
    + destruct (left_ <? right_); apply Hpush.
    + destruct (left_ >? right_); apply Hpush.
    + replace ((left_ <? right_) || (left_ =? right_)) with (left_ <=? right_)
        by (destruct (Z.leb_spec left_ right_), (Z.ltb_spec left_ right_),
              (Z.eqb_spec left_ right_); cbn; lia).
      destruct (left_ <=? right_); apply Hpush.
    + replace ((left_ >? right_) || (left_ =? right_)) with (left_ >=? right_)
        by (rewrite Z.geb_leb, Z.gtb_ltb;
            destruct (Z.leb_spec right_ left_), (Z.ltb_spec right_ left_),
              (Z.eqb_spec left_ right_); cbn; lia).
      destruct (left_ >=? right_); apply Hpush.
  - intros Hm.
    pose proof (getElementMemoryUsage_min (big.BitLen right_)) as Hr.
    pose proof (getElementMemoryUsage_min (big.BitLen left_)) as Hl.
    rewrite Push_accepted.
    + rewrite Hsize. reflexivity.
    + unfold Stack.hasEnoughMemory. rewrite Hsize. apply Z.leb_le.
      unfold popped. cbn [Stack.memoryUsage Stack.memoryMax]. lia.
Qed.

Lemma BitLen_opp (x : BigInt) : big.BitLen (- x) = big.BitLen x.
Proof.
  unfold big.BitLen. rewrite Z.abs_opp.
  destruct (Z.eqb_spec x 0), (Z.eqb_spec (- x) 0); try lia; reflexivity.
Qed.

(** X11.  [neg] replaces the top by its negation, which takes the room the top
    took; two [neg] in a row give back the machine as it was. *)
Theorem neg_twice_restores_the_stack (vm : VM C) (tos : BigInt) (rest : list BigInt) :
  Stack.Stack (evaluationStack vm) = tos :: rest ->
  Stack.memoryUsage (evaluationStack vm) <= Stack.memoryMax (evaluationStack vm) ->
  exists vm1 : VM C,
    exec_op NEG vm = Ok Continue vm1
    /\ Stack.Stack (evaluationStack vm1) = - tos :: rest
    /\ exec_op NEG vm1 = Ok Continue vm.
Proof.
  intros Hs Hm.
  assert (Hneg : forall (vm0 : VM C) (x : BigInt),
    Stack.Stack (evaluationStack vm0) = x :: rest ->
    Stack.memoryUsage (evaluationStack vm0) <= Stack.memoryMax (evaluationStack vm0) ->
    exec_op NEG vm0
    = Ok Continue
         (with_evaluationStack vm0
            (Stack.mk (- x :: rest)
               (Stack.memoryUsage (evaluationStack vm0))
               (Stack.memoryMax (evaluationStack vm0))))).
  { intros vm0 x Hs0 Hm0. cbn [exec_op]. unfold bind at 1.
    rewrite (evalPop_cons vm0 x rest Hs0). cbn beta iota. unfold bind, big.Neg.
    rewrite evalPush_accepted
      by (cbn [evaluationStack with_evaluationStack Stack.memoryUsage Stack.memoryMax];
          rewrite BitLen_opp; lia).
    cbn [evaluationStack with_evaluationStack Stack.memoryUsage Stack.memoryMax
         Stack.Stack].
    rewrite BitLen_opp. unfold ret, with_evaluationStack.
    cbn [code pc callStack context]. do 3 f_equal. lia. }
  eexists. split; [apply (Hneg vm tos Hs Hm) | split; [reflexivity |]].
  rewrite (Hneg _ (- tos)) by (cbn; first [reflexivity | exact Hm]).
  destruct vm as [c p [s u m] cs ctx]. cbn in Hs. subst s.
  unfold with_evaluationStack. cbn. rewrite Z.opp_involutive. reflexivity.
Qed.

(** [JMP] once its operand is read. *)
Lemma exec_jmp (vm : VM C) (hi lo : byte) :
  0 <= pc vm ->
  nth_error (code vm) (Z.to_nat (pc vm)) = Some hi ->
  nth_error (code vm) (Z.to_nat (pc vm + 1)) = Some lo ->
  pc vm + 2 < len (code vm) ->
  exec_op JMP vm = Ok Continue (with_pc vm (byte_val hi * 256 + byte_val lo)).
Proof.
  intros Hpc Hhi Hlo Hlen. cbn [exec_op]. unfold bind at 1.
  rewrite fetchMany_ok by lia.
  rewrite (slice_two (code vm) (pc vm) hi lo Hpc Hhi Hlo).
  cbn [checkErrors]. unfold bind, ret. cbn [negb]. rewrite target_of_bytes.
  reflexivity.
Qed.

(** X12.  [jmp] does not check its target.  The pass sets [pc] to the two bytes
    of the operand read as a big-endian number, whatever it is: no bound is
    tested, unlike in [call].  A target at or past the end of the code is
    found out by the next pass only, where [fetch] fails: [Exec] pushes
    "instructionSet out of bounds" and returns false. *)
Theorem jmp_target_is_not_checked
  (fee : Z) (vm : VM C) (b hi lo : byte) (entry : OpCode) :
  0 <= pc vm ->
  nth_error (code vm) (Z.to_nat (pc vm)) = Some b ->
  decode b = Some JMP ->
  nth_error OpCodes (Z.to_nat (byte_val b)) = Some entry ->
  gasPrice entry <= fee ->
  nth_error (code vm) (Z.to_nat (pc vm + 1)) = Some hi ->
  nth_error (code vm) (Z.to_nat (pc vm + 2)) = Some lo ->
  pc vm + 3 < len (code vm) ->
  let target := byte_val hi * 256 + byte_val lo in
  iter fee vm = Ok (Continue, (fee - gasPrice entry) mod 2 ^ 64) (with_pc vm target)
  /\ (len (code vm) <= target ->
      forall fuel,
        loop (S (S fuel)) fee vm
        = Some (Ok false
                  (with_evaluationStack (with_pc vm target)
                     (snd (Stack.Push (StrToBigInt "instructionSet out of bounds")
                             (evaluationStack vm)))))).
Proof.
  intros Hpc Hb Hd He Hfee Hhi Hlo Hlen target.
  assert (Hiter :
    iter fee vm = Ok (Continue, (fee - gasPrice entry) mod 2 ^ 64) (with_pc vm target)).
  { rewrite (iter_paid fee vm b entry Hpc Hb He Hfee).
    unfold dispatch. rewrite Hd.
    rewrite (exec_jmp (with_pc vm (pc vm + 1)) hi lo);
      cbn [pc code with_pc]; try lia; try assumption.
    - reflexivity.
    - replace (pc vm + 1 + 1) with (pc vm + 2) by lia. exact Hlo. }
  split; [exact Hiter |].
  intros Hout fuel. cbn [loop]. rewrite Hiter.
  rewrite iter_past_the_end by exact Hout. reflexivity.
Qed.

(** X13.  [callif] looks at its target only when it calls.  With a condition
    whose [Int64] is not 1 the pass pops the condition, steps over the
    three operand bytes and goes on: no frame is pushed and the target is
    not tested, so a target of 0 or past the code is no error here.  With a
    condition whose [Int64] is 1 the case does what [call] does on the
    stack without the condition. *)
Theorem callif_checks_target_only_when_taken
  (vm : VM C) (hi lo n : byte) (v : BigInt) (rest : list BigInt) :
  0 <= pc vm ->
  nth_error (code vm) (Z.to_nat (pc vm)) = Some hi ->
  nth_error (code vm) (Z.to_nat (pc vm + 1)) = Some lo ->
  nth_error (code vm) (Z.to_nat (pc vm + 2)) = Some n ->
  Stack.Stack (evaluationStack vm) = v :: rest ->
  let popped :=
    Stack.mk rest
      (Stack.memoryUsage (evaluationStack vm) - getElementMemoryUsage (big.BitLen v))
      (Stack.memoryMax (evaluationStack vm)) in
  (big.Int64 v <> 1 ->
   exec_op CALLIF vm
   = Ok Continue (with_evaluationStack (with_pc vm (pc vm + 3)) popped))
  /\ (big.Int64 v = 1 ->
      exec_op CALLIF vm = exec_op CALL (with_evaluationStack vm popped)).
Proof.
  intros Hpc Hhi Hlo Hn Hs popped.
  assert (Hlen : pc vm + 2 < len (code vm))
    by (apply (nth_error_in_range _ _ n); [lia | exact Hn]).
  assert (Hstart :
    exec_op CALLIF vm
    = (if big.Int64 v =? 1 then doCall [hi; lo] n else ret Continue)
        (with_evaluationStack (with_pc vm (pc vm + 3)) popped)).
  { cbn [exec_op]. unfold bind at 1. rewrite fetchMany_ok by lia. unfold bind at 1.
    rewrite (fetch_ok _ n) by (cbn [pc code with_pc]; first [lia | exact Hn]).
    unfold bind at 1.
    rewrite (evalPop_cons _ v rest) by exact Hs.
    cbn [checkErrors]. unfold bind at 1, ret at 1. cbn [negb].
    rewrite (slice_two (code vm) (pc vm) hi lo Hpc Hhi Hlo).
    cbn [pc code with_pc evaluationStack with_evaluationStack].
    unfold with_evaluationStack, with_pc.
    cbn [pc code callStack context evaluationStack].
    replace (pc vm + 2 + 1) with (pc vm + 3) by lia. reflexivity. }
  split.
  - intros Hv. rewrite Hstart.
    destruct (Z.eqb_spec (big.Int64 v) 1) as [Heq | _]; [contradiction | reflexivity].
  - intros Hv. rewrite Hstart, Hv. cbn [Z.eqb Pos.eqb].
    rewrite (exec_call_operands (with_evaluationStack vm popped) hi lo n);
      try assumption.
    reflexivity.
Qed.

(** How [fetchMany] can end. *)
Lemma fetchMany_cases (n : Z) (vm : VM C) :
  0 <= n ->
  fetchMany n vm = Panicked
  \/ fetchMany n vm = Ok ([], Some "instructionSet out of bounds") vm
  \/ (0 <= pc vm
      /\ n < len (code vm) - pc vm
      /\ fetchMany n vm
         = Ok (slice (code vm) (pc vm) (pc vm + n), None) (with_pc vm (pc vm + n))).
Proof.
  intros Hn.
  destruct (Z.leb_spec (len (code vm) - pc vm) n) as [Hout | Hin].
  - right. left. apply fetchMany_out_of_bounds, Hout.
  - destruct (Z.ltb_spec (pc vm) 0) as [Hneg | Hpc].
    + left. unfold fetchMany, bind, get.
      destruct (Z.gtb_spec (len (code vm) - pc vm) n) as [_ | Hle]; [| lia].
      destruct (Z.ltb_spec (pc vm) 0) as [_ | Hge]; [reflexivity | lia].
    + right. right. auto using fetchMany_ok.
Qed.

(** The loop of [CALL] touches the evaluation stack only. *)
Lemma loadArguments_frame (n : nat) :
  forall (vars : gmap Z BigInt) (vm vm' : VM C) (r : gmap Z BigInt * error),
    loadArguments n vars vm = Ok r vm' ->
    code vm' = code vm /\ pc vm' = pc vm
    /\ callStack vm' = callStack vm /\ context vm' = context vm.
Proof.
  induction n as [| n IH]; intros vars vm vm' r Hl; cbn [loadArguments] in Hl.
  - injection Hl as _ <-. auto.
  - unfold bind at 1, evalPop, bind at 1, get in Hl.
    destruct (Stack.Pop (evaluationStack vm)) as [[v [msg |]] s].
    + injection Hl as _ <-. auto.
    + apply IH in Hl. exact Hl.
Qed.

(** When the body of [CALL] lets the run go on, it has pushed one frame,
    whose return address is the [pc] it found, and moved [pc] to the
    target. *)
Lemma doCall_continue (bs : list byte) (n : byte) (vm vm1 : VM C) :
  doCall bs n vm = Ok Continue vm1 ->
  exists vars : gmap Z BigInt,
    vm1 = mkVM (code vm) (big.Int64 (big.SetBytes bs)) (evaluationStack vm1)
            (mkFrame (pc vm) vars :: callStack vm) (context vm).
Proof.
  unfold doCall, bind at 1, get.
  destruct ((big.Int64 (big.SetBytes bs) =? 0)
            || (big.Int64 (big.SetBytes bs) >? len (code vm))).
  { rewrite halt_eq. discriminate. }
  unfold bind at 1.
  destruct (loadArguments (Z.to_nat (byte_val n)) ∅ vm) as [[vars [msg |]] vm' |] eqn:Hl.
  - rewrite halt_eq. discriminate.
  - destruct (loadArguments_frame _ _ _ _ _ Hl) as (Hc & Hp & Hcs & Hctx).
    intros Hd. injection Hd as <-. exists vars.
    unfold with_pc, with_callStack, CallStack.Push.
    cbn [code pc evaluationStack callStack context].
    rewrite Hc, Hcs, Hctx. reflexivity.
  - discriminate.
Qed.

(** X14.  [call] and [ret] fit together.  When a [call] lets the run go on, a
    [ret] executed next (the callee returning at once, or after a body
    that left the call stack as it found it) takes the frame off again and
    sets [pc] to the byte after the three operand bytes of the [call]: the
    call stack is the one before the [call], whatever frames it held. *)
Theorem call_then_ret_returns (vm vm1 : VM C) :
  exec_op CALL vm = Ok Continue vm1 ->
  exec_op RET vm1
  = Ok Continue
       (mkVM (code vm) (pc vm + 3) (evaluationStack vm1) (callStack vm) (context vm)).
Proof.
  cbn [exec_op]. unfold bind at 1.
  destruct (fetchMany_cases 2 vm ltac:(lia)) as [-> | [-> | (Hpc & Hlen & ->)]].
  - discriminate.
  - unfold bind at 1. destruct (fetch vm) as [[b e] vm2 |]; [| discriminate].
    cbn [checkErrors]. unfold bind. rewrite pushStr_eq. discriminate.
  - unfold bind at 1.
    destruct (fetch_cases (with_pc vm (pc vm + 2))) as [-> | [-> | (b & _ & _ & ->)]].
    + discriminate.
    + cbn [checkErrors]. unfold bind. rewrite pushStr_eq. discriminate.
    + cbn [checkErrors]. unfold bind at 1, ret at 1. cbn [negb].
      intros Hd. apply doCall_continue in Hd. destruct Hd as [vars Hd].
      cbn [pc code callStack context with_pc] in Hd.
      rewrite Hd at 1. unfold callPeek, bind, get, ret.
      cbn [callStack CallStack.Peek checkErrors negb CallStack.Pop snd returnAddress].
      unfold set_callStack, set_pc, with_pc, with_callStack.
      cbn [code pc evaluationStack callStack context].
      replace (pc vm + 2 + 1) with (pc vm + 3) by lia.
      rewrite Hd at 1. reflexivity.
Qed.

(** X15.  [store] and [load] in one frame.  [store a] pops the top and writes it
    to index [a] of the variables of the top frame, the frames below and
    the return address untouched.  A [load a'] in that frame then pushes
    the value stored when [a' = a]; otherwise what the frame held at [a']
    before, which is 0 for an index that was never written: reading a
    variable that does not exist is no error. *)
Theorem store_then_load_reads_back
  (vm : VM C) (a : byte) (v : BigInt) (rest : list BigInt)
  (f : Frame) (cs : CallStack.t) :
  0 <= pc vm ->
  nth_error (code vm) (Z.to_nat (pc vm)) = Some a ->
  Stack.Stack (evaluationStack vm) = v :: rest ->
  callStack vm = f :: cs ->
  let stored := mkFrame (returnAddress f) (<[byte_val a := v]> (variables f)) in
  exec_op STORE vm
  = Ok Continue
       (mkVM (code vm) (pc vm + 1)
          (Stack.mk rest
             (Stack.memoryUsage (evaluationStack vm)
              - getElementMemoryUsage (big.BitLen v))
             (Stack.memoryMax (evaluationStack vm)))
          (stored :: cs) (context vm))
  /\ forall (vm2 : VM C) (a' : byte),
       callStack vm2 = stored :: cs ->
       0 <= pc vm2 ->
       nth_error (code vm2) (Z.to_nat (pc vm2)) = Some a' ->
       exec_op LOAD vm2
       = pushOrHalt
           (if byte_eqb a' a then v else default 0 (variables f !! byte_val a'))
           (with_pc vm2 (pc vm2 + 1)).
Proof.
  intros Hpc Ha Hs Hcs stored. split.
  - cbn [exec_op]. unfold bind at 1. rewrite (fetch_ok vm a Hpc Ha).
    unfold bind at 1. rewrite (evalPop_cons _ v rest) by exact Hs.
    cbn [checkErrors]. unfold bind at 1, ret at 1. cbn [negb].
    unfold callPeek, bind, get, ret, CallStack.Peek, set_callStack.
    repeat (progress (cbn beta iota;
                      cbn [callStack evaluationStack with_pc with_evaluationStack];
                      rewrite ?Hcs)).
    reflexivity.
  - intros vm2 a' Hcs2 Hpc2 Ha'.
    cbn [exec_op]. unfold bind at 1. rewrite (fetch_ok vm2 a' Hpc2 Ha').
    unfold callPeek, bind at 1 2, get, ret at 1, CallStack.Peek.
    cbn [callStack with_pc]. rewrite Hcs2.
    cbn [checkErrors]. unfold bind at 1, ret at 1. cbn [negb variables stored].
    unfold byte_eqb.
    destruct (Z.eqb_spec (byte_val a') (byte_val a)) as [-> | Hne].
    + rewrite lookup_insert_eq. reflexivity.
    + rewrite lookup_insert_ne by congruence. reflexivity.
Qed.

(** X16.  Local variables exist inside a call only.  With no frame on the call
    stack, as at the top level of a contract, [load] and [store] push the
    error of the call stack and [Exec] returns false; [store] has popped
    its operand before it finds this out. *)
Theorem load_and_store_need_a_frame (vm : VM C) (a : byte) :
  0 <= pc vm ->
  nth_error (code vm) (Z.to_nat (pc vm)) = Some a ->
  callStack vm = [] ->
  exec_op LOAD vm
  = Ok (Return false)
       (with_evaluationStack (with_pc vm (pc vm + 1))
          (snd (Stack.Push (StrToBigInt "pop on empty stack") (evaluationStack vm))))
  /\ forall (v : BigInt) (rest : list BigInt),
       Stack.Stack (evaluationStack vm) = v :: rest ->
       exec_op STORE vm
       = Ok (Return false)
            (with_evaluationStack (with_pc vm (pc vm + 1))
               (snd (Stack.Push (StrToBigInt "pop on empty stack")
                       (Stack.mk rest
                          (Stack.memoryUsage (evaluationStack vm)
                           - getElementMemoryUsage (big.BitLen v))
                          (Stack.memoryMax (evaluationStack vm)))))).
Proof.
  intros Hpc Ha Hcs. split.
  - cbn [exec_op]. unfold bind at 1. rewrite (fetch_ok vm a Hpc Ha).
    unfold callPeek, bind at 1 2, get, ret at 1, CallStack.Peek.
    cbn [callStack with_pc]. rewrite Hcs.
    cbn [checkErrors]. unfold bind. rewrite pushStr_eq. reflexivity.
  - intros v rest Hs.
    cbn [exec_op]. unfold bind at 1. rewrite (fetch_ok vm a Hpc Ha).
    unfold bind at 1. rewrite (evalPop_cons _ v rest) by exact Hs.
    cbn [checkErrors]. unfold bind at 1, ret at 1. cbn [negb].
    unfold callPeek, bind at 1 2, get, ret at 1, CallStack.Peek.
    cbn [callStack with_pc with_evaluationStack]. rewrite Hcs.
    rewrite halt_eq. reflexivity.
Qed.

(** ** The host's values on the stack *)

Lemma byte_val_of_Z (z : Z) : byte_val (byte_of_Z z) = z mod 256.
Proof.
  unfold byte_of_Z, byte_val.
  pose proof (Z.mod_pos_bound z 256 ltac:(lia)) as Hr.
  destruct (Byte.of_N (Z.to_N (z mod 256))) as [b |] eqn:E.
  - apply Byte.to_of_N in E. rewrite E. lia.
  - apply Byte.of_N_None_iff in E. lia.
Qed.

Lemma SetBytes_PutUint64_le (v : Z) :
  big.SetBytes (PutUint64_le v) = reversed64 v.
Proof.
  unfold PutUint64_le, big.SetBytes. cbn [seq map fold_left].
  rewrite !byte_val_of_Z. rewrite !Z.shiftr_div_pow2 by lia.
  unfold reversed64.
  change (8 * Z.of_nat 0) with 0. change (8 * Z.of_nat 1) with 8.
  change (8 * Z.of_nat 2) with 16. change (8 * Z.of_nat 3) with 24.
  change (8 * Z.of_nat 4) with 32. change (8 * Z.of_nat 5) with 40.
  change (8 * Z.of_nat 6) with 48. change (8 * Z.of_nat 7) with 56.
  change (2 ^ 0) with 1. rewrite Z.div_1_r.
  match goal with |- ?a = ?b => change (@eq Z a b) end. ring.
Qed.

(** X17.  [balance] and [callval] push the 64-bit value byte-reversed: the value
    is laid out least significant byte first ([LittleEndian.PutUint64]) and
    the eight bytes are then read most significant byte first
    ([SetBytes]).  So a balance below 256 arrives on the stack multiplied
    by [2 ^ 56]. *)
Theorem balance_is_pushed_byte_reversed (vm : VM C) :
  exec_op BALANCE vm = pushOrHalt (reversed64 (GetBalance (context vm))) vm
  /\ exec_op CALLVAL vm = pushOrHalt (reversed64 (GetAmount (context vm))) vm
  /\ (forall v : Z, 0 <= v < 256 -> reversed64 v = v * 2 ^ 56).
Proof.
  split; [| split].
  - cbn [exec_op]. unfold bind, get. rewrite SetBytes_PutUint64_le. reflexivity.
  - cbn [exec_op]. unfold bind, get. rewrite SetBytes_PutUint64_le. reflexivity.
  - intros v Hv. unfold reversed64.
    assert (Hsmall : forall k, 8 <= k -> v / 2 ^ k = 0).
    { intros k Hk. apply Z.div_small. split; [lia |].
      apply Z.lt_le_trans with (2 ^ 8); [change (2 ^ 8) with 256; lia |].
      apply Z.pow_le_mono_r; lia. }
    rewrite (Z.mod_small v 256) by lia.
    rewrite !Hsmall by lia. change (0 mod 256) with 0.
    match goal with |- ?a = ?b => change (@eq Z a b) end. ring.
Qed.

(** ** The parameters of a transaction *)

Lemma nth_middle_Z {A} (pre : list A) (b : A) (rest : list A) (d : A) :
  nth (Z.to_nat (len pre)) (pre ++ b :: rest) d = b.
Proof. unfold len. rewrite Nat2Z.id. apply nth_middle. Qed.

Lemma slice_middle {A} (pre mid rest : list A) :
  slice (pre ++ mid ++ rest) (len pre) (len pre + len mid) = mid.
Proof.
  unfold slice, len.
  replace (Z.to_nat (Z.of_nat (length pre) + Z.of_nat (length mid) - Z.of_nat (length pre)))
    with (length mid) by lia.
  rewrite Nat2Z.id.
  rewrite skipn_app, skipn_all, Nat.sub_diag. cbn [app]. rewrite skipn_O.
  rewrite firstn_app, firstn_all, Nat.sub_diag. cbn [firstn]. apply app_nil_r.
Qed.

Lemma memory_of_nonneg (vs : list BigInt) : 0 <= memory_of vs.
Proof.
  unfold memory_of. induction vs as [| v vs IH]; cbn [map fold_right]; [lia |].
  pose proof (getElementMemoryUsage_min (big.BitLen v)). lia.
Qed.

Lemma len_app {A} (l1 l2 : list A) : len (l1 ++ l2) = len l1 + len l2.
Proof. unfold len. rewrite length_app. lia. Qed.

Lemma len_cons {A} (x : A) (l : list A) : len (x :: l) = 1 + len l.
Proof. unfold len. cbn [length]. lia. Qed.

(** The loop of [CALLDATA] over well-formed parameters: each round pushes
    one of them and moves to the next. *)
Lemma calldataLoop_parameters (ps : list (list byte)) :
  forall (td pre tail : list byte) (rounds : nat) (vm : VM C),
    td = pre ++ parameters ps ++ tail ->
    Forall (fun p => 1 <= len p <= 256) ps ->
    Stack.memoryUsage (evaluationStack vm) + memory_of (map big.SetBytes ps)
    <= Stack.memoryMax (evaluationStack vm) ->
    calldataLoop (length ps + rounds) td (len pre) vm
    = calldataLoop rounds td (len pre + len (parameters ps))
        (with_evaluationStack vm
           (pushed_all (map big.SetBytes ps) (evaluationStack vm))).
Proof.
  induction ps as [| p ps IH]; intros td pre tail rounds vm Htd Hps Hm.
  - cbn [length Nat.add parameters flat_map map]. change (len (@nil byte)) with 0.
    rewrite Z.add_0_r. f_equal.
    destruct vm as [c pc0 [st u m] cs ctx].
    unfold with_evaluationStack, pushed_all, memory_of.
    cbn. rewrite Z.add_0_r. reflexivity.
  - inversion Hps as [| p' ps' Hp Hps']; subst p' ps'.
    cbn [map] in Hm. unfold memory_of in Hm. cbn [map fold_right] in Hm.
    fold (memory_of (map big.SetBytes ps)) in Hm.
    pose proof (memory_of_nonneg (map big.SetBytes ps)) as Hnn.
    assert (Htd1 :
      td = pre ++ byte_of_Z (len p - 1) :: (p ++ parameters ps ++ tail)).
    { rewrite Htd. unfold parameters. cbn [flat_map]. unfold parameter at 1.
      rewrite <- app_assoc. reflexivity. }
    assert (Htd2 :
      td = (pre ++ [byte_of_Z (len p - 1)]) ++ p ++ (parameters ps ++ tail)).
    { rewrite Htd1, <- app_assoc. reflexivity. }
    assert (Htd3 : td = (pre ++ parameter p) ++ parameters ps ++ tail).
    { rewrite Htd1. unfold parameter. rewrite <- app_assoc. reflexivity. }
    assert (Hlen : len td = len pre + 1 + len p + len (parameters ps ++ tail)).
    { rewrite Htd1, len_app, len_cons, len_app. lia. }
    assert (Hlen0 : 0 <= len (parameters ps ++ tail)) by (unfold len; lia).
    assert (Hnth : byte_val (nth (Z.to_nat (len pre)) td x00) = len p - 1).
    { rewrite Htd1, nth_middle_Z, byte_val_of_Z. apply Z.mod_small. lia. }
    assert (Hslice : slice td (len pre + 1) (len pre + (len p - 1) + 2) = p).
    { replace (len pre + 1) with (len (pre ++ [byte_of_Z (len p - 1)]))
        by (rewrite len_app; reflexivity).
      replace (len pre + (len p - 1) + 2)
        with (len (pre ++ [byte_of_Z (len p - 1)]) + len p)
        by (rewrite len_app; change (len [byte_of_Z (len p - 1)]) with 1; lia).
      rewrite Htd2. apply slice_middle. }
    cbn [length Nat.add calldataLoop]. cbv zeta. rewrite Hnth, Hslice.
    destruct (Z.ltb_spec (len pre) (len td)) as [_ | Hge]; [| lia].
    destruct (Z.leb_spec (len td - len pre - 1) (len p - 1)) as [Hle | _]; [lia |].
    unfold bind at 1. rewrite evalPush_accepted by lia.
    replace (len pre + (len p - 1 + 1) + 1) with (len (pre ++ parameter p))
      by (rewrite len_app; unfold parameter; rewrite len_cons; lia).
    rewrite (IH td (pre ++ parameter p) tail rounds _ Htd3 Hps')
      by (cbn [evaluationStack with_evaluationStack Stack.memoryUsage Stack.memoryMax];
          lia).
    f_equal.
    + unfold parameters. cbn [flat_map]. rewrite !len_app. lia.
    + unfold pushed_all, with_evaluationStack, memory_of.
      cbn [code pc callStack context evaluationStack Stack.Stack Stack.memoryUsage
           Stack.memoryMax map fold_right rev].
      rewrite <- app_assoc. cbn [app]. do 2 f_equal. lia.
Qed.

Lemma parameters_length (ps : list (list byte)) :
  (length ps <= length (parameters ps))%nat.
Proof.
  induction ps as [| p ps IH]; cbn [parameters flat_map length]; [lia |].
  rewrite length_app. change (flat_map parameter ps) with (parameters ps).
  unfold parameter. cbn [length]. lia.
Qed.

(** X18.  [calldata] reads back what was laid out.  When the transaction data
    are parameters of 1 to 256 bytes, each behind a byte that holds its
    length less one, the case pushes the number of every parameter, the
    first one first, so that the last parameter ends on top; nothing is
    left over and the run goes on.  (The quota is to admit the pushes.) *)
Theorem calldata_pushes_the_parameters (vm : VM C) (ps : list (list byte)) :
  GetTransactionData (context vm) = parameters ps ->
  Forall (fun p => 1 <= len p <= 256) ps ->
  Stack.memoryUsage (evaluationStack vm) + memory_of (map big.SetBytes ps)
  <= Stack.memoryMax (evaluationStack vm) ->
  exec_op CALLDATA vm
  = Ok Continue
       (with_evaluationStack vm
          (Stack.mk (rev (map big.SetBytes ps) ++ Stack.Stack (evaluationStack vm))
             (Stack.memoryUsage (evaluationStack vm)
              + memory_of (map big.SetBytes ps))
             (Stack.memoryMax (evaluationStack vm)))).
Proof.
  intros Htd Hps Hm. cbn [exec_op]. unfold bind at 1, get. rewrite Htd.
  pose proof (parameters_length ps) as Hl.
  replace (S (length (parameters ps)))
    with (length ps + S (length (parameters ps) - length ps))%nat by lia.
  change 0 with (len (@nil byte)).
  rewrite (calldataLoop_parameters ps (parameters ps) [] [] _ vm); try assumption.
  - cbn [calldataLoop]. change (len (@nil byte)) with 0. rewrite Z.add_0_l.
    destruct (Z.ltb_spec (len (parameters ps)) (len (parameters ps))); [lia |].
    reflexivity.
  - rewrite app_nil_r. reflexivity.
Qed.

(** X19.  [calldata] on data that stop short.  When, after well-formed
    parameters, a length byte [l] is followed by fewer than [l + 1] bytes,
    the case has pushed the parameters before it and then pushes
    "Index out of bounds": [Exec] returns false.  A last parameter that
    ends with the data is accepted; here the bound is exact. *)
Theorem calldata_refuses_truncated_data
  (vm : VM C) (ps : list (list byte)) (l : byte) (short : list byte) :
  GetTransactionData (context vm) = parameters ps ++ l :: short ->
  len short <= byte_val l ->
  Forall (fun p => 1 <= len p <= 256) ps ->
  Stack.memoryUsage (evaluationStack vm) + memory_of (map big.SetBytes ps)
  <= Stack.memoryMax (evaluationStack vm) ->
  exec_op CALLDATA vm
  = Ok (Return false)
       (with_evaluationStack vm
          (snd (Stack.Push (StrToBigInt "Index out of bounds")
                  (pushed_all (map big.SetBytes ps) (evaluationStack vm))))).
Proof.
  intros Htd Hshort Hps Hm. cbn [exec_op]. unfold bind at 1, get. rewrite Htd.
  pose proof (parameters_length ps) as Hl.
  assert (Hlen : len (parameters ps ++ l :: short)
                 = len (parameters ps) + 1 + len short)
    by (rewrite len_app, len_cons; lia).
  replace (S (length (parameters ps ++ l :: short)))
    with (length ps + S (length (parameters ps ++ l :: short) - length ps))%nat
    by (rewrite length_app; lia).
  change 0 with (len (@nil byte)).
  rewrite (calldataLoop_parameters ps (parameters ps ++ l :: short) [] (l :: short) _ vm);
    try assumption; [| reflexivity].
  cbn [calldataLoop]. change (len (@nil byte)) with 0. rewrite Z.add_0_l.
  assert (0 <= len short) by (unfold len; lia).
  destruct (Z.ltb_spec (len (parameters ps)) (len (parameters ps ++ l :: short)))
    as [_ | Hge]; [| lia].
  rewrite nth_middle_Z.
  destruct (Z.leb_spec (len (parameters ps ++ l :: short) - len (parameters ps) - 1)
              (byte_val l)) as [_ | Hgt]; [| lia].
  rewrite halt_eq. reflexivity.
Qed.

(** ** Shifts, [nop], [callext] and [arrinsert] *)

(** X20.  [shiftl n] multiplies the top by [2 ^ n] and [shiftr n] divides it by
    [2 ^ n], rounding toward minus infinity also when the top is negative
    (so -1 shifted right stays -1); [n] is the operand byte, 0 to 255.
    Shifting left and then right by the same [n] gives the number back. *)
Theorem shifts_multiply_and_divide
  (vm : VM C) (n : byte) (tos : BigInt) (rest : list BigInt) :
  0 <= pc vm ->
  nth_error (code vm) (Z.to_nat (pc vm)) = Some n ->
  Stack.Stack (evaluationStack vm) = tos :: rest ->
  let popped :=
    with_evaluationStack (with_pc vm (pc vm + 1))
      (Stack.mk rest
         (Stack.memoryUsage (evaluationStack vm) - getElementMemoryUsage (big.BitLen tos))
         (Stack.memoryMax (evaluationStack vm))) in
  exec_op SHIFTL vm = pushOrHalt (tos * 2 ^ byte_val n) popped
  /\ exec_op SHIFTR vm = pushOrHalt (tos / 2 ^ byte_val n) popped
  /\ tos * 2 ^ byte_val n / 2 ^ byte_val n = tos.
Proof.
  intros Hpc Hn Hs popped. pose proof (byte_val_range n) as Hr.
  split; [| split].
  - cbn [exec_op]. unfold bind at 1. rewrite (fetch_ok vm n Hpc Hn).
    unfold bind at 1. rewrite (evalPop_cons _ tos rest) by exact Hs.
    cbn [checkErrors]. unfold bind at 1, ret at 1. cbn [negb].
    unfold big.Lsh. rewrite Z.shiftl_mul_pow2 by lia. reflexivity.
  - cbn [exec_op]. unfold bind at 1. rewrite (fetch_ok vm n Hpc Hn).
    unfold bind at 1. rewrite (evalPop_cons _ tos rest) by exact Hs.
    cbn [checkErrors]. unfold bind at 1, ret at 1. cbn [negb].
    unfold big.Rsh. rewrite Z.shiftr_div_pow2 by lia. reflexivity.
  - apply Z.div_mul. apply Z.pow_nonzero; lia.
Qed.

(** X21.  [nop] is an instruction of two bytes: the case fetches, and drops, the
    byte after the opcode, so that byte is never decoded.  A [nop] that is
    the last byte of the code makes [Exec] return false with
    "instructionSet out of bounds".  [callext] likewise only steps over its
    37 operand bytes. *)
Theorem nop_and_callext_only_move_pc (vm : VM C) :
  0 <= pc vm ->
  (pc vm < len (code vm) -> exec_op NOP vm = Ok Continue (with_pc vm (pc vm + 1)))
  /\ (len (code vm) <= pc vm ->
      exec_op NOP vm
      = Ok (Return false)
           (with_evaluationStack vm
              (snd (Stack.Push (StrToBigInt "instructionSet out of bounds")
                      (evaluationStack vm)))))
  /\ (pc vm + 36 < len (code vm) ->
      exec_op CALLEXT vm = Ok Continue (with_pc vm (pc vm + 37))).
Proof.
  intros Hpc. split; [| split].
  - intros Hin. cbn [exec_op]. unfold bind.
    destruct (nth_error (code vm) (Z.to_nat (pc vm))) as [b |] eqn:Hb.
    + rewrite (fetch_ok vm b Hpc Hb). reflexivity.
    + apply nth_error_None in Hb. unfold len in Hin. lia.
  - intros Hout. cbn [exec_op]. unfold bind.
    rewrite fetch_out_of_bounds by exact Hout. apply halt_eq.
  - intros Hin. cbn [exec_op]. unfold bind at 1.
    rewrite fetchMany_ok by lia. unfold bind at 1.
    rewrite fetchMany_ok by (cbn [pc code with_pc]; lia). unfold bind at 1.
    destruct (nth_error (code vm) (Z.to_nat (pc vm + 32 + 4))) as [b |] eqn:Hb.
    + rewrite (fetch_ok _ b) by (cbn [pc code with_pc]; first [lia | exact Hb]).
      cbn [checkErrors]. unfold bind, ret. cbn [negb pc code with_pc].
      unfold with_pc. cbn [code pc evaluationStack callStack context].
      replace (pc vm + 32 + 4 + 1) with (pc vm + 37) by lia. reflexivity.
    + apply nth_error_None in Hb. unfold len in Hin. lia.
Qed.

(** X22.  [arrinsert] does not append.  With the index on top, the element
    below it and the array below that, an index that is not smaller than
    the size of the array (the size itself included) makes the case push
    "Index out of bounds" after it has popped the three, and [Exec] returns
    false: [Insert] is not called, and nothing can be inserted into an
    empty array. *)
Theorem arrinsert_refuses_the_end
  (vm : VM C) (i e a : BigInt) (rest : list BigInt)
  (arr : Array) (index size : Z) :
  Stack.Stack (evaluationStack vm) = i :: e :: a :: rest ->
  len (big.Bytes i) <= 2 ->
  ArrayFromBigInt a = (arr, None) ->
  ByteArrayToUI16 (big.Bytes i) = (index, None) ->
  Array_getSize arr = (size, None) ->
  size <= index ->
  exec_op ARRINSERT vm
  = Ok (Return false)
       (with_evaluationStack vm
          (snd (Stack.Push (StrToBigInt "Index out of bounds")
                  (Stack.mk rest
                     (Stack.memoryUsage (evaluationStack vm)
                      - getElementMemoryUsage (big.BitLen i)
                      - getElementMemoryUsage (big.BitLen e)
                      - getElementMemoryUsage (big.BitLen a))
                     (Stack.memoryMax (evaluationStack vm)))))).
Proof.
  intros Hs Hi Harr Hconv Hsize Hle. cbn [exec_op]. unfold bind at 1.
  rewrite (evalPop_cons vm i (e :: a :: rest) Hs). cbn beta iota.
  destruct (Z.gtb_spec (len (big.Bytes i)) 2) as [Hgt | _]; [lia |].
  unfold bind at 1. rewrite (evalPop_cons _ e (a :: rest)) by reflexivity.
  cbn beta iota. unfold bind at 1.
  rewrite (evalPop_cons _ a rest) by reflexivity. cbn beta iota.
  rewrite Harr, Hconv, Hsize.
  destruct (Z.geb_spec index size) as [_ | Hlt]; [| lia].
  rewrite halt_eq. reflexivity.
Qed.

(** ** Keys and hashes that start with a zero byte *)

Lemma be_digits_length (fuel : nat) :
  forall (n k : Z) (acc : list byte),
    0 <= k -> 0 <= n < 256 ^ k ->
    len (big.be_digits fuel n acc) <= k + len acc.
Proof.
  induction fuel as [| fuel IH]; intros n k acc Hk Hn; cbn [big.be_digits].
  - lia.
  - destruct (Z.eqb_spec n 0) as [_ | Hnz]; [lia |].
    assert (Hk1 : 1 <= k).
    { destruct (Z.eq_dec k 0) as [-> | Hk0]; [| lia].
      change (256 ^ 0) with 1 in Hn. lia. }
    assert (Hdiv : 0 <= n / 256 < 256 ^ (k - 1)).
    { split; [apply Z.div_pos; lia |].
      apply Z.div_lt_upper_bound; [lia |].
      replace k with (1 + (k - 1)) in Hn by lia.
      rewrite Z.pow_add_r in Hn by lia. change (256 ^ 1) with 256 in Hn. lia. }
    specialize (IH (n / 256) (k - 1) (byte_of_Z (n mod 256) :: acc) ltac:(lia) Hdiv).
    rewrite len_cons in IH. lia.
Qed.

(** [Bytes] gives no leading zero byte: a number below [256 ^ k] has at
    most [k] bytes. *)
Lemma Bytes_length_bound (x : BigInt) (k : Z) :
  0 <= k -> Z.abs x < 256 ^ k -> len (big.Bytes x) <= k.
Proof.
  intros Hk Hx. unfold big.Bytes.
  pose proof (be_digits_length (Z.to_nat (big.BitLen x)) (Z.abs x) k [] Hk
                ltac:(lia)) as Hl.
  change (len (@nil byte)) with 0 in Hl. lia.
Qed.

(** X23.  [checksig] takes the lengths from [Bytes], which drops leading zero
    bytes.  So a public key whose 64-byte form starts with a zero byte (a
    number below [256 ^ 63]) is refused with "Not a valid address", and
    under a key of 64 bytes a hash whose 32-byte form starts with a zero
    byte (a number below [256 ^ 31]) is refused with "Not a valid hash":
    for such keys and hashes the signature is never looked at. *)
Theorem checksig_refuses_leading_zero_bytes
  (vm : VM C) (publicKeySig hash : BigInt) (rest : list BigInt) :
  Stack.Stack (evaluationStack vm) = publicKeySig :: hash :: rest ->
  let popped :=
    Stack.mk rest
      (Stack.memoryUsage (evaluationStack vm)
       - getElementMemoryUsage (big.BitLen publicKeySig)
       - getElementMemoryUsage (big.BitLen hash))
      (Stack.memoryMax (evaluationStack vm)) in
  (Z.abs publicKeySig < 256 ^ 63 ->
   exec_op CHECKSIG vm
   = Ok (Return false)
        (with_evaluationStack vm
           (snd (Stack.Push (StrToBigInt "Not a valid address") popped))))
  /\ (len (big.Bytes publicKeySig) = 64 ->
      Z.abs hash < 256 ^ 31 ->
      exec_op CHECKSIG vm
      = Ok (Return false)
           (with_evaluationStack vm
              (snd (Stack.Push (StrToBigInt "Not a valid hash") popped)))).
Proof.
  intros Hs popped.
  destruct (exec_checksig_lengths vm publicKeySig hash rest Hs) as [Hkey Hhash].
  split.
  - intros Hsmall.
    pose proof (Bytes_length_bound publicKeySig 63 ltac:(lia) Hsmall) as Hl.
    rewrite Hkey by lia. rewrite halt_eq. reflexivity.
  - intros Hk Hsmall.
    pose proof (Bytes_length_bound hash 31 ltac:(lia) Hsmall) as Hl.
    rewrite (Hhash Hk) by lia. rewrite halt_eq. reflexivity.
Qed.

(** ** An empty evaluation stack *)

Lemma evalPeek_nil (vm : VM C) :
  Stack.Stack (evaluationStack vm) = [] ->
  evalPeek vm = Ok (0, Some "pop on empty stack") vm.
Proof.
  intros Hs. unfold evalPeek, bind, get, ret, Stack.Peek. rewrite Hs. reflexivity.
Qed.

(** X24.  No opcode uses a value that it did not get.  On an empty evaluation
    stack each of the opcodes that start with a pop or a peek pushes the
    error of the stack and makes [Exec] return false, before a helper is
    called on the zero value that came with the error; nothing else of the
    machine changes. *)
Theorem underflow_is_reported (op : Op) (vm : VM C) :
  In op pops_first ->
  Stack.Stack (evaluationStack vm) = [] ->
  exec_op op vm
  = Ok (Return false)
       (with_evaluationStack vm
          (snd (Stack.Push (StrToBigInt "pop on empty stack") (evaluationStack vm)))).
Proof.
  intros Hop Hs.
  assert (Hpop : evalPop vm = Ok (0, Some "pop on empty stack")
                               (with_evaluationStack vm (evaluationStack vm)))
    by (apply evalPop_nil, Hs).
  assert (Hpop' : evalPop (with_evaluationStack vm (evaluationStack vm))
                  = Ok (0, Some "pop on empty stack")
                       (with_evaluationStack vm (evaluationStack vm))).
  { rewrite (evalPop_nil (with_evaluationStack vm (evaluationStack vm))) by exact Hs.
    reflexivity. }
  assert (Hpeek : evalPeek vm = Ok (0, Some "pop on empty stack") vm)
    by (apply evalPeek_nil, Hs).
  unfold pops_first in Hop. cbn [In] in Hop.
  repeat (destruct Hop as [<- | Hop];
    [ cbn [exec_op]; unfold arith, compareOp, pop2, bind;
      rewrite ?Hpop, ?Hpeek; cbn beta iota; rewrite ?Hpop'; cbn beta iota;
      rewrite ?Hpop'; cbn beta iota;
      cbn [checkErrors]; unfold bind; rewrite ?pushStr_eq, ?halt_eq; reflexivity
    |]).
  contradiction.
Qed.

(** ** [sha3] *)

Lemma Bytes_opp (x : BigInt) : big.Bytes (- x) = big.Bytes x.
Proof. unfold big.Bytes. rewrite BitLen_opp, Z.abs_opp. reflexivity. Qed.

(** X25.  [sha3] hashes the bytes of the magnitude: the sign of the top does not
    reach the hash.  With [x] on top or with [- x] on top, the case leaves
    the same machine, the same hash pushed. *)
Theorem sha3_ignores_the_sign (vm : VM C) (x : BigInt) (rest : list BigInt) :
  Stack.Stack (evaluationStack vm) = x :: rest ->
  exec_op SHA3
    (with_evaluationStack vm
       (Stack.mk (- x :: rest) (Stack.memoryUsage (evaluationStack vm))
          (Stack.memoryMax (evaluationStack vm))))
  = exec_op SHA3 vm.
Proof.
  intros Hs. cbn [exec_op]. unfold bind.
  rewrite (evalPop_cons vm x rest Hs).
  rewrite (evalPop_cons _ (- x) rest) by reflexivity.
  cbn beta iota. rewrite Bytes_opp, BitLen_opp. reflexivity.
Qed.

End Properties.

(** * The interpreter at work on the sample instantiation *)

#[local] Existing Instance Sample.host.
#[local] Existing Instance Sample.externals.

Ltac by_compute :=
  vm_compute; first [reflexivity | discriminate | (intro; discriminate)].

(** Scenarios 1 and 3 of §8 of the specification. *)
Example run_addition :
  Sample.run [x00; x00; x05; x00; x00; x07; x04; x31] 100 1000
  = Some (Ok true [12]).
Proof. by_compute. Qed.

Example run_jump_not_taken :
  Sample.run [x00; x00; x00; x14; x00; x06; x00; x00; x2a; x31] 100 1000
  = Some (Ok true [42]).
Proof. by_compute. Qed.

(** [push 1; push 0; div; halt]: the right operand, on top, is 0. *)
Example run_division_by_zero :
  option_map (fun r => match r with
                       | Ok b s => Ok b (map BigIntToString s)
                       | Panicked => Panicked
                       end)
    (Sample.run [x00; x00; x01; x00; x00; x00; x07; x31] 100 1000)
  = Some (Ok false ["Division by Zero"]).
Proof. by_compute. Qed.

(** Witness for C1: the byte 50 on the sample table of 50 entries. *)
Lemma opcode_equal_to_table_length_panics_witness :
  let vm := Sample.loaded [x32] 100 1000 in
  byte_val x32 = len (@OpCodes Sample.externals)
  /\ iter 100 vm = Panicked
  /\ loop 1 100 vm = Some Panicked.
Proof.
  cbv zeta.
  assert (h1 : 0 <= pc (Sample.loaded [x32] 100 1000)) by by_compute.
  assert (h2 : nth_error (code (Sample.loaded [x32] 100 1000))
                 (Z.to_nat (pc (Sample.loaded [x32] 100 1000))) = Some x32)
    by by_compute.
  assert (h3 : byte_val x32 = len (@OpCodes Sample.externals)) by by_compute.
  pose proof (@opcode_equal_to_table_length_panics Sample.Host Sample.host
                Sample.externals 100 _ x32 h1 h2 h3) as [Hi Hl].
  exact (conj h3 (conj Hi (Hl 0%nat))).
Defined.

(** The errors of the sample host and helpers are readable. *)
Ltac split_cases :=
  repeat match goal with
         | |- context [if ?c then _ else _] => destruct c
         | |- context [match ?x with _ => _ end] => destruct x
         end.




(** The messages of a run on the sample host and helpers: the literals of
    the interpreter, which the host shares, the errors of the stacks, and
    seven more of the conversion, the arrays and the maps. *)
Lemma sample_run_messages (msg : string) :
  run_message (C := Sample.Host) msg ->
  In msg
    (interpreter_messages ++ stack_messages
       ++ ["byte array to uint16 invalid parameters provided";
           "malformed array"; "not an array"; "array index out of bounds";
           "malformed map"; "not a map"; "key not found"]).
Proof.
  assert (Hcases :
    forall e : error,
      e = Some msg ->
      e = None
      \/ In e (map Some
                 ["Index out of bounds";
                  "byte array to uint16 invalid parameters provided";
                  "malformed array"; "not an array"; "array index out of bounds";
                  "malformed map"; "not a map"; "key not found"]) ->
      In msg
        (interpreter_messages ++ stack_messages
           ++ ["byte array to uint16 invalid parameters provided";
               "malformed array"; "not an array"; "array index out of bounds";
               "malformed map"; "not a map"; "key not found"])).
  { intros e -> [He | He]; [discriminate |].
    unfold interpreter_messages, stack_messages.
    cbn [map In app] in *.
    repeat (destruct He as [He | He];
            [injection He as <-; repeat first [left; reflexivity | right] |]).
    destruct He. }
  intros [Hm | [Hm | [Hm | Hm]]].
  - apply in_or_app. left. exact Hm.
  - apply in_or_app. right. apply in_or_app. left. exact Hm.
  - destruct Hm as [(ctx & index & E) | (ctx & index & value & E)];
      apply (Hcases _ E);
      cbn [GetContractVariable SetContractVariable Sample.host];
      unfold Sample.host_get, Sample.host_set; split_cases;
      cbn [fst snd map In]; tauto.
  - destruct Hm as [(bs & E) | [(x & E) | [(a & i & e & E) | [(a & i & E)
      | [(a & i & E) | [(a & E) | [(x & E) | [(m & k & E) | (m & k & v & E)]]]]]]]];
      apply (Hcases _ E);
      cbn [ByteArrayToUI16 ArrayFromBigInt Array_Insert Array_Remove Array_At
           Array_getSize MapFromBigInt Map_GetVal Map_SetVal Sample.externals];
      unfold Sample.toUI16, Sample.array_of_BigInt, Sample.array_insert,
        Sample.array_remove, Sample.array_at, Sample.map_of_BigInt,
        Sample.map_getval, Sample.map_setval;
      split_cases; cbn [fst snd map In]; tauto.
Qed.

(** A machine is not halted with a message for free: a fresh machine of the
    sample instantiation with a quota of 1000 bytes has nothing on its
    evaluation stack and room for every message of a run. *)
Example fresh_machine_is_not_halted_with_message :
  ~ halted_with_message (Sample.machine [] 0 1000).
Proof.
  intros (msg & Hm & [[rest Hrest] | Hfull]).
  - discriminate Hrest.
  - apply sample_run_messages in Hm.
    unfold interpreter_messages, stack_messages in Hm. cbn [In app] in Hm.
    repeat (destruct Hm as [<- | Hm]; [revert Hfull; by_compute |]).
    destruct Hm.
Qed.

(** Nor is a machine that stopped with a number on top of its stack:
    [push 7; halt] leaves 7 there, which is the BigInt of no message. *)
Example result_on_top_is_not_a_message :
  ~ halted_with_message
      (mkVM [x00; x00; x07; x31] 4 (Sample.stack_of 1000 [7]) []
         (Sample.mkHost [x00; x00; x07; x31] [] 100 [])).
Proof.
  intros (msg & Hm & [[rest Hrest] | Hfull]);
    apply sample_run_messages in Hm;
    unfold interpreter_messages, stack_messages in Hm; cbn [In app] in Hm;
    repeat (destruct Hm as [<- | Hm];
            [first [revert Hrest; by_compute | revert Hfull; by_compute] |]);
    destruct Hm.
Qed.


Lemma sample_prices_nonneg :
  Forall (fun entry => 0 <= gasPrice entry) (@OpCodes Sample.externals).
Proof.
  cbn [OpCodes Sample.externals]. unfold Sample.table.
  apply Forall_forall. intros entry Hin. apply list_elem_of_In, in_map_iff in Hin.
  destruct Hin as (op & <- & _). cbn. lia.
Qed.

(** From an instance [H] of a theorem, an equation with the same left-hand
    side, to the same equation with the right-hand side evaluated. *)
Ltac from_instance H := etransitivity; [exact H | by_compute].

(** Witness for C3: [add] with a fee of 0 and of 10, and two [push]es with a fee of 10,
    every price being 1. *)
Lemma gas_is_checked_then_charged_witness :
  let broke := Sample.loaded [x04] 0 1000 in
  let funded := Sample.loaded [x04] 10 1000 in
  let program := [x00; x00; x05; x00; x00; x07; x04; x31] in
  loop 1 0 broke
  = Some (Ok false
            (mkVM [x04] 1 (Sample.stack_of 1000 [StrToBigInt "out of gas"])
               [] (Sample.mkHost [x04] [] 0 [])))
  /\ iter 10 funded
     = Ok (Return false, 9)
          (mkVM [x04] 1 (Sample.stack_of 1000 [StrToBigInt "pop on empty stack"])
             [] (Sample.mkHost [x04] [] 10 []))
  /\ (passes 2 10 (Sample.loaded program 10 1000)
      = Some ([x00; x00], 8,
              mkVM program 6 (Sample.stack_of 1000 [7; 5]) []
                (Sample.mkHost program [] 10 []))
      /\ 8 = 10 - fold_right Z.add 0 (map price [x00; x00])
      /\ 0 <= 8 <= 10)
  /\ Exec 4 (Sample.machine program 10 1000)
     = Some (Ok true
               (mkVM program 8 (Sample.stack_of 1000 [12]) []
                  (Sample.mkHost program [] 10 []))).
Proof.
  cbv zeta.
  destruct (@gas_is_checked_then_charged Sample.Host Sample.host Sample.externals
              sample_prices_nonneg) as (Hpass & Hsum & Hstart).
  destruct (Hpass 0 (Sample.loaded [x04] 0 1000) x04 (mkOpCode "add" 0 1)
              ltac:(split; by_compute) ltac:(by_compute) ltac:(by_compute)
              ltac:(by_compute)) as [Hbroke _].
  destruct (Hpass 10 (Sample.loaded [x04] 10 1000) x04 (mkOpCode "add" 0 1)
              ltac:(split; by_compute) ltac:(by_compute) ltac:(by_compute)
              ltac:(by_compute)) as [_ Hfunded].
  destruct (Hfunded ltac:(by_compute)) as [_ Hiter].
  assert (hp : passes 2 10
                 (Sample.loaded [x00; x00; x05; x00; x00; x07; x04; x31] 10 1000)
               = Some ([x00; x00], 8,
                       mkVM [x00; x00; x05; x00; x00; x07; x04; x31] 6
                         (Sample.stack_of 1000 [7; 5]) []
                         (Sample.mkHost [x00; x00; x05; x00; x00; x07; x04; x31]
                            [] 10 [])))
    by by_compute.
  pose proof (Hsum 2%nat 10 8 _ _ _ ltac:(split; by_compute) hp) as Hfee.
  pose proof (Hstart 4%nat
                (Sample.machine [x00; x00; x05; x00; x00; x07; x04; x31] 10 1000)
                ltac:(by_compute)) as Hexec.
  split; [from_instance (Hbroke ltac:(by_compute) 0%nat) |].
  split; [from_instance Hiter |].
  split; [exact (conj hp Hfee) |].
  from_instance Hexec.
Defined.

(** Witness for C4: [div] with 0 on top of 5. *)
Lemma div_mod_by_zero_halts_without_store_witness :
  let vm := Sample.running [x07] 0 1000 [0; 5] in
  Stack.Stack (evaluationStack vm) = [0; 5]
  /\ big.Cmp 0 0 = 0
  /\ loop 1 10 vm
     = Some (Ok false
               (mkVM [x07] 1 (Sample.stack_of 1000 [StrToBigInt "Division by Zero"])
                  [] (context vm)))
  /\ Stack.Stack (Sample.stack_of 1000 [StrToBigInt "Division by Zero"])
     = [StrToBigInt "Division by Zero"].
Proof.
  cbv zeta.
  assert (hs : Stack.Stack (evaluationStack (Sample.running [x07] 0 1000 [0; 5]))
               = [0; 5]) by by_compute.
  assert (hz : big.Cmp 0 0 = 0) by by_compute.
  destruct (@div_mod_by_zero_halts_without_store Sample.Host Sample.host
              Sample.externals DIV 10 (Sample.running [x07] 0 1000 [0; 5])
              x07 (mkOpCode "div" 0 1) 0 5 []
              (or_introl eq_refl) ltac:(by_compute) ltac:(by_compute)
              ltac:(by_compute) ltac:(by_compute) ltac:(by_compute) hs hz)
    as [Hloop Htop].
  split; [exact hs |]. split; [exact hz |].
  split; [from_instance (Hloop 0%nat) |].
  etransitivity; [| exact (Htop ltac:(by_compute))]. by_compute.
Defined.

(** Witness for C6: the contract [push 0 5], whose operand ends the code. *)
Lemma push_ending_at_last_byte_is_refused_witness :
  let vm := Sample.loaded [x00; x00; x05] 100 1000 in
  len (code vm) = pc vm + 2 + (byte_val x00 + 1)
  /\ loop 1 100 vm
     = Some (Ok false
               (mkVM [x00; x00; x05] 2
                  (Sample.stack_of 1000 [StrToBigInt "instructionSet out of bounds"])
                  [] (context vm))).
Proof.
  cbv zeta.
  assert (hl : len (code (Sample.loaded [x00; x00; x05] 100 1000))
               = pc (Sample.loaded [x00; x00; x05] 100 1000) + 2 + (byte_val x00 + 1))
    by by_compute.
  split; [exact hl |].
  from_instance
    (@push_ending_at_last_byte_is_refused Sample.Host Sample.host
       Sample.externals 100 (Sample.loaded [x00; x00; x05] 100 1000)
       x00 x00 (mkOpCode "push" 1 1)
       ltac:(by_compute) ltac:(by_compute) ltac:(by_compute) ltac:(by_compute)
       ltac:(by_compute) ltac:(by_compute) hl 0%nat).
Defined.

(** The run of that contract: the 5 is not on the stack. *)
Example run_push_ending_the_code :
  Sample.run [x00; x00; x05] 100 1000
  = Some (Ok false [StrToBigInt "instructionSet out of bounds"]).
Proof. by_compute. Qed.

(** Witness for C5: a contract that pushes [2^64 + 1] and then tests it with [jmpif].
    Falling through would push 7; the jump, which is taken, leads to the
    push of 42. *)
Lemma jmpif_jumps_on_low_64_bits_witness :
  let vm := Sample.running Sample.jump_program 11 1000 [2 ^ 64 + 1] in
  Stack.Stack (evaluationStack vm) = [1 * 2 ^ 64 + 1]
  /\ iter 100 vm
     = Ok (Continue, 99)
          (mkVM Sample.jump_program 18 (Sample.stack_of 1000 []) [] (context vm))
  /\ Sample.run Sample.jump_program 100 1000 = Some (Ok true [42]).
Proof.
  cbv zeta.
  assert (hs : Stack.Stack
                 (evaluationStack
                    (Sample.running Sample.jump_program 11 1000 [2 ^ 64 + 1]))
               = [1 * 2 ^ 64 + 1]) by by_compute.
  split; [exact hs |]. split; [| by_compute].
  from_instance
    (@jmpif_jumps_on_low_64_bits Sample.Host Sample.host Sample.externals
       100 (Sample.running Sample.jump_program 11 1000 [2 ^ 64 + 1])
       x14 x00 x12 (mkOpCode "jmpif" 2 1) 1 []
       ltac:(by_compute) ltac:(by_compute) ltac:(by_compute) ltac:(by_compute)
       ltac:(by_compute) ltac:(by_compute) ltac:(by_compute) ltac:(by_compute)
       ltac:(by_compute) hs).
Defined.

(** Witness for C7: a call whose target is 0; a call that loads two arguments; a call
    that asks for one argument on an empty stack. *)
Lemma call_checks_target_then_loads_arguments_witness :
  let bad := Sample.running [x15; x00; x00; x00; x31] 0 1000 [] in
  let good := Sample.running [x15; x00; x05; x02; x31; x31] 0 1000 [7; 9; 3] in
  let short := Sample.running [x15; x00; x05; x01; x31; x31] 0 1000 [] in
  loop 1 100 bad
  = Some (Ok false
            (mkVM (code bad) 4
               (Sample.stack_of 1000 [StrToBigInt "ReturnAddress out of bounds"])
               [] (context bad)))
  /\ (exists vars : gmap Z BigInt,
        iter 100 good
        = Ok (Continue, 99)
             (mkVM (code good) 5 (Sample.stack_of 1000 [3])
                [mkFrame 4 vars] (context good))
        /\ vars !! 1 = Some 7 /\ vars !! 0 = Some 9 /\ vars !! 2 = None)
  /\ loop 1 100 short
     = Some (Ok false
               (mkVM (code short) 4
                  (Sample.stack_of 1000 [StrToBigInt "pop on empty stack"])
                  [] (context short))).
Proof.
  cbv zeta.
  destruct (@call_checks_target_then_loads_arguments Sample.Host Sample.host
              Sample.externals 100
              (Sample.running [x15; x00; x00; x00; x31] 0 1000 [])
              x15 x00 x00 x00 (mkOpCode "call" 3 1)
              ltac:(by_compute) ltac:(by_compute) ltac:(by_compute)
              ltac:(by_compute) ltac:(by_compute) ltac:(by_compute)
              ltac:(by_compute) ltac:(by_compute)) as (Hbad & _ & _).
  destruct (@call_checks_target_then_loads_arguments Sample.Host Sample.host
              Sample.externals 100
              (Sample.running [x15; x00; x05; x02; x31; x31] 0 1000 [7; 9; 3])
              x15 x00 x05 x02 (mkOpCode "call" 3 1)
              ltac:(by_compute) ltac:(by_compute) ltac:(by_compute)
              ltac:(by_compute) ltac:(by_compute) ltac:(by_compute)
              ltac:(by_compute) ltac:(by_compute)) as (_ & Hgood & _).
  destruct (@call_checks_target_then_loads_arguments Sample.Host Sample.host
              Sample.externals 100
              (Sample.running [x15; x00; x05; x01; x31; x31] 0 1000 [])
              x15 x00 x05 x01 (mkOpCode "call" 3 1)
              ltac:(by_compute) ltac:(by_compute) ltac:(by_compute)
              ltac:(by_compute) ltac:(by_compute) ltac:(by_compute)
              ltac:(by_compute) ltac:(by_compute)) as (_ & _ & Hshort).
  split; [from_instance (Hbad ltac:(left; by_compute) 0%nat) |].
  split.
  - destruct (Hgood ltac:(split; by_compute) [7; 9] [3]
                ltac:(by_compute) ltac:(by_compute))
      as (vars & Hiter & Hin & Hout).
    exists vars. split; [from_instance Hiter |].
    split; [exact (Hin 0%nat ltac:(cbn; lia)) |].
    split; [exact (Hin 1%nat ltac:(cbn; lia)) |].
    apply Hout. unfold len. cbn. lia.
  - from_instance (Hshort ltac:(split; by_compute) ltac:(by_compute) 0%nat).
Defined.

(** Counterexample to C7 as stated: [call 5 1] with a good target but nothing on the
    evaluation stack.  No value is popped into a frame, no frame is pushed,
    [pc] is not set to the target 5, and [Exec] returns false. *)
Lemma call_with_too_few_values_pushes_no_frame :
  let program := [x15; x00; x05; x01; x31; x31] in
  let vm' :=
    mkVM program 4 (Sample.stack_of 1000 [StrToBigInt "pop on empty stack"])
      [] (Sample.mkHost program [] 100 []) in
  0 < byte_val x00 * 256 + byte_val x05 <= len program
  /\ Exec 1 (Sample.machine program 100 1000) = Some (Ok false vm')
  /\ callStack vm' = []
  /\ pc vm' <> 5.
Proof. cbv zeta. repeat split; by_compute. Qed.

(** Witness for C8: a key of 63 bytes over a hash of 32 bytes; a key of 64 bytes over a
    hash of 31 bytes. *)
Lemma checksig_checks_key_then_hash_witness :
  let short_key := Sample.running [x2f] 0 1000 [2 ^ (8 * 62); 2 ^ (8 * 31)] in
  let short_hash := Sample.running [x2f] 0 1000 [2 ^ (8 * 63); 2 ^ (8 * 30)] in
  len (big.Bytes (2 ^ (8 * 62))) = 63
  /\ loop 1 100 short_key
     = Some (Ok false
               (mkVM [x2f] 1 (Sample.stack_of 1000 [StrToBigInt "Not a valid address"])
                  [] (context short_key)))
  /\ len (big.Bytes (2 ^ (8 * 63))) = 64
  /\ len (big.Bytes (2 ^ (8 * 30))) = 31
  /\ loop 1 100 short_hash
     = Some (Ok false
               (mkVM [x2f] 1 (Sample.stack_of 1000 [StrToBigInt "Not a valid hash"])
                  [] (context short_hash))).
Proof.
  cbv zeta.
  destruct (@checksig_checks_key_then_hash Sample.Host Sample.host Sample.externals
              100 (Sample.running [x2f] 0 1000 [2 ^ (8 * 62); 2 ^ (8 * 31)])
              x2f (mkOpCode "checksig" 0 1) (2 ^ (8 * 62)) (2 ^ (8 * 31)) []
              ltac:(by_compute) ltac:(by_compute) ltac:(by_compute)
              ltac:(by_compute) ltac:(by_compute) ltac:(by_compute))
    as [Hkey _].
  destruct (@checksig_checks_key_then_hash Sample.Host Sample.host Sample.externals
              100 (Sample.running [x2f] 0 1000 [2 ^ (8 * 63); 2 ^ (8 * 30)])
              x2f (mkOpCode "checksig" 0 1) (2 ^ (8 * 63)) (2 ^ (8 * 30)) []
              ltac:(by_compute) ltac:(by_compute) ltac:(by_compute)
              ltac:(by_compute) ltac:(by_compute) ltac:(by_compute))
    as [_ Hhash].
  split; [by_compute |].
  split; [from_instance (Hkey ltac:(by_compute) 0%nat) |].
  split; [by_compute |]. split; [by_compute |].
  from_instance (Hhash ltac:(by_compute) ltac:(by_compute) 0%nat).
Defined.

(** Counterexample to C8 as stated: with a key of 63 bytes over a hash of 31 bytes the
    hash is not 32 bytes long, and the message is "Not a valid address", not
    "Not a valid hash": the hash is looked at only once the key has passed. *)
Lemma checksig_short_key_hides_short_hash :
  let vm := Sample.running [x2f] 0 1000 [2 ^ (8 * 62); 2 ^ (8 * 30)] in
  let vm' :=
    mkVM [x2f] 1 (Sample.stack_of 1000 [StrToBigInt "Not a valid address"])
      [] (context vm) in
  len (big.Bytes (2 ^ (8 * 30))) <> 32
  /\ loop 1 100 vm = Some (Ok false vm')
  /\ GetErrorMsg vm' = "Not a valid address"
  /\ GetErrorMsg vm' <> "Not a valid hash".
Proof. cbv zeta. repeat split; by_compute. Qed.

(** Witness for C9: [arrat 0] on the array [[7]] with room on the stack, and on an array
    of one 9-byte element with a quota of 24 bytes, 16 of them taken by the
    array. *)
Lemma arrat_keeps_the_array_witness :
  let small := big.SetBytes [x02; x00; x01; x07] in
  let large :=
    big.SetBytes [x02; x00; x09; x01; x02; x03; x04; x05; x06; x07; x08; x09] in
  let roomy := Sample.running [x2d; x00; x00; x31] 0 1000 [small] in
  let tight := Sample.running Sample.array_program 13 24 [large] in
  iter 100 roomy
  = Ok (Continue, 99)
       (mkVM (code roomy) 3 (Sample.stack_of 1000 [7; small]) [] (context roomy))
  /\ Stack.hasEnoughMemory (evaluationStack tight)
       (big.BitLen (big.SetBytes [x01; x02; x03; x04; x05; x06; x07; x08; x09]))
     = false
  /\ loop 1 100 tight
     = Some (Ok false
               (mkVM (code tight) 16 (Sample.stack_of 24 [large]) [] (context tight))).
Proof.
  cbv zeta.
  destruct (@arrat_keeps_the_array Sample.Host Sample.host Sample.externals
              100
              (Sample.running [x2d; x00; x00; x31] 0 1000
                 [big.SetBytes [x02; x00; x01; x07]])
              x2d x00 x00 (mkOpCode "arrat" 2 1)
              (big.SetBytes [x02; x00; x01; x07]) [] 0 [[x07]] [x07]
              ltac:(by_compute) ltac:(by_compute) ltac:(by_compute)
              ltac:(by_compute) ltac:(by_compute) ltac:(by_compute)
              ltac:(by_compute) ltac:(by_compute) ltac:(by_compute)
              ltac:(by_compute) ltac:(by_compute) ltac:(by_compute))
    as [Hroomy _].
  destruct (@arrat_keeps_the_array Sample.Host Sample.host Sample.externals
              100
              (Sample.running Sample.array_program 13 24
                 [big.SetBytes
                    [x02; x00; x09; x01; x02; x03; x04; x05; x06; x07; x08; x09]])
              x2d x00 x00 (mkOpCode "arrat" 2 1)
              (big.SetBytes
                 [x02; x00; x09; x01; x02; x03; x04; x05; x06; x07; x08; x09])
              [] 0 [[x01; x02; x03; x04; x05; x06; x07; x08; x09]]
              [x01; x02; x03; x04; x05; x06; x07; x08; x09]
              ltac:(by_compute) ltac:(by_compute) ltac:(by_compute)
              ltac:(by_compute) ltac:(by_compute) ltac:(by_compute)
              ltac:(by_compute) ltac:(by_compute) ltac:(by_compute)
              ltac:(by_compute) ltac:(by_compute) ltac:(by_compute))
    as [_ Htight].
  split; [from_instance (Hroomy ltac:(by_compute)) |].
  split; [by_compute |].
  destruct (Htight ltac:(by_compute)) as (s' & Hloop & -> & _).
  from_instance (Hloop 0%nat).
Defined.

(** Counterexample to C9 as stated: with a stack quota of 24 bytes, the contract
    [newarr; push 0x010203040506070809; arrappend; arrat 0; halt] reaches
    [arrat] with, on top of the stack, an array whose element 0 exists.  The
    element is not pushed: the quota refuses it, [Exec] returns false, and
    the stack is as deep as before, the array on top. *)
Lemma arrat_on_a_full_stack_pushes_nothing :
  let element := [x01; x02; x03; x04; x05; x06; x07; x08; x09] in
  let array := big.SetBytes (x02 :: x00 :: x09 :: element) in
  let vm' :=
    mkVM Sample.array_program 16 (Sample.stack_of 24 [array]) []
      (Sample.mkHost Sample.array_program [] 100 []) in
  passes 3 100 (Sample.loaded Sample.array_program 100 24)
  = Some ([x29; x00; x2a], 97,
          mkVM Sample.array_program 13 (Sample.stack_of 24 [array]) []
            (Sample.mkHost Sample.array_program [] 100 []))
  /\ Sample.array_of_BigInt array = ([element], None)
  /\ Sample.array_at [element] 0 = (element, None)
  /\ Exec 4 (Sample.machine Sample.array_program 100 24) = Some (Ok false vm')
  /\ Stack.Stack (evaluationStack vm') = [array].
Proof. cbv zeta. repeat split; by_compute. Qed.

(** Why the quota is part of the amended C2: with a quota of 8 bytes,
    [push 0; add] fails on the second pop of [add], and the push of the
    message "pop on empty stack", which needs 32 bytes, is refused.  [Exec]
    returns false with an empty stack, although [errhalt] was not executed;
    the stack it leaves has no room for the message. *)
Example error_push_refused_by_quota :
  Exec 2 (Sample.machine [x00; x00; x00; x04] 100 8)
  = Some (Ok false
            (mkVM [x00; x00; x00; x04] 4 (Stack.mk [] 0 8) []
               (Sample.mkHost [x00; x00; x00; x04] [] 100 []))).
Proof. by_compute. Qed.

Example refused_message_has_no_room :
  Stack.hasEnoughMemory (Stack.mk [] 0 8)
    (big.BitLen (StrToBigInt "pop on empty stack")) = false.
Proof. by_compute. Qed.

(** * The further properties on the sample machine *)

Lemma sample_prices_positive :
  Forall (fun entry => 1 <= gasPrice entry) (@OpCodes Sample.externals).
Proof.
  cbn [OpCodes Sample.externals]. unfold Sample.table.
  apply Forall_forall. intros entry Hin. apply list_elem_of_In, in_map_iff in Hin.
  destruct Hin as (op & <- & _). cbn. lia.
Qed.

Lemma sample_conversion_accepts_two_bytes (bs : list byte) :
  len bs = 2 -> snd (@ByteArrayToUI16 Sample.externals bs) = None.
Proof.
  intros Hl. cbn [ByteArrayToUI16 Sample.externals]. unfold Sample.toUI16.
  rewrite Hl. reflexivity.
Qed.

Ltac each_byte := repeat (constructor; [by_compute |]); constructor.

(** [push 5; halt] returns true, and the byte before the last [pc] is
    [halt]. *)
Lemma Exec_returns_true_only_by_halt_witness :
  let program := [x00; x00; x05; x31] in
  let vm' :=
    mkVM program 4 (Sample.stack_of 1000 [5]) [] (Sample.mkHost program [] 100 []) in
  Exec 5 (Sample.machine program 100 1000) = Some (Ok true vm')
  /\ stopped_by HALT vm'.
Proof.
  cbv zeta.
  assert (hx : Exec 5 (Sample.machine [x00; x00; x05; x31] 100 1000)
               = Some (Ok true
                         (mkVM [x00; x00; x05; x31] 4 (Sample.stack_of 1000 [5]) []
                            (Sample.mkHost [x00; x00; x05; x31] [] 100 []))))
    by by_compute.
  split; [exact hx |].
  exact (@Exec_returns_true_only_by_halt Sample.Host Sample.host Sample.externals
           5%nat (Sample.machine [x00; x00; x05; x31] 100 1000)
           (mkVM [x00; x00; x05; x31] 4 (Sample.stack_of 1000 [5]) []
              (Sample.mkHost [x00; x00; x05; x31] [] 100 []))
           hx).
Defined.

(** [push 5; push 7; add; halt] holds no [sstore]: the host comes back as
    it was. *)
Lemma Exec_changes_host_only_by_sstore_witness :
  let program := [x00; x00; x05; x00; x00; x07; x04; x31] in
  let vm' :=
    mkVM program 8 (Sample.stack_of 1000 [12]) [] (Sample.mkHost program [] 10 []) in
  free_of SSTORE program
  /\ Exec 4 (Sample.machine program 10 1000) = Some (Ok true vm')
  /\ code vm' = program
  /\ context vm' = Sample.mkHost program [] 10 [].
Proof.
  cbv zeta.
  assert (hf : free_of SSTORE [x00; x00; x05; x00; x00; x07; x04; x31])
    by (unfold free_of; each_byte).
  assert (hx : Exec 4 (Sample.machine [x00; x00; x05; x00; x00; x07; x04; x31] 10 1000)
               = Some (Ok true
                         (mkVM [x00; x00; x05; x00; x00; x07; x04; x31] 8
                            (Sample.stack_of 1000 [12]) []
                            (Sample.mkHost [x00; x00; x05; x00; x00; x07; x04; x31]
                               [] 10 []))))
    by by_compute.
  destruct (@Exec_changes_host_only_by_sstore Sample.Host Sample.host Sample.externals
              4%nat (Sample.machine [x00; x00; x05; x00; x00; x07; x04; x31] 10 1000)
              (mkVM [x00; x00; x05; x00; x00; x07; x04; x31] 8
                 (Sample.stack_of 1000 [12]) []
                 (Sample.mkHost [x00; x00; x05; x00; x00; x07; x04; x31] [] 10 []))
              true hx) as [Hcode Hctx].
  split; [exact hf |]. split; [exact hx |].
  split; [exact Hcode | exact (Hctx hf)].
Defined.

(** A contract that jumps to an address past its end, on a fresh machine:
    the run ends without a panic. *)
Lemma Exec_never_panics_witness :
  let vm := Sample.machine [x13; xff; xff; x31] 10 1000 in
  counters_valid vm
  /\ Exec 5 vm <> Some Panicked.
Proof.
  cbv zeta.
  assert (hv : counters_valid (Sample.machine [x13; xff; xff; x31] 10 1000))
    by (split; [by_compute | constructor]).
  split; [exact hv |].
  exact (@Exec_never_panics Sample.Host Sample.host Sample.externals
           5%nat (Sample.machine [x13; xff; xff; x31] 10 1000)
           sample_conversion_accepts_two_bytes hv ltac:(each_byte)).
Defined.

(** [jmp 0] jumps in a circle; with a fee of 5 and a price of 1 the run
    ends within 6 passes. *)
Lemma gas_bounds_the_run_witness :
  exists r, Exec 6 (Sample.machine [x13; x00; x00; x31] 5 1000) = Some r.
Proof.
  exact (@gas_bounds_the_run Sample.Host Sample.host Sample.externals
           6%nat (Sample.machine [x13; x00; x00; x31] 5 1000)
           sample_prices_positive ltac:(split; by_compute)).
Defined.

Example run_in_a_circle :
  Exec 6 (Sample.machine [x13; x00; x00; x31] 5 1000)
  = Some (Ok false
            (mkVM [x13; x00; x00; x31] 1 (Sample.stack_of 1000 [StrToBigInt "out of gas"])
               [] (Sample.mkHost [x13; x00; x00; x31] [] 5 []))).
Proof. by_compute. Qed.

(** A contract of 100001 bytes is not run, not even for one pass. *)
Lemma Exec_refuses_long_contract_witness :
  let vm := Sample.machine (repeat x31 (Z.to_nat 100001)) 100 1000 in
  100000 < len (GetContract (context vm))
  /\ exists vm',
       Exec 0 vm = Some (Ok false vm')
       /\ pc vm' = 0
       /\ evaluationStack vm'
          = Sample.stack_of 1000 [StrToBigInt "Instruction set to big"].
Proof.
  cbv zeta.
  assert (hl : 100000 < len (GetContract
                               (context (Sample.machine (repeat x31 (Z.to_nat 100001))
                                           100 1000))))
    by by_compute.
  split; [exact hl |].
  eexists. split; [| split].
  - exact (@Exec_refuses_long_contract Sample.Host Sample.host Sample.externals
             0%nat (Sample.machine (repeat x31 (Z.to_nat 100001)) 100 1000) hl).
  - reflexivity.
  - by_compute.
Defined.

(** The empty contract. *)
Lemma Exec_past_the_end_is_an_error_witness :
  Exec 1 (Sample.machine [] 100 1000)
  = Some (Ok false
            (mkVM [] 0
               (Sample.stack_of 1000 [StrToBigInt "instructionSet out of bounds"])
               [] (Sample.mkHost [] [] 100 []))).
Proof.
  pose proof (@Exec_past_the_end_is_an_error Sample.Host Sample.host Sample.externals
                0%nat (Sample.machine [] 100 1000)
                ltac:(by_compute) ltac:(by_compute)) as Hx.
  from_instance Hx.
Defined.

(** [roll 1], [roll 2] and [roll 3] on the stack 1, 2, 3 (1 on top). *)
Lemma roll_moves_one_element_witness :
  exec_op ROLL (Sample.running [x01] 0 1000 [1; 2; 3])
  = Ok Continue (Sample.running [x01] 1 1000 [3; 1; 2])
  /\ exec_op ROLL (Sample.running [x02] 0 1000 [1; 2; 3])
     = Ok Continue (Sample.running [x02] 1 1000 [1; 2; 3])
  /\ exec_op ROLL (Sample.running [x03] 0 1000 [1; 2; 3])
     = Ok (Return false)
          (Sample.running [x03] 1 1000 [StrToBigInt "index out of bounds"; 1; 2; 3]).
Proof.
  destruct (@roll_moves_one_element Sample.Host Sample.host Sample.externals
              (Sample.running [x01] 0 1000 [1; 2; 3]) x01
              ltac:(by_compute) ltac:(by_compute)) as (Hmove & _ & _).
  destruct (@roll_moves_one_element Sample.Host Sample.host Sample.externals
              (Sample.running [x02] 0 1000 [1; 2; 3]) x02
              ltac:(by_compute) ltac:(by_compute)) as (_ & Hnone & _).
  destruct (@roll_moves_one_element Sample.Host Sample.host Sample.externals
              (Sample.running [x03] 0 1000 [1; 2; 3]) x03
              ltac:(by_compute) ltac:(by_compute)) as (_ & _ & Hout).
  split; [from_instance (Hmove 3 ltac:(by_compute) ltac:(by_compute)) |].
  split; [from_instance (Hnone ltac:(by_compute)) |].
  from_instance (Hout ltac:(by_compute)).
Defined.

(** 7 divided by -3: the quotient and the remainder that [div] and [mod]
    push. *)
Lemma div_and_mod_are_euclidean_witness :
  let vm := Sample.running [] 0 1000 [-3; 7] in
  let popped := Sample.running [] 0 1000 [] in
  exists q r : BigInt,
    exec_op DIV vm = pushOrHalt q popped
    /\ exec_op MOD vm = pushOrHalt r popped
    /\ 7 = q * -3 + r
    /\ 0 <= r < 3.
Proof.
  cbv zeta.
  destruct (@div_and_mod_are_euclidean Sample.Host Sample.host Sample.externals
              (Sample.running [] 0 1000 [-3; 7]) (-3) 7 []
              ltac:(by_compute) ltac:(by_compute)) as (q & r & Hd & Hm & Heq & Hr).
  exists q, r. split; [exact Hd |]. split; [exact Hm |]. split; [exact Heq | exact Hr].
Defined.

Example run_division_of_negative :
  exec_op DIV (Sample.running [] 0 1000 [-3; 7])
  = Ok Continue (Sample.running [] 0 1000 [-2])
  /\ exec_op MOD (Sample.running [] 0 1000 [-3; 7])
     = Ok Continue (Sample.running [] 0 1000 [1])
  /\ exec_op MOD (Sample.running [] 0 1000 [3; -7])
     = Ok Continue (Sample.running [] 0 1000 [2]).
Proof. repeat split; by_compute. Qed.

(** 3 [lt] 5 and 3 [gte] 5. *)
Lemma comparison_pushes_truth_value_witness :
  exec_op LT (Sample.running [] 0 1000 [5; 3]) = Ok Continue (Sample.running [] 0 1000 [1])
  /\ exec_op GTE (Sample.running [] 0 1000 [5; 3])
     = Ok Continue (Sample.running [] 0 1000 [0]).
Proof.
  destruct (@comparison_pushes_truth_value Sample.Host Sample.host Sample.externals
              LT (Sample.running [] 0 1000 [5; 3]) 5 3 [] true
              ltac:(by_compute) ltac:(by_compute)) as [Hlt _].
  destruct (@comparison_pushes_truth_value Sample.Host Sample.host Sample.externals
              GTE (Sample.running [] 0 1000 [5; 3]) 5 3 [] false
              ltac:(by_compute) ltac:(by_compute)) as [Hgte _].
  split; [from_instance Hlt | from_instance Hgte].
Defined.

(** [neg] on 5 above 2, twice. *)
Lemma neg_twice_restores_the_stack_witness :
  let vm := Sample.running [] 0 1000 [5; 2] in
  exists vm1 : VM Sample.Host,
    exec_op NEG vm = Ok Continue vm1
    /\ Stack.Stack (evaluationStack vm1) = [-5; 2]
    /\ exec_op NEG vm1 = Ok Continue vm.
Proof.
  cbv zeta.
  destruct (@neg_twice_restores_the_stack Sample.Host Sample.host Sample.externals
              (Sample.running [] 0 1000 [5; 2]) 5 [2]
              ltac:(by_compute) ltac:(by_compute)) as (vm1 & H1 & H2 & H3).
  exists vm1. split; [exact H1 |]. split; [exact H2 | exact H3].
Defined.

(** [jmp 65535] in a contract of four bytes. *)
Lemma jmp_target_is_not_checked_witness :
  let program := [x13; xff; xff; x31] in
  let vm := Sample.loaded program 10 1000 in
  iter 10 vm
  = Ok (Continue, 9)
       (mkVM program 65535 (Sample.stack_of 1000 []) [] (Sample.mkHost program [] 10 []))
  /\ loop 2 10 vm
     = Some (Ok false
               (mkVM program 65535
                  (Sample.stack_of 1000 [StrToBigInt "instructionSet out of bounds"])
                  [] (Sample.mkHost program [] 10 []))).
Proof.
  cbv zeta.
  destruct (@jmp_target_is_not_checked Sample.Host Sample.host Sample.externals
              10 (Sample.loaded [x13; xff; xff; x31] 10 1000)
              x13 xff xff (mkOpCode "jmp" 2 1)
              ltac:(by_compute) ltac:(by_compute) ltac:(by_compute)
              ltac:(by_compute) ltac:(by_compute) ltac:(by_compute)
              ltac:(by_compute) ltac:(by_compute)) as [Hiter Hloop].
  split; [from_instance Hiter |].
  from_instance (Hloop ltac:(by_compute) 0%nat).
Defined.

(** [callif] with the target 0, which [call] refuses: with 0 on top it is
    stepped over, with 1 on top it is an error. *)
Lemma callif_checks_target_only_when_taken_witness :
  exec_op CALLIF (Sample.running [x00; x00; x00; x31] 0 1000 [0; 8])
  = Ok Continue (Sample.running [x00; x00; x00; x31] 3 1000 [8])
  /\ exec_op CALLIF (Sample.running [x00; x00; x00; x31] 0 1000 [1; 8])
     = Ok (Return false)
          (Sample.running [x00; x00; x00; x31] 3 1000
             [StrToBigInt "ReturnAddress out of bounds"; 8]).
Proof.
  destruct (@callif_checks_target_only_when_taken Sample.Host Sample.host
              Sample.externals (Sample.running [x00; x00; x00; x31] 0 1000 [0; 8])
              x00 x00 x00 0 [8]
              ltac:(by_compute) ltac:(by_compute) ltac:(by_compute)
              ltac:(by_compute) ltac:(by_compute)) as [Hskip _].
  destruct (@callif_checks_target_only_when_taken Sample.Host Sample.host
              Sample.externals (Sample.running [x00; x00; x00; x31] 0 1000 [1; 8])
              x00 x00 x00 1 [8]
              ltac:(by_compute) ltac:(by_compute) ltac:(by_compute)
              ltac:(by_compute) ltac:(by_compute)) as [_ Htaken].
  split; [from_instance (Hskip ltac:(by_compute)) |].
  from_instance (Htaken ltac:(by_compute)).
Defined.

(** [call 4 1] with 7 on top of 9, then [ret]: back at byte 3. *)
Lemma call_then_ret_returns_witness :
  let program := [x00; x04; x01; x31; x18] in
  let vm := Sample.running program 0 1000 [7; 9] in
  exists vm1 : VM Sample.Host,
    exec_op CALL vm = Ok Continue vm1
    /\ pc vm1 = 4
    /\ exec_op RET vm1 = Ok Continue (Sample.running program 3 1000 [9]).
Proof.
  cbv zeta.
  assert (hc : exec_op CALL (Sample.running [x00; x04; x01; x31; x18] 0 1000 [7; 9])
               = Ok Continue
                    (match exec_op CALL
                             (Sample.running [x00; x04; x01; x31; x18] 0 1000 [7; 9])
                     with
                     | Ok _ vm1 => vm1
                     | Panicked => Sample.running [] 0 0 []
                     end))
    by by_compute.
  pose proof (@call_then_ret_returns Sample.Host Sample.host Sample.externals
                (Sample.running [x00; x04; x01; x31; x18] 0 1000 [7; 9]) _ hc) as Hret.
  eexists. split; [exact hc |]. split; [by_compute |]. from_instance Hret.
Defined.

(** [store 2] of 42 in a frame, then [load 2] and [load 3]. *)
Lemma store_then_load_reads_back_witness :
  let host := Sample.mkHost [x02] [] 0 [] in
  let vm := mkVM [x02] 0 (Sample.stack_of 1000 [42]) [mkFrame 9 ∅] host in
  let stored := mkFrame 9 (<[2 := 42]> ∅) in
  exec_op STORE vm = Ok Continue (mkVM [x02] 1 (Sample.stack_of 1000 []) [stored] host)
  /\ exec_op LOAD (mkVM [x02] 0 (Sample.stack_of 1000 []) [stored] host)
     = Ok Continue (mkVM [x02] 1 (Sample.stack_of 1000 [42]) [stored] host)
  /\ exec_op LOAD (mkVM [x03] 0 (Sample.stack_of 1000 []) [stored] host)
     = Ok Continue (mkVM [x03] 1 (Sample.stack_of 1000 [0]) [stored] host).
Proof.
  cbv zeta.
  destruct (@store_then_load_reads_back Sample.Host Sample.host Sample.externals
              (mkVM [x02] 0 (Sample.stack_of 1000 [42]) [mkFrame 9 ∅]
                 (Sample.mkHost [x02] [] 0 []))
              x02 42 [] (mkFrame 9 ∅) []
              ltac:(by_compute) ltac:(by_compute) ltac:(by_compute) eq_refl)
    as [Hstore Hload].
  split; [from_instance Hstore |].
  split.
  - from_instance
      (Hload (mkVM [x02] 0 (Sample.stack_of 1000 []) [mkFrame 9 (<[2 := 42]> ∅)]
                (Sample.mkHost [x02] [] 0 []))
             x02 eq_refl ltac:(by_compute) ltac:(by_compute)).
  - from_instance
      (Hload (mkVM [x03] 0 (Sample.stack_of 1000 []) [mkFrame 9 (<[2 := 42]> ∅)]
                (Sample.mkHost [x02] [] 0 []))
             x03 eq_refl ltac:(by_compute) ltac:(by_compute)).
Defined.

(** [load 0] and [store 0] at the top level of a contract. *)
Lemma load_and_store_need_a_frame_witness :
  exec_op LOAD (Sample.running [x00] 0 1000 [42])
  = Ok (Return false)
       (Sample.running [x00] 1 1000 [StrToBigInt "pop on empty stack"; 42])
  /\ exec_op STORE (Sample.running [x00] 0 1000 [42])
     = Ok (Return false) (Sample.running [x00] 1 1000 [StrToBigInt "pop on empty stack"]).
Proof.
  destruct (@load_and_store_need_a_frame Sample.Host Sample.host Sample.externals
              (Sample.running [x00] 0 1000 [42]) x00
              ltac:(by_compute) ltac:(by_compute) eq_refl) as [Hload Hstore].
  split; [from_instance Hload |].
  from_instance (Hstore 42 [] ltac:(by_compute)).
Defined.

(** Transaction data with the parameters [01] and [02 03]. *)
Lemma calldata_pushes_the_parameters_witness :
  let host := Sample.mkHost [] [] 0 [x00; x01; x01; x02; x03] in
  parameters [[x01]; [x02; x03]] = [x00; x01; x01; x02; x03]
  /\ exec_op CALLDATA (NewVM 1000 host)
     = Ok Continue (mkVM [] 0 (Sample.stack_of 1000 [515; 1]) [] host).
Proof.
  cbv zeta. split; [by_compute |].
  from_instance
    (@calldata_pushes_the_parameters Sample.Host Sample.host Sample.externals
       (NewVM 1000 (Sample.mkHost [] [] 0 [x00; x01; x01; x02; x03]))
       [[x01]; [x02; x03]]
       ltac:(by_compute)
       ltac:(repeat (constructor; [split; by_compute |]); constructor)
       ltac:(by_compute)).
Defined.

(** Transaction data with the parameter [01] and then a length byte 2 with
    one byte behind it. *)
Lemma calldata_refuses_truncated_data_witness :
  let host := Sample.mkHost [] [] 0 [x00; x01; x02; x07] in
  exec_op CALLDATA (NewVM 1000 host)
  = Ok (Return false)
       (mkVM [] 0 (Sample.stack_of 1000 [StrToBigInt "Index out of bounds"; 1]) [] host).
Proof.
  cbv zeta.
  from_instance
    (@calldata_refuses_truncated_data Sample.Host Sample.host Sample.externals
       (NewVM 1000 (Sample.mkHost [] [] 0 [x00; x01; x02; x07]))
       [[x01]] x02 [x07]
       ltac:(by_compute) ltac:(by_compute)
       ltac:(repeat (constructor; [split; by_compute |]); constructor)
       ltac:(by_compute)).
Defined.

(** -5 shifted by 3 to the left and to the right. *)
Lemma shifts_multiply_and_divide_witness :
  exec_op SHIFTL (Sample.running [x03] 0 1000 [-5])
  = Ok Continue (Sample.running [x03] 1 1000 [-40])
  /\ exec_op SHIFTR (Sample.running [x03] 0 1000 [-5])
     = Ok Continue (Sample.running [x03] 1 1000 [-1]).
Proof.
  destruct (@shifts_multiply_and_divide Sample.Host Sample.host Sample.externals
              (Sample.running [x03] 0 1000 [-5]) x03 (-5) []
              ltac:(by_compute) ltac:(by_compute) ltac:(by_compute))
    as (Hl & Hr & _).
  split; [from_instance Hl | from_instance Hr].
Defined.

(** [nop] before a byte, [nop] at the end of the code, and [callext]
    before 37 bytes. *)
Lemma nop_and_callext_only_move_pc_witness :
  exec_op NOP (Sample.running [x31] 0 1000 [4]) = Ok Continue (Sample.running [x31] 1 1000 [4])
  /\ exec_op NOP (Sample.running [x12] 1 1000 [4])
     = Ok (Return false)
          (Sample.running [x12] 1 1000 [StrToBigInt "instructionSet out of bounds"; 4])
  /\ exec_op CALLEXT (Sample.running (repeat x00 37) 0 1000 [4])
     = Ok Continue (Sample.running (repeat x00 37) 37 1000 [4]).
Proof.
  destruct (@nop_and_callext_only_move_pc Sample.Host Sample.host Sample.externals
              (Sample.running [x31] 0 1000 [4]) ltac:(by_compute)) as (Hin & _ & _).
  destruct (@nop_and_callext_only_move_pc Sample.Host Sample.host Sample.externals
              (Sample.running [x12] 1 1000 [4]) ltac:(by_compute)) as (_ & Hout & _).
  destruct (@nop_and_callext_only_move_pc Sample.Host Sample.host Sample.externals
              (Sample.running (repeat x00 37) 0 1000 [4]) ltac:(by_compute))
    as (_ & _ & Hext).
  split; [from_instance (Hin ltac:(by_compute)) |].
  split; [from_instance (Hout ltac:(by_compute)) |].
  from_instance (Hext ltac:(by_compute)).
Defined.

(** [arrinsert] at index 0 into the empty array, whose word is 2. *)
Lemma arrinsert_refuses_the_end_witness :
  exec_op ARRINSERT (Sample.running [] 0 1000 [0; 9; 2])
  = Ok (Return false) (Sample.running [] 0 1000 [StrToBigInt "Index out of bounds"]).
Proof.
  from_instance
    (@arrinsert_refuses_the_end Sample.Host Sample.host Sample.externals
       (Sample.running [] 0 1000 [0; 9; 2]) 0 9 2 [] [] 0 0
       ltac:(by_compute) ltac:(by_compute) ltac:(by_compute)
       ltac:(by_compute) ltac:(by_compute) ltac:(by_compute)).
Defined.

(** A key of 63 bytes, and a key of 64 bytes with a hash of 31 bytes. *)
Lemma checksig_refuses_leading_zero_bytes_witness :
  exec_op CHECKSIG (Sample.running [] 0 100000 [256 ^ 63 - 1; 256 ^ 31])
  = Ok (Return false)
       (Sample.running [] 0 100000 [StrToBigInt "Not a valid address"])
  /\ exec_op CHECKSIG (Sample.running [] 0 100000 [256 ^ 63; 256 ^ 31 - 1])
     = Ok (Return false)
          (Sample.running [] 0 100000 [StrToBigInt "Not a valid hash"]).
Proof.
  destruct (@checksig_refuses_leading_zero_bytes Sample.Host Sample.host
              Sample.externals
              (Sample.running [] 0 100000 [256 ^ 63 - 1; 256 ^ 31])
              (256 ^ 63 - 1) (256 ^ 31) [] ltac:(by_compute)) as [Hkey _].
  destruct (@checksig_refuses_leading_zero_bytes Sample.Host Sample.host
              Sample.externals
              (Sample.running [] 0 100000 [256 ^ 63; 256 ^ 31 - 1])
              (256 ^ 63) (256 ^ 31 - 1) [] ltac:(by_compute)) as [_ Hhash].
  split; [from_instance (Hkey ltac:(by_compute)) |].
  from_instance (Hhash ltac:(by_compute) ltac:(by_compute)).
Defined.

(** [add] and [arrat] on an empty stack. *)
Lemma underflow_is_reported_witness :
  exec_op ADD (Sample.running [] 0 1000 [])
  = Ok (Return false) (Sample.running [] 0 1000 [StrToBigInt "pop on empty stack"])
  /\ exec_op ARRAT (Sample.running [x00; x00; x31] 0 1000 [])
     = Ok (Return false)
          (Sample.running [x00; x00; x31] 0 1000 [StrToBigInt "pop on empty stack"]).
Proof.
  split.
  - from_instance
      (@underflow_is_reported Sample.Host Sample.host Sample.externals
         ADD (Sample.running [] 0 1000 [])
         ltac:(unfold pops_first; cbn [In]; repeat first [left; reflexivity | right])
         ltac:(by_compute)).
  - from_instance
      (@underflow_is_reported Sample.Host Sample.host Sample.externals
         ARRAT (Sample.running [x00; x00; x31] 0 1000 [])
         ltac:(unfold pops_first; cbn [In]; repeat first [left; reflexivity | right])
         ltac:(by_compute)).
Defined.

(** A balance of 1 arrives as [2 ^ 56]. *)
Lemma balance_is_pushed_byte_reversed_witness :
  big.SetBytes (PutUint64_le 1) = 2 ^ 56
  /\ reversed64 1 = 1 * 2 ^ 56.
Proof.
  split; [by_compute |].
  exact (proj2 (proj2 (@balance_is_pushed_byte_reversed Sample.Host Sample.host
                         Sample.externals (Sample.machine [] 0 1000)))
           1 ltac:(split; by_compute)).
Defined.

(** [sha3] of 5 and of -5. *)
Lemma sha3_ignores_the_sign_witness :
  exec_op SHA3 (Sample.running [] 0 1000 [-5]) = exec_op SHA3 (Sample.running [] 0 1000 [5]).
Proof.
  etransitivity; [| exact (@sha3_ignores_the_sign Sample.Host Sample.host
                             Sample.externals (Sample.running [] 0 1000 [5]) 5 []
                             ltac:(by_compute))].
  by_compute.
Defined.
